(** * IMDB episode-rating scraper: extraction pipeline and analytics

    A shallow embedding of [imdb_scraper.py].  Python values read from the
    page's JSON-LD block are modelled by the inductive type [value]; Python
    floats are IEEE-754 binary64 numbers, modelled by the kernel's primitive
    [float]; Python integers are unbounded, modelled by [Z]; exceptions are
    modelled by the [result] type.  The HTML parser (BeautifulSoup), the JSON
    decoder and the few built-ins whose algorithms live in the interpreter
    ([float] on a string, [round], [repr]) are interfaces of the development:
    the code is verified against any implementation of them.

    A Python [str] is modelled by a [string], one character per code point.
    This covers the code points below 256, on which the regular-expression
    class [\d] is exactly the ten characters 0-9.  The digit limit of [int]
    on a string is modelled (a ValueError); the limits of memory and of
    recursion depth are not. *)

From Stdlib Require Import List String Ascii ZArith Lia Bool Floats DecimalString.
From Stdlib Require Import Permutation Sorted.
Import ListNotations.

Local Open Scope string_scope.
Local Open Scope Z_scope.

#[local] Set Warnings "-register-all,-inexact-float".

(** * Part I: the embedding *)

(** ** Python values, exceptions *)

(** What [json.loads] can return: the values of the structured-data tree.
    A JSON object is an association list in insertion order. *)
Inductive value : Type :=
| VNone
| VBool (b : bool)
| VInt (n : Z)
| VFloat (x : float)
| VStr (s : string)
| VList (l : list value)
| VDict (d : list (string * value)).

(** The exceptions the built-in operations used by the code can raise. *)
Inductive exn : Type :=
| AttributeError
| TypeError
| ValueError
| OverflowError
| KeyError.

Inductive result (A : Type) : Type :=
| Ok (a : A)
| Raise (e : exn).

Arguments Ok {A} a.
Arguments Raise {A} e.

Definition bind {A B : Type} (m : result A) (k : A -> result B) : result B :=
  match m with
  | Ok a => k a
  | Raise e => Raise e
  end.

Notation "x <- m ;; k" := (bind m (fun x => k))
  (at level 61, m at next level, right associativity).

(** [try: ... except (ValueError, TypeError): pass] around a conversion whose
    result replaces [default]. *)
Definition except_value_type {A : Type} (m : result A) (default : A) : result A :=
  match m with
  | Ok a => Ok a
  | Raise ValueError => Ok default
  | Raise TypeError => Ok default
  | Raise e => Raise e
  end.

(** [try: ... except ValueError: pass]. *)
Definition except_value {A : Type} (m : result A) (default : A) : result A :=
  match m with
  | Ok a => Ok a
  | Raise ValueError => Ok default
  | Raise e => Raise e
  end.

(** ** Characters and strings *)

Definition code (c : ascii) : N := N_of_ascii c.

(** [\d] on the code points below 256. *)
Definition is_digit (c : ascii) : bool :=
  ((48 <=? code c) && (code c <=? 57))%N.

(** [\s], and what [str.strip] treats as white space, on the code points
    below 256: tab to carriage return, the four separators 28-31, the space,
    NEL and the no-break space. *)
Definition is_space (c : ascii) : bool :=
  (((9 <=? code c) && (code c <=? 13)) || ((28 <=? code c) && (code c <=? 32))
   || (code c =? 133) || (code c =? 160))%N.

(** The white space [int] accepts around the digits of a string: that of
    [is_space] but for the four separators 28-31. *)
Definition is_int_space (c : ascii) : bool :=
  (((9 <=? code c) && (code c <=? 13)) || (code c =? 32)
   || (code c =? 133) || (code c =? 160))%N.

Definition digit_value (c : ascii) : Z := Z.of_N (code c) - 48.

(** The double quote, for the selectors that carry one. *)
Definition dq : string := String (ascii_of_N 34) EmptyString.

Definition quoted (s : string) : string := dq ++ s ++ dq.

(** The white space [int] skips at both ends of a string. *)
Fixpoint lstrip (s : string) : string :=
  match s with
  | EmptyString => EmptyString
  | String c r => if is_int_space c then lstrip r else s
  end.

Fixpoint rstrip (s : string) : string :=
  match s with
  | EmptyString => EmptyString
  | String c r =>
      match rstrip r with
      | EmptyString =>
          if is_int_space c then EmptyString else String c EmptyString
      | r' => String c r'
      end
  end.

Definition strip (s : string) : string := rstrip (lstrip s).

(** The digits of [int(s)]: decimal digits, single underscores allowed
    between two digits. *)
Fixpoint parse_digits (acc : Z) (after_digit : bool) (s : string) : option Z :=
  match s with
  | EmptyString => if after_digit then Some acc else None
  | String c r =>
      if is_digit c then parse_digits (10 * acc + digit_value c) true r
      else if (code c =? 95)%N then
        if after_digit then parse_digits acc false r else None
      else None
  end.

(** The digit limit of [int] on a string ([sys.int_max_str_digits], 4300
    unless the interpreter is started with another): the digits are counted,
    leading zeros included, underscores and the sign not. *)
Definition int_max_str_digits : nat := 4300.

Fixpoint count_digits (s : string) : nat :=
  match s with
  | EmptyString => 0
  | String c r => ((if is_digit c then 1 else 0) + count_digits r)%nat
  end.

(** The digits of [int(s)] after the sign: ValueError past the limit. *)
Definition int_of_digits_text (s : string) : option Z :=
  if (int_max_str_digits <? count_digits s)%nat then None
  else parse_digits 0 false s.

(** [int(s)] for a string: white space skipped at both ends, an optional
    sign, digits; [None] stands for ValueError. *)
Definition int_of_str (s : string) : option Z :=
  match strip s with
  | String c r =>
      if (code c =? 45)%N then option_map Z.opp (int_of_digits_text r)
      else if (code c =? 43)%N then int_of_digits_text r
      else int_of_digits_text (String c r)
  | EmptyString => None
  end.

(** [str(n)] for an integer. *)
Definition str_of_Z (n : Z) : string := NilZero.string_of_int (Z.to_int n).

(** [needle in haystack] for two strings. *)
Definition contains (haystack needle : string) : bool :=
  match index 0 needle haystack with
  | Some _ => true
  | None => false
  end.

(** ** Regular expressions

    The patterns of the source use literals, character classes, the greedy
    quantifiers [?], [*], [+] on a single character or class, and one group.
    [run] is the backtracking matcher of [re]: a quantifier takes as much as
    it can and gives back one character at a time when the rest fails. *)

Inductive item : Type :=
| One (p : ascii -> bool)
| Opt (p : ascii -> bool)
| Star (p : ascii -> bool)
| Plus (p : ascii -> bool)
| GroupOpen
| GroupClose.

Definition regex : Type := list item.

(** Positions are the suffixes still to read. *)
Record found : Type := {
  group_start : option string;
  group_end : option string;
  match_end : string
}.

Fixpoint star (p : ascii -> bool) (k : string -> option found) (s : string)
  : option found :=
  match s with
  | String c r =>
      if p c then
        match star p k r with
        | Some f => Some f
        | None => k s
        end
      else k s
  | EmptyString => k s
  end.

Fixpoint run (r : regex) (go gc : option string) (s : string) : option found :=
  match r with
  | [] => Some {| group_start := go; group_end := gc; match_end := s |}
  | One p :: r' =>
      match s with
      | String c t => if p c then run r' go gc t else None
      | EmptyString => None
      end
  | Opt p :: r' =>
      match s with
      | String c t =>
          if p c then
            match run r' go gc t with
            | Some f => Some f
            | None => run r' go gc s
            end
          else run r' go gc s
      | EmptyString => run r' go gc s
      end
  | Star p :: r' => star p (run r' go gc) s
  | Plus p :: r' =>
      match s with
      | String c t => if p c then star p (run r' go gc) t else None
      | EmptyString => None
      end
  | GroupOpen :: r' => run r' (Some s) gc s
  | GroupClose :: r' => run r' go (Some s) s
  end.

(** The text between two positions of one string. *)
Definition between (from to : string) : string :=
  substring 0 (String.length from - String.length to) from.

(** A match object: [group()] and [group(1)]. *)
Record rematch : Type := {
  group0 : string;
  group1 : string
}.

Definition rematch_of (start : string) (f : found) : rematch :=
  {| group0 := between start (match_end f);
     group1 := match group_start f, group_end f with
               | Some a, Some b => between a b
               | _, _ => EmptyString
               end |}.

(** [re.search]: the match at the leftmost position that has one. *)
Fixpoint search (r : regex) (s : string) : option rematch :=
  match run r None None s with
  | Some f => Some (rematch_of s f)
  | None =>
      match s with
      | String _ t => search r t
      | EmptyString => None
      end
  end.

Definition lit (s : string) : regex :=
  map (fun c => One (Ascii.eqb c)) (list_ascii_of_string s).

Definition is_char (n : N) (c : ascii) : bool := (code c =? n)%N.

(** [tt\d+] *)
Definition re_imdb_id : regex := (lit "tt" ++ [Plus is_digit])%list.

(** [season=] and the group [\d+]. *)
Definition re_season : regex :=
  (lit "season=" ++ [GroupOpen; Plus is_digit; GroupClose])%list.

(** The pattern of a rating: a group of [\d+], [\.?], [\d*]. *)
Definition re_rating : regex :=
  [GroupOpen; Plus is_digit; Opt (is_char 46); Star is_digit; GroupClose].

(** [E] and the group [\d+]. *)
Definition re_episode_number : regex :=
  (lit "E" ++ [GroupOpen; Plus is_digit; GroupClose])%list.

Definition is_E_or_S (c : ascii) : bool := is_char 69 c || is_char 83 c.

(** The class of the two separators, the bullet operator U+2219 and the
    middle dot U+00B7; only the second is below 256. *)
Definition is_separator (c : ascii) : bool := is_char 183 c.

(** [.], every character but the line feed. *)
Definition is_dot (c : ascii) : bool := negb (is_char 10 c).

(** The prefix of an episode title: [[ES]], [\d+], [\.?], [[ES]?], [\d*],
    [\s*], a separator, [\s*], then the group [.+]. *)
Definition re_title_prefix : regex :=
  [One is_E_or_S; Plus is_digit; Opt (is_char 46); Opt is_E_or_S; Star is_digit;
   Star is_space; One is_separator; Star is_space;
   GroupOpen; Plus is_dot; GroupClose].

(** ** Built-in operations on values *)

(** [bool(v)] *)
Definition truthy (v : value) : bool :=
  match v with
  | VNone => false
  | VBool b => b
  | VInt n => negb (n =? 0)
  | VFloat x => negb (x =? 0)%float
  | VStr s => negb (s =? "")%string
  | VList l => match l with [] => false | _ :: _ => true end
  | VDict d => match d with [] => false | _ :: _ => true end
  end.

Fixpoint lookup (d : list (string * value)) (k : string) : option value :=
  match d with
  | [] => None
  | (k', v) :: d' => if (k' =? k)%string then Some v else lookup d' k
  end.

(** [v.get(k, default)]: only a dict has the method. *)
Definition py_get (v : value) (k : string) (default : value) : result value :=
  match v with
  | VDict d => Ok (match lookup d k with Some x => x | None => default end)
  | _ => Raise AttributeError
  end.

(** [k in v] for a string [k]. *)
Definition py_contains (v : value) (k : string) : result bool :=
  match v with
  | VDict d => Ok (match lookup d k with Some _ => true | None => false end)
  | VList l =>
      Ok (existsb (fun x => match x with VStr s => (s =? k)%string | _ => false end) l)
  | VStr s => Ok (contains s k)
  | _ => Raise TypeError
  end.

(** [v[k]] for a string [k]. *)
Definition py_subscript (v : value) (k : string) : result value :=
  match v with
  | VDict d => match lookup d k with Some x => Ok x | None => Raise KeyError end
  | _ => Raise TypeError
  end.

(** The nearest double of an integer (ties to even), infinite past the
    range. *)
Definition float_of_Z (n : Z) : float :=
  SF2Prim (binary_normalize prec emax n 0 false).

(** [float(n)] for an integer: OverflowError past the range of a double. *)
Definition float_of_int (n : Z) : result float :=
  let x := float_of_Z n in
  if PrimFloat.is_infinity x then Raise OverflowError else Ok x.

(** [int(x)] for a float: truncation towards zero. *)
Definition int_of_float (x : float) : result Z :=
  match Prim2SF x with
  | S754_nan => Raise ValueError
  | S754_infinity _ => Raise OverflowError
  | S754_zero _ => Ok 0
  | S754_finite s m e =>
      let a := Z.shiftl (Zpos m) e in
      Ok (if s then - a else a)
  end.

(** [list(range(a, b))] *)
Definition range_list (a b : Z) : list Z :=
  map (fun i => a + Z.of_nat i) (seq 0 (Z.to_nat (b - a))).

(** [list(range(1, v + 1))]: [v + 1] is an integer for an integer or a
    boolean only, and [range] takes nothing else. *)
Definition range_1_to_plus_1 (v : value) : result (list Z) :=
  match v with
  | VInt n => Ok (range_list 1 (n + 1))
  | VBool b => Ok (range_list 1 ((if b then 1 else 0) + 1))
  | _ => Raise TypeError
  end.

(** [sorted(l, key=key)]: a stable sort. *)
Fixpoint insert_by {A : Type} (key : A -> Z) (x : A) (l : list A) : list A :=
  match l with
  | [] => [x]
  | y :: l' => if key x <=? key y then x :: y :: l' else y :: insert_by key x l'
  end.

Fixpoint py_sorted {A : Type} (key : A -> Z) (l : list A) : list A :=
  match l with
  | [] => []
  | x :: l' => insert_by key x (py_sorted key l')
  end.

(** [s.add(n)] on a set kept as a list without repeats. *)
Definition set_add (n : Z) (s : list Z) : list Z :=
  if existsb (Z.eqb n) s then s else (s ++ [n])%list.

(** [sum(l)] of floats, from the integer 0, left to right, each addition
    rounded (interpreters from version 3.12 on compensate the rounding
    error of the running sum; no property below depends on it). *)
Definition py_sum (l : list float) : float :=
  fold_left PrimFloat.add l 0%float.

(** [min(l, key=key)] and [max(l, key=key)]: the first extremal element. *)
Fixpoint min_from {A : Type} (key : A -> float) (best : A) (l : list A) : A :=
  match l with
  | [] => best
  | x :: l' => min_from key (if (key x <? key best)%float then x else best) l'
  end.

Fixpoint max_from {A : Type} (key : A -> float) (best : A) (l : list A) : A :=
  match l with
  | [] => best
  | x :: l' => max_from key (if (key best <? key x)%float then x else best) l'
  end.

Definition py_min {A : Type} (key : A -> float) (l : list A) : option A :=
  match l with
  | [] => None
  | x :: l' => Some (min_from key x l')
  end.

Definition py_max {A : Type} (key : A -> float) (l : list A) : option A :=
  match l with
  | [] => None
  | x :: l' => Some (max_from key x l')
  end.

Definition or_else {A : Type} (a b : option A) : option A :=
  match a with
  | Some x => Some x
  | None => b
  end.

(** ** The collaborators *)

(** The parsed document (BeautifulSoup): tags, CSS queries in document order,
    text and attributes. *)
Class Soup : Type := {
  tag : Type;
  (** [soup.find("script", type="application/ld+json")] *)
  find_ld_script : tag -> option tag;
  (** [tag.string] *)
  tag_string : tag -> option string;
  (** [tag.select(selector)] *)
  select : tag -> string -> list tag;
  (** [tag.get_text(strip=...)] *)
  get_text : tag -> bool -> string;
  (** [tag.get(attribute)] *)
  get_attr : tag -> string -> option string
}.

(** What [json.loads] does with a text: it returns the decoded value, or
    raises JSONDecodeError on a text that is no JSON, or raises another
    exception: ValueError on an integer literal past the digit limit of
    [int], which is no JSONDecodeError.  (So the integers of a decoded
    value are within the digit limit, and [str] formats them.) *)
Inductive loaded : Type :=
| Loaded (v : value)
| JSONDecodeError
| LoadRaises (e : exn).

(** The interpreter: the JSON decoder, [float] on a string ([None] for
    ValueError), [round(x, ndigits)] and [repr]. *)
Class Interp : Type := {
  json_loads : string -> loaded;
  float_of_str : string -> option float;
  round_float : float -> Z -> float;
  repr : value -> string
}.

(** [tag.select_one(selector)]: the first match. *)
Definition select_one `{Soup} (t : tag) (selector : string) : option tag :=
  hd_error (select t selector).

(** [float(v)] *)
Definition py_float `{Interp} (v : value) : result float :=
  match v with
  | VFloat x => Ok x
  | VInt n => float_of_int n
  | VBool b => Ok (if b then 1%float else 0%float)
  | VStr s => match float_of_str s with Some x => Ok x | None => Raise ValueError end
  | _ => Raise TypeError
  end.

(** [int(v)] *)
Definition py_int (v : value) : result Z :=
  match v with
  | VInt n => Ok n
  | VBool b => Ok (if b then 1 else 0)
  | VFloat x => int_of_float x
  | VStr s => match int_of_str s with Some n => Ok n | None => Raise ValueError end
  | _ => Raise TypeError
  end.

(** [str(v)], as an f-string formats a value. *)
Definition py_str `{Interp} (v : value) : string :=
  match v with
  | VStr s => s
  | VInt n => str_of_Z n
  | VNone => "None"
  | VBool true => "True"
  | VBool false => "False"
  | _ => repr v
  end.

(** ** The records of the data model *)

(** An episode record: the dict with keys "episode_num", "title", "rating".
    The title is whatever the payload holds under "name", a string on every
    other path. *)
Record episode : Type := {
  episode_num : Z;
  title : value;
  rating : option float
}.

(** What [get_show_info] returns. *)
Record show_info : Type := {
  name : value;
  poster_url : option string;
  number_of_seasons : value
}.

(** One season handed to the analytics: keys "season_num" and "episodes". *)
Record season_data : Type := {
  season_num : Z;
  episodes : list episode
}.

(** An entry of [all_episodes]: a rated episode with its season. *)
Module Rated.
Record t : Type := {
  season : Z;
  episode : Z;
  title : value;
  rating : float
}.
End Rated.

(** An entry of [season_averages]. *)
Module SeasonAverage.
Record t : Type := {
  season_num : Z;
  average : float;
  episode_count : nat
}.
End SeasonAverage.

(** What [calculate_analytics] returns. *)
Record analytics : Type := {
  min_episode : option Rated.t;
  max_episode : option Rated.t;
  overall_average : option float;
  season_averages : list SeasonAverage.t;
  best_season : option SeasonAverage.t;
  worst_season : option SeasonAverage.t;
  total_episodes : nat
}.

(** The calls [get_episode_ratings] makes to the other extraction tier. *)
Inductive call : Type :=
| CallCssFallback.

Section Scraper.

Context {soup_impl : Soup} {interp : Interp}.

(** ** Structured-Data Extractor *)

(** [extract_json_ld], lines 25-33.  [None] is [VNone]; the handler of
    line 31 catches JSONDecodeError only. *)
Definition extract_json_ld (soup : tag) : result value :=
  match find_ld_script soup with
  | Some script_tag =>
      match tag_string script_tag with
      | Some s =>
          if negb (s =? "")%string then
            match json_loads s with
            | Loaded v => Ok v
            | JSONDecodeError => Ok VNone
            | LoadRaises e => Raise e
            end
          else Ok VNone
      | None => Ok VNone
      end
  | None => Ok VNone
  end.

(** ** Identifier Resolver *)

(** [get_imdb_id], lines 36-41. *)
Definition get_imdb_id (url : string) : result string :=
  match search re_imdb_id url with
  | None => Raise ValueError
  | Some m => Ok (group0 m)
  end.

(** ** Show-Metadata Recoverer *)

Definition unknown_show : string := "Unknown Show".

Definition sel_hero_title : string :=
  "h1[data-testid=" ++ quoted "hero__pageTitle" ++ "] span".

Definition sel_hero_poster : string :=
  "div[data-testid=" ++ quoted "hero-media__poster" ++ "] img".

(** [v == s] for a string [s]. *)
Definition eq_str (v : value) (s : string) : bool :=
  match v with
  | VStr s' => (s' =? s)%string
  | _ => false
  end.

(** [get_show_info], lines 44-77, on the fetched show page. *)
Definition get_show_info (soup : tag) : result show_info :=
  json_ld <- extract_json_ld soup;;
  from_ld <-
    (if truthy json_ld then
       name <- py_get json_ld "name" (VStr unknown_show);;
       number_of_seasons <- py_get json_ld "numberOfSeasons" VNone;;
       Ok (name, number_of_seasons)
     else Ok (VStr unknown_show, VNone));;
  let '(name, number_of_seasons) := from_ld in
  let name :=
    if eq_str name unknown_show then
      let title_elem :=
        or_else (select_one soup sel_hero_title) (select_one soup "h1") in
      match title_elem with
      | Some e => VStr (get_text e true)
      | None => name
      end
    else name in
  let poster_elem :=
    or_else (select_one soup "img.ipc-image[srcset]")
            (select_one soup sel_hero_poster) in
  let poster_url :=
    match poster_elem with
    | Some e => get_attr e "src"
    | None => None
    end in
  Ok {| name := name; poster_url := poster_url;
        number_of_seasons := number_of_seasons |}.

(** ** Season Enumerator *)

Definition sel_season_links : string :=
  "a[href*=" ++ quoted "episodes?season=" ++ "], a[href*="
  ++ quoted "episodes/?season=" ++ "]".

(** The count the listing page's structured data carries, as the season
    list it stands for: lines 103-109.  [None]: no [return] was reached. *)
Definition seasons_from_json_ld (json_ld : value) : result (option (list Z)) :=
  if truthy json_ld then
    has_series <- py_contains json_ld "partOfSeries";;
    from_series <-
      (if has_series : bool then
         series_data <- py_subscript json_ld "partOfSeries";;
         has_count <- py_contains series_data "numberOfSeasons";;
         if has_count : bool then
           n <- py_subscript series_data "numberOfSeasons";;
           l <- range_1_to_plus_1 n;;
           Ok (Some l)
         else Ok None
       else Ok None);;
    match from_series with
    | Some l => Ok (Some l)
    | None =>
        has_count <- py_contains json_ld "numberOfSeasons";;
        if has_count : bool then
          n <- py_subscript json_ld "numberOfSeasons";;
          l <- range_1_to_plus_1 n;;
          Ok (Some l)
        else Ok None
    end
  else Ok None.

(** The loop of lines 115-118 over the season links. *)
Fixpoint collect_seasons (season_links : list tag) (seasons : list Z)
  : result (list Z) :=
  match season_links with
  | [] => Ok seasons
  | link :: rest =>
      let href := match get_attr link "href" with Some h => h | None => "" end in
      match search re_season href with
      | Some m =>
          match int_of_str (group1 m) with
          | Some n => collect_seasons rest (set_add n seasons)
          | None => Raise ValueError
          end
      | None => collect_seasons rest seasons
      end
  end.

(** Lines 94-122: the listing page, fetched when no count is known. *)
Definition seasons_from_page (soup : tag) : result (list Z) :=
  json_ld <- extract_json_ld soup;;
  from_ld <- seasons_from_json_ld json_ld;;
  match from_ld with
  | Some l => Ok l
  | None =>
      let season_links := select soup sel_season_links in
      match season_links with
      | [] => Ok [1]
      | _ :: _ =>
          seasons <- collect_seasons season_links [];;
          match seasons with
          | [] => Ok [1]
          | _ :: _ => Ok (py_sorted (fun n => n) seasons)
          end
      end
  end.

(** [get_seasons], lines 80-122, on the listing page. *)
Definition get_seasons (soup : tag) (known_season_count : option Z)
  : result (list Z) :=
  match known_season_count with
  | Some n =>
      if 0 <? n then Ok (range_list 1 (n + 1)) else seasons_from_page soup
  | None => seasons_from_page soup
  end.

(** ** Episode Extractor *)

(** One turn of the loop of lines 141-160: the record appended for
    [ep_data] when [episodes] holds the records so far. *)
Definition episode_of_payload (episodes : list episode) (ep_data : value)
  : result episode :=
  let next := Z.of_nat (List.length episodes) + 1 in
  episode_num <- py_get ep_data "episodeNumber" (VInt next);;
  title <- py_get ep_data "name" (VStr ("Episode " ++ py_str episode_num));;
  agg_rating <- py_get ep_data "aggregateRating" (VDict []);;
  rating <-
    (if truthy agg_rating then
       rating_val <- py_get agg_rating "ratingValue" VNone;;
       match rating_val with
       | VNone => Ok None
       | _ => except_value_type (x <- py_float rating_val;; Ok (Some x)) None
       end
     else Ok None);;
  num <- (if truthy episode_num then py_int episode_num else Ok next);;
  Ok {| episode_num := num; title := title; rating := rating |}.

(** The loop itself: [episodes] grows by one record per entry. *)
Fixpoint payload_loop (episode_list : list value) (episodes : list episode)
  : result (list episode) :=
  match episode_list with
  | [] => Ok episodes
  | ep_data :: rest =>
      ep <- episode_of_payload episodes ep_data;;
      payload_loop rest (episodes ++ [ep])
  end.

Definition sel_title_link : string :=
  "a[data-testid=" ++ quoted "episode-title-link" ++ "]".

Definition sel_itemprop_name : string := "a[itemprop=" ++ quoted "name" ++ "]".

Definition sel_title_href : string := "a[href*=" ++ quoted "/title/tt" ++ "]".

Definition sel_episodes_container : string :=
  "[data-testid=" ++ quoted "episodes-container" ++ "] > div".

Definition sel_rating_group : string :=
  "[data-testid=" ++ quoted "ratingGroup--imdb-rating" ++ "]".

(** [not title] for a title that is a string or [None]. *)
Definition no_title (t : option string) : bool :=
  match t with
  | None => true
  | Some s => (s =? "")%string
  end.

(** The containers the fallback scans, lines 174-178: the first selector
    that matches anything. *)
Definition episode_items (soup : tag) : list tag :=
  match select soup "article.episode-item-wrapper" with
  | (_ :: _) as items => items
  | [] =>
      match select soup "div.list_item" with
      | (_ :: _) as items => items
      | [] => select soup sel_episodes_container
      end
  end.

(** The body of the loop of lines 180-235, for the container [item] at the
    1-based position [idx]. *)
Definition episode_of_item (idx : Z) (item : tag) : result episode :=
  let title_elem :=
    or_else (select_one item sel_title_link)
      (or_else (select_one item sel_itemprop_name)
         (or_else (select_one item "strong a")
            (select_one item sel_title_href))) in
  let title :=
    match title_elem with
    | Some e => Some (get_text e true)
    | None => None
    end in
  let title :=
    if no_title title then
      match select_one item "div.ipc-title__text" with
      | Some title_div =>
          let title_text := get_text title_div true in
          match search re_title_prefix title_text with
          | Some m => Some (group1 m)
          | None => Some title_text
          end
      | None => title
      end
    else title in
  let title :=
    match title with
    | Some s => if (s =? "")%string then "Episode " ++ str_of_Z idx else s
    | None => "Episode " ++ str_of_Z idx
    end in
  let rating_elem :=
    or_else (select_one item "span.ipc-rating-star--rating")
      (or_else (select_one item "span.ipc-rating-star")
         (or_else (select_one item ".ratingValue span")
            (select_one item sel_rating_group))) in
  rating <-
    match rating_elem with
    | Some e =>
        let rating_text := get_text e true in
        match search re_rating rating_text with
        | Some m =>
            except_value
              (match float_of_str (group1 m) with
               | Some x => Ok (Some x)
               | None => Raise ValueError
               end) None
        | None => Ok None
        end
    | None => Ok None
    end;;
  ep_num <-
    match select_one item "div.ipc-title__text" with
    | Some ep_num_elem =>
        match search re_episode_number (get_text ep_num_elem false) with
        | Some m =>
            match int_of_str (group1 m) with
            | Some n => Ok n
            | None => Raise ValueError
            end
        | None => Ok idx
        end
    | None => Ok idx
    end;;
  Ok {| episode_num := ep_num; title := VStr title; rating := rating |}.

(** The loop over [enumerate(episode_items, 1)]. *)
Fixpoint items_loop (idx : Z) (items : list tag) (episodes : list episode)
  : result (list episode) :=
  match items with
  | [] => Ok episodes
  | item :: rest =>
      ep <- episode_of_item idx item;;
      items_loop (idx + 1) rest (episodes ++ [ep])
  end.

(** [_get_episode_ratings_css_fallback], lines 169-237. *)
Definition _get_episode_ratings_css_fallback (soup : tag)
  : result (list episode) :=
  items_loop 1 (episode_items soup) [].

(** [get_episode_ratings], lines 125-166, on the fetched season page, with
    the calls it makes to the fallback tier. *)
Definition get_episode_ratings_traced (soup : tag)
  : list call * result (list episode) :=
  let fallback := ([CallCssFallback], _get_episode_ratings_css_fallback soup) in
  match extract_json_ld soup with
  | Raise e => ([], Raise e)
  | Ok json_ld =>
      if truthy json_ld then
        match py_get json_ld "episode" (VList []) with
        | Raise e => ([], Raise e)
        | Ok (VList (ep_data :: rest)) =>
            match payload_loop (ep_data :: rest) [] with
            | Raise e => ([], Raise e)
            | Ok [] => fallback
            | Ok (ep :: eps) => ([], Ok (py_sorted episode_num (ep :: eps)))
            end
        | Ok _ => fallback
        end
      else fallback
  end.

Definition get_episode_ratings (soup : tag) : result (list episode) :=
  snd (get_episode_ratings_traced soup).

(** ** Analytics Engine *)

(** The inner loop of lines 247-255 over one season's episodes. *)
Definition rate_episode (season : season_data)
  (acc : list Rated.t * list float) (ep : episode) : list Rated.t * list float :=
  let '(all_episodes, season_ratings) := acc in
  match rating ep with
  | Some r =>
      ((all_episodes ++
          [{| Rated.season := season_num season;
              Rated.episode := episode_num ep;
              Rated.title := title ep;
              Rated.rating := r |}])%list,
       (season_ratings ++ [r])%list)
  | None => acc
  end.

(** [sum(l) / len(l)] *)
Definition mean (l : list float) : float :=
  (py_sum l / float_of_Z (Z.of_nat (List.length l)))%float.

(** One turn of the outer loop of lines 245-262. *)
Definition rate_season (acc : list Rated.t * list SeasonAverage.t)
  (season : season_data) : list Rated.t * list SeasonAverage.t :=
  let '(all_episodes, season_averages) := acc in
  let '(all_episodes, season_ratings) :=
    fold_left (rate_episode season) (episodes season) (all_episodes, []) in
  match season_ratings with
  | [] => (all_episodes, season_averages)
  | _ :: _ =>
      (all_episodes,
       (season_averages ++
          [{| SeasonAverage.season_num := season_num season;
              SeasonAverage.average := mean season_ratings;
              SeasonAverage.episode_count := List.length season_ratings |}])%list)
  end.

(** [calculate_analytics], lines 240-294. *)
Definition calculate_analytics (seasons_data : list season_data) : analytics :=
  let '(all_episodes, season_averages) :=
    fold_left rate_season seasons_data ([], []) in
  match all_episodes with
  | [] =>
      {| min_episode := None;
         max_episode := None;
         overall_average := None;
         season_averages := [];
         best_season := None;
         worst_season := None;
         total_episodes := 0%nat |}
  | _ :: _ =>
      let min_ep := py_min Rated.rating all_episodes in
      let max_ep := py_max Rated.rating all_episodes in
      let overall_avg := mean (map Rated.rating all_episodes) in
      let best_season := py_max SeasonAverage.average season_averages in
      let worst_season := py_min SeasonAverage.average season_averages in
      {| min_episode := min_ep;
         max_episode := max_ep;
         overall_average := Some (round_float overall_avg 2);
         season_averages := season_averages;
         best_season := best_season;
         worst_season := worst_season;
         total_episodes := List.length all_episodes |}
  end.

End Scraper.

(** ** Rating Colorizer *)

(** [get_rating_color], lines 297-315. *)
Definition get_rating_color (rating : option float) : string :=
  match rating with
  | None => "#3d3d3d"
  | Some rating =>
      if (rating <? 4)%float then "#da3633"
      else if (rating <? 5)%float then "#f85149"
      else if (rating <? 6)%float then "#d29922"
      else if (rating <? 7)%float then "#e3b341"
      else if (rating <? 8)%float then "#7ee787"
      else if (rating <? 9)%float then "#3fb950"
      else "#238636"
  end.

(** ** The buckets of the specification *)

(** The seven buckets of the Rating Colorizer as the specification lists
    them: below 4, the five unit intervals from 4 to 9, and 9 and above. *)
Inductive bucket : Type :=
| Below4
| From4To5
| From5To6
| From6To7
| From7To8
| From8To9
| From9.

Definition in_bucket (b : bucket) (r : float) : bool :=
  match b with
  | Below4 => (r <? 4)%float
  | From4To5 => (4 <=? r)%float && (r <? 5)%float
  | From5To6 => (5 <=? r)%float && (r <? 6)%float
  | From6To7 => (6 <=? r)%float && (r <? 7)%float
  | From7To8 => (7 <=? r)%float && (r <? 8)%float
  | From8To9 => (8 <=? r)%float && (r <? 9)%float
  | From9 => (9 <=? r)%float
  end.

(** The lookup table from buckets to colours, red to dark green. *)
Definition bucket_color (b : bucket) : string :=
  match b with
  | Below4 => "#da3633"
  | From4To5 => "#f85149"
  | From5To6 => "#d29922"
  | From6To7 => "#e3b341"
  | From7To8 => "#7ee787"
  | From8To9 => "#3fb950"
  | From9 => "#238636"
  end.

Definition neutral_color : string := "#3d3d3d".

(** ** A document given by its query results

    A parsed document for the examples: every node carries its text, its
    attributes and, for each selector that matches below it, the matches in
    document order.  The JSON-LD script is the match of the selector
    "script". *)
Inductive node : Type :=
| Node (text : string) (attrs : list (string * string))
       (matches : list (string * list node)).

Definition node_text (n : node) : string :=
  match n with Node text _ _ => text end.

Definition node_attrs (n : node) : list (string * string) :=
  match n with Node _ attrs _ => attrs end.

Definition node_matches (n : node) : list (string * list node) :=
  match n with Node _ _ matches => matches end.

Fixpoint assoc {A : Type} (l : list (string * A)) (k : string) : option A :=
  match l with
  | [] => None
  | (k', v) :: l' => if (k' =? k)%string then Some v else assoc l' k
  end.

Definition node_select (n : node) (selector : string) : list node :=
  match assoc (node_matches n) selector with
  | Some l => l
  | None => []
  end.

Definition node_soup : Soup :=
  {| tag := node;
     find_ld_script := fun n => hd_error (node_select n "script");
     tag_string := fun n => Some (node_text n);
     select := node_select;
     get_text := fun n _ => node_text n;
     get_attr := fun n a => assoc (node_attrs n) a |}.

(** An interpreter given by tables: the decoded value of each JSON text and
    the float of each numeric text of the examples.  A text that is not in
    the first table is no JSON. *)
Definition table_interp (payloads : list (string * value))
  (floats : list (string * float)) : Interp :=
  {| json_loads := fun s =>
       match assoc payloads s with
       | Some v => Loaded v
       | None => JSONDecodeError
       end;
     float_of_str := assoc floats;
     round_float := fun x _ => x;
     repr := fun _ => "" |}.

(** A page whose only content is a JSON-LD script with the text [ld]. *)
Definition page_with_json_ld (ld : string) : node :=
  Node "" [] [("script", [Node ld [] []])].

(** ** The order of IEEE comparison

    [ord] places every number that is not NaN on a lexicographic scale, on
    which [SFcompare] is the comparison of triples. *)
Definition ord (x : spec_float) : Z * Z * Z :=
  match x with
  | S754_nan => (0, 0, 0)
  | S754_zero _ => (0, 0, 0)
  | S754_infinity true => (-2, 0, 0)
  | S754_infinity false => (2, 0, 0)
  | S754_finite false m e => (1, e, Zpos m)
  | S754_finite true m e => (-1, - e, Zneg m)
  end.

Definition lex_lt (a b : Z * Z * Z) : Prop :=
  let '(a1, a2, a3) := a in
  let '(b1, b2, b3) := b in
  a1 < b1 \/ (a1 = b1 /\ (a2 < b2 \/ (a2 = b2 /\ a3 < b3))).

Definition lex_le (a b : Z * Z * Z) : Prop :=
  let '(a1, a2, a3) := a in
  let '(b1, b2, b3) := b in
  a1 < b1 \/ (a1 = b1 /\ (a2 < b2 \/ (a2 = b2 /\ a3 <= b3))).

Definition not_nan (x : spec_float) : Prop := x <> S754_nan.

Definition key (r : float) : Z * Z * Z := ord (Prim2SF r).

(** ** The rated episodes of the specification *)

(** The ratings that are present, in order. *)
Definition present_ratings (eps : list episode) : list float :=
  flat_map (fun ep => match rating ep with Some r => [r] | None => [] end) eps.

(** The rated episodes of a season, tagged with its number. *)
Definition rated_entries (s : season_data) : list Rated.t :=
  flat_map
    (fun ep =>
       match rating ep with
       | Some r =>
           [{| Rated.season := season_num s;
               Rated.episode := episode_num ep;
               Rated.title := title ep;
               Rated.rating := r |}]
       | None => []
       end) (episodes s).

(** A season with at least one rated episode. *)
Definition has_rated (s : season_data) : bool :=
  existsb (fun ep => match rating ep with Some _ => true | None => false end)
    (episodes s).

Definition rated_count (s : season_data) : nat :=
  List.length (present_ratings (episodes s)).

Definition sum_nat (l : list nat) : nat := fold_right Nat.add 0%nat l.

(** The entry a season contributes to [season_averages]. *)
Definition season_entry (s : season_data) : list SeasonAverage.t :=
  match present_ratings (episodes s) with
  | [] => []
  | (_ :: _) as l =>
      [{| SeasonAverage.season_num := season_num s;
          SeasonAverage.average := mean l;
          SeasonAverage.episode_count := List.length l |}]
  end.

(** ** Identifiers, as the specification describes them *)

Fixpoint all_digits (s : string) : bool :=
  match s with
  | EmptyString => true
  | String c r => is_digit c && all_digits r
  end.

(** "tt" followed by one or more digits. *)
Definition is_imdb_id (m : string) : Prop :=
  exists ds, m = "tt" ++ ds /\ ds <> "" /\ all_digits ds = true.

(** [m] occurs in [url] after the prefix [pre], and no identifier occurs
    earlier, nor a longer one at the same place. *)
Definition first_imdb_id (url pre m : string) : Prop :=
  (exists post, url = pre ++ m ++ post) /\
  is_imdb_id m /\
  forall pre' m' post',
    url = pre' ++ m' ++ post' -> is_imdb_id m' ->
    (String.length pre <= String.length pre')%nat /\
    (String.length pre' = String.length pre ->
     (String.length m' <= String.length m)%nat).

Fixpoint take_while (p : ascii -> bool) (s : string) : string :=
  match s with
  | EmptyString => EmptyString
  | String c r => if p c then String c (take_while p r) else EmptyString
  end.

Fixpoint drop_while (p : ascii -> bool) (s : string) : string :=
  match s with
  | EmptyString => EmptyString
  | String c r => if p c then drop_while p r else s
  end.

Fixpoint skip (n : nat) (s : string) : string :=
  match n, s with
  | O, _ => s
  | S n', String _ r => skip n' r
  | S _, EmptyString => EmptyString
  end.

Definition starts_digit (s : string) : bool :=
  match s with
  | String c _ => is_digit c
  | EmptyString => false
  end.

(** A string that begins with the literal [l] followed by a digit. *)
Definition hit (l s : string) : bool :=
  prefix l s && starts_digit (skip (String.length l) s).

(** Where the matcher stops on a string that begins with "tt" and a digit;
    and on one that begins with [l] and a digit, the digits being the
    group. *)
Definition end_of_id (s : string) : found :=
  {| group_start := None; group_end := None;
     match_end := drop_while is_digit (skip 2 s) |}.

Definition end_of_group (l s : string) : found :=
  let t := skip (String.length l) s in
  {| group_start := Some t;
     group_end := Some (drop_while is_digit t);
     match_end := drop_while is_digit t |}.

(** The value of a string of decimal digits read after [acc]. *)
Fixpoint digits_value (acc : Z) (s : string) : Z :=
  match s with
  | EmptyString => acc
  | String c r => digits_value (10 * acc + digit_value c) r
  end.

(** ** The two tiers of the Episode Extractor *)

Section Tiers.

Context {soup_impl : Soup} {interp : Interp}.

(** The records the structured-data payload of a season page yields: those
    of its "episode" list, none when the payload or the list is missing. *)
Definition payload_records (soup : tag) : result (list episode) :=
  json_ld <- extract_json_ld soup;;
  if truthy json_ld then
    episode_list <- py_get json_ld "episode" (VList []);;
    match episode_list with
    | VList l => payload_loop l []
    | _ => Ok []
    end
  else Ok [].

End Tiers.

(** Ascending by a key, and by the episode number. *)
Definition le_by {A : Type} (key : A -> Z) (a b : A) : Prop := key a <= key b.

Definition le_episode_num : episode -> episode -> Prop := le_by episode_num.

(** ** The season list of the specification *)

(** The SeasonList of the data model: non-empty, strictly ascending (hence
    distinct), positive. *)
Definition season_list (l : list Z) : Prop :=
  l <> [] /\ StronglySorted Z.lt l /\ Forall (fun n => 0 < n) l.

Section SeasonList.

Context {soup_impl : Soup} {interp : Interp}.

(** The digits of the season number a link carries: what follows the first
    "season=" of its target that a digit follows. *)
Definition link_digits (link : tag) : option string :=
  let href := match get_attr link "href" with Some h => h | None => "" end in
  option_map group1 (search re_season href).

(** A run of digits that [int] reads: it is within the digit limit. *)
Definition within_digit_limit (ds : string) : bool :=
  (String.length ds <=? int_max_str_digits)%nat.

(** The numbers a list of season links carries, in document order. *)
Definition link_numbers (links : list tag) : list Z :=
  flat_map
    (fun link =>
       match link_digits link with
       | Some ds => [digits_value 0 ds]
       | None => []
       end) links.

(** The numbers the season links of a listing page carry. *)
Definition link_season_numbers (soup : tag) : list Z :=
  link_numbers (select soup sel_season_links).

(** No season link of the listing page carries a number past the digit
    limit. *)
Definition links_readable (soup : tag) : bool :=
  forallb
    (fun link =>
       match link_digits link with
       | Some ds => within_digit_limit ds
       | None => true
       end) (select soup sel_season_links).

(** The season count a payload carries: the integer under "numberOfSeasons"
    of its "partOfSeries" object when that has one, else the integer under
    its own "numberOfSeasons".  [Some None]: the payload is missing or
    empty, or an object without a count; [None]: the payload is of another
    shape (no object, a series that is no object, a count that is no
    integer). *)
Definition own_count (d : list (string * value)) : option (option Z) :=
  match lookup d "numberOfSeasons" with
  | Some (VInt n) => Some (Some n)
  | Some _ => None
  | None => Some None
  end.

Definition payload_count (json_ld : value) : option (option Z) :=
  if truthy json_ld then
    match json_ld with
    | VDict d =>
        match lookup d "partOfSeries" with
        | Some (VDict series) =>
            match lookup series "numberOfSeasons" with
            | Some (VInt n) => Some (Some n)
            | Some _ => None
            | None => own_count d
            end
        | Some _ => None
        | None => own_count d
        end
    | _ => None
    end
  else Some None.

(** The season count the listing page carries; [None] also when the decoder
    raises. *)
Definition listing_count (soup : tag) : option (option Z) :=
  match extract_json_ld soup with
  | Ok json_ld => payload_count json_ld
  | Raise _ => None
  end.

(** The listing page is usable: its structured data carries a count of at
    least 1, or no count and season links that [int] reads. *)
Definition listing_usable (soup : tag) : Prop :=
  match listing_count soup with
  | Some (Some n) => 1 <= n
  | Some None => links_readable soup = true
  | None => False
  end.

(** A season count is at hand: the known one is positive, or the listing
    page is usable. *)
Definition count_at_hand (soup : tag) (known_season_count : option Z) : Prop :=
  (exists n, known_season_count = Some n /\ 0 < n) \/ listing_usable soup.

(** What [get_seasons] guarantees of its result: a season list, but for a
    0 among the numbers of the links. *)
Definition seasons_result (soup : tag) (l : list Z) : Prop :=
  l <> [] /\
  StronglySorted Z.lt l /\
  Forall (fun n => 0 <= n) l /\
  (~ In 0 (link_season_numbers soup) -> season_list l).

End SeasonList.

(** ** The show name of the specification *)

Section ShowName.

Context {soup_impl : Soup} {interp : Interp}.

(** The value under "name" of a payload that is a JSON object. *)
Definition payload_name (soup : tag) : option value :=
  match extract_json_ld soup with
  | Ok (VDict d) => lookup d "name"
  | _ => None
  end.

(** The heading of the page: the hero title, else the first [h1]. *)
Definition heading (soup : tag) : option tag :=
  or_else (select_one soup sel_hero_title) (select_one soup "h1").

(** The name [get_show_info] is to return. *)
Definition expected_name (soup : tag) : value :=
  match payload_name soup with
  | Some v =>
      if eq_str v unknown_show then
        match heading soup with
        | Some e => VStr (get_text e true)
        | None => v
        end
      else v
  | None =>
      match heading soup with
      | Some e => VStr (get_text e true)
      | None => VStr unknown_show
      end
  end.

(** The decoder does not raise, and the structured data is missing, empty,
    or a JSON object. *)
Definition payload_object_or_absent (soup : tag) : Prop :=
  exists json_ld,
    extract_json_ld soup = Ok json_ld /\
    (truthy json_ld = false \/ exists d, json_ld = VDict d).

(** The structured data does not name the show: it has no "name", or the
    sentinel itself. *)
Definition payload_names_nothing (soup : tag) : Prop :=
  payload_name soup = None \/
  exists v, payload_name soup = Some v /\ eq_str v unknown_show = true.

End ShowName.

(** A name that is a non-empty string. *)
Definition nonempty_name (v : value) : Prop :=
  exists s, v = VStr s /\ s <> "".

(** ** Example documents *)

Definition no_tables : Interp := table_interp [] [].

Definition middle_dot : string := String (ascii_of_N 183) EmptyString.

(** An episode container whose only content is its title text. *)
Definition item_titled (t : string) : node :=
  Node "" [] [("div.ipc-title__text", [Node t [] []])].

(** A season page without structured data whose two containers are titled
    "S1.E2 . Second" and "S1.E1 . First", in this order. *)
Definition unsorted_page : node :=
  Node "" []
    [("article.episode-item-wrapper",
      [item_titled ("S1.E2 " ++ middle_dot ++ " Second");
       item_titled ("S1.E1 " ++ middle_dot ++ " First")])].

Fixpoint zeros (n : nat) : string :=
  match n with
  | O => EmptyString
  | S n' => String "0" (zeros n')
  end.

(** The JSON text of a payload whose only episode has the integer 10^400 as
    its rating value, and the value [json.loads] gives for it. *)
Definition huge_rating_json : string :=
  "{" ++ quoted "episode" ++ ": [{" ++ quoted "aggregateRating" ++ ": {"
  ++ quoted "ratingValue" ++ ": 1" ++ zeros 400 ++ "}}]}".

Definition huge_rating_value : value :=
  VDict [("episode",
          VList [VDict [("aggregateRating",
                         VDict [("ratingValue", VInt (10 ^ 400))])]])].

Definition huge_rating_interp : Interp :=
  table_interp [(huge_rating_json, huge_rating_value)] [].

(** The JSON text of a payload whose only episode has a string where the
    rating aggregate is expected. *)
Definition string_aggregate_json : string :=
  "{" ++ quoted "episode" ++ ": [{" ++ quoted "aggregateRating" ++ ": "
  ++ quoted "8.7" ++ "}]}".

Definition string_aggregate_value : value :=
  VDict [("episode", VList [VDict [("aggregateRating", VStr "8.7")]])].

Definition string_aggregate_interp : Interp :=
  table_interp [(string_aggregate_json, string_aggregate_value)] [].

(** A season whose only episode has no rating. *)
Definition unrated_season : season_data :=
  {| season_num := 1;
     episodes := [{| episode_num := 1; title := VStr "Pilot"; rating := None |}] |}.

(** A link to the episodes of the season [n]. *)
Definition season_link (n : string) : node :=
  Node "" [("href", "/title/tt0903747/episodes?season=" ++ n)] [].

(** A listing page without structured data whose links are [links]. *)
Definition page_with_links (links : list node) : node :=
  Node "" [] [(sel_season_links, links)].

(** The JSON text of a payload that counts zero seasons. *)
Definition zero_seasons_json : string :=
  "{" ++ quoted "numberOfSeasons" ++ ": 0}".

Definition zero_seasons_interp : Interp :=
  table_interp [(zero_seasons_json, VDict [("numberOfSeasons", VInt 0)])] [].

(** The JSON text of a payload whose name is the empty string. *)
Definition empty_name_json : string :=
  "{" ++ quoted "name" ++ ": " ++ quoted "" ++ "}".

Definition empty_name_interp : Interp :=
  table_interp [(empty_name_json, VDict [("name", VStr "")])] [].

(** The JSON text of a payload that names a show of five seasons. *)
Definition named_show_json : string :=
  "{" ++ quoted "name" ++ ": " ++ quoted "Breaking Bad" ++ ", "
  ++ quoted "numberOfSeasons" ++ ": 5}".

Definition named_show_interp : Interp :=
  table_interp
    [(named_show_json,
      VDict [("name", VStr "Breaking Bad"); ("numberOfSeasons", VInt 5)])] [].

(** The JSON text of a payload that is an array. *)
Definition array_json : string := "[{" ++ quoted "name" ++ ": " ++ quoted "x" ++ "}]".

Definition array_interp : Interp :=
  table_interp [(array_json, VList [VDict [("name", VStr "x")]])] [].

(** ** The run: fetching, printing, failing

    [scrape_show] and the functions it calls fetch pages and print their
    progress.  A computation of the run yields the events it caused, in
    order, and either a value or the failure that ended it: an exception of
    the code, or a page that could not be fetched ([requests.get] failing,
    or [raise_for_status] on a status that is no success). *)

Inductive event : Type :=
| Fetched (url : string)
| Printed (line : string).

Inductive failure : Type :=
| PyError (e : exn)
| FetchError (url : string).

Inductive outcome (A : Type) : Type :=
| Done (a : A)
| Failed (f : failure).

Arguments Done {A} a.
Arguments Failed {A} f.

Definition io (A : Type) : Type := list event * outcome A.

Definition io_ret {A : Type} (a : A) : io A := ([], Done a).

Definition io_bind {A B : Type} (m : io A) (k : A -> io B) : io B :=
  match m with
  | (ev, Done a) => let '(ev', out) := k a in ((ev ++ ev')%list, out)
  | (ev, Failed f) => (ev, Failed f)
  end.

Notation "x <~ m ;; k" := (io_bind m (fun x => k))
  (at level 61, m at next level, right associativity).

(** A step that neither fetches nor prints. *)
Definition lift {A : Type} (r : result A) : io A :=
  ([], match r with Ok a => Done a | Raise e => Failed (PyError e) end).

Definition print (line : string) : io unit := ([Printed line], Done tt).

(** The pages fetched by a run, in order. *)
Definition fetched (ev : list event) : list string :=
  flat_map (fun e => match e with Fetched u => [u] | Printed _ => [] end) ev.

(** The web: the parsed document behind a URL, [None] when the request
    fails. *)
Class Web {soup_impl : Soup} : Type := {
  fetch : string -> option tag
}.

Definition show_url (imdb_id : string) : string :=
  "https://www.imdb.com/title/" ++ imdb_id ++ "/".

Definition listing_url (imdb_id : string) : string :=
  "https://www.imdb.com/title/" ++ imdb_id ++ "/episodes/".

Definition season_url (imdb_id : string) (season : Z) : string :=
  "https://www.imdb.com/title/" ++ imdb_id ++ "/episodes/?season="
  ++ str_of_Z season.

(** What [scrape_show] returns. *)
Module ShowData.
Record t : Type := {
  name : value;
  poster_url : option string;
  imdb_id : string;
  seasons : list season_data;
  analytics : analytics;
  max_episodes : nat
}.
End ShowData.

(** [known_season_count is not None and known_season_count > 0] for the
    value [scrape_show] passes, which is whatever the payload held. *)
Definition known_count_positive (v : value) : result bool :=
  match v with
  | VNone => Ok false
  | VInt n => Ok (0 <? n)
  | VBool b => Ok b
  | VFloat x => Ok (0 <? x)%float
  | _ => Raise TypeError
  end.

(** [max(len(s["episodes"]) for s in seasons_data) if seasons_data else 0] *)
Definition max_len (seasons_data : list season_data) : nat :=
  match seasons_data with
  | [] => 0%nat
  | s :: rest =>
      fold_left (fun m s' => if (m <? List.length (episodes s'))%nat
                             then List.length (episodes s') else m)
        rest (List.length (episodes s))
  end.

Section Run.

Context {soup_impl : Soup} {interp : Interp} {web : Web}.

Definition fetch_page (url : string) : io tag :=
  ([Fetched url],
   match fetch url with
   | Some soup => Done soup
   | None => Failed (FetchError url)
   end).

(** [get_show_info(imdb_id)], lines 44-77, with its request. *)
Definition get_show_info_by_id (imdb_id : string) : io show_info :=
  soup <~ fetch_page (show_url imdb_id);;
  lift (get_show_info soup).

(** [get_seasons(imdb_id, known_season_count)], lines 80-122, with its
    request, made only when the known count is not used. *)
Definition get_seasons_by_id (imdb_id : string) (known_season_count : value)
  : io (list Z) :=
  positive <~ lift (known_count_positive known_season_count);;
  if positive : bool then lift (range_1_to_plus_1 known_season_count)
  else
    soup <~ fetch_page (listing_url imdb_id);;
    lift (seasons_from_page soup).

(** [get_episode_ratings(imdb_id, season)], lines 125-166, with its
    request. *)
Definition get_episode_ratings_by_id (imdb_id : string) (season : Z)
  : io (list episode) :=
  soup <~ fetch_page (season_url imdb_id season);;
  lift (get_episode_ratings soup).

(** The loop of lines 334-342 over the season numbers. *)
Fixpoint scrape_seasons (imdb_id : string) (season_nums : list Z)
  (seasons_data : list season_data) : io (list season_data) :=
  match season_nums with
  | [] => io_ret seasons_data
  | season_num :: rest =>
      _ <~ print ("Fetching Season " ++ str_of_Z season_num ++ "...");;
      episodes <~ get_episode_ratings_by_id imdb_id season_num;;
      let seasons_data :=
        (seasons_data ++
           [{| season_num := season_num; episodes := episodes |}])%list in
      _ <~ print ("  Found " ++ str_of_Z (Z.of_nat (List.length episodes))
                  ++ " episode(s)");;
      scrape_seasons imdb_id rest seasons_data
  end.

(** [scrape_show], lines 318-358. *)
Definition scrape_show (url : string) : io ShowData.t :=
  imdb_id <~ lift (get_imdb_id url);;
  _ <~ print ("Scraping IMDB ID: " ++ imdb_id);;
  _ <~ print "Fetching show info...";;
  show_info <~ get_show_info_by_id imdb_id;;
  _ <~ print ("Show: " ++ py_str (name show_info));;
  _ <~ print "Fetching seasons...";;
  season_nums <~ get_seasons_by_id imdb_id (number_of_seasons show_info);;
  _ <~ print ("Found " ++ str_of_Z (Z.of_nat (List.length season_nums))
              ++ " season(s)");;
  seasons_data <~ scrape_seasons imdb_id season_nums [];;
  _ <~ print "Calculating analytics...";;
  let analytics := calculate_analytics seasons_data in
  let max_episodes := max_len seasons_data in
  io_ret {| ShowData.name := name show_info;
            ShowData.poster_url := poster_url show_info;
            ShowData.imdb_id := imdb_id;
            ShowData.seasons := seasons_data;
            ShowData.analytics := analytics;
            ShowData.max_episodes := max_episodes |}.

End Run.

(** ** Slugs and the output file *)

(** [c.lower()] on the code points below 256: the letters A-Z and the
    accented capitals 192-214 and 216-222 move up by 32. *)
Definition lower_char (c : ascii) : ascii :=
  let n := code c in
  if (((65 <=? n) && (n <=? 90)) || ((192 <=? n) && (n <=? 214))
      || ((216 <=? n) && (n <=? 222)))%N
  then ascii_of_N (n + 32) else c.

(** [\w] on the code points below 256: digits, letters, the underscore,
    and the letters and numbers of the upper half. *)
Definition is_word (c : ascii) : bool :=
  let n := code c in
  (((48 <=? n) && (n <=? 57)) || ((65 <=? n) && (n <=? 90)) || (n =? 95)
   || ((97 <=? n) && (n <=? 122)) || (n =? 170)
   || ((178 <=? n) && (n <=? 179)) || (n =? 181)
   || ((185 <=? n) && (n <=? 186)) || ((188 <=? n) && (n <=? 190))
   || ((192 <=? n) && (n <=? 214)) || ((216 <=? n) && (n <=? 246))
   || ((248 <=? n) && (n <=? 255)))%N.

Definition is_hyphen (c : ascii) : bool := is_char 45 c.

(** The class [[-\s]]. *)
Definition is_hyphen_or_space (c : ascii) : bool := is_hyphen c || is_space c.

(** The class [[^\w\s-]]. *)
Definition is_dropped (c : ascii) : bool :=
  negb (is_word c || is_space c || is_hyphen c).

Fixpoint map_string (f : ascii -> ascii) (s : string) : string :=
  match s with
  | EmptyString => EmptyString
  | String c r => String (f c) (map_string f r)
  end.

(** [re.sub(p, '', s)] for a class [p]: the characters of the class go. *)
Fixpoint remove_chars (p : ascii -> bool) (s : string) : string :=
  match s with
  | EmptyString => EmptyString
  | String c r => if p c then remove_chars p r else String c (remove_chars p r)
  end.

(** [re.sub(p+, '-', s)] for a class [p]: every maximal run of the class
    becomes one hyphen.  [in_run]: the character before was of the class. *)
Fixpoint collapse_runs (p : ascii -> bool) (in_run : bool) (s : string)
  : string :=
  match s with
  | EmptyString => EmptyString
  | String c r =>
      if p c then
        if in_run then collapse_runs p true r
        else String "-" (collapse_runs p true r)
      else String c (collapse_runs p false r)
  end.

Fixpoint lstrip_chars (p : ascii -> bool) (s : string) : string :=
  match s with
  | EmptyString => EmptyString
  | String c r => if p c then lstrip_chars p r else s
  end.

Fixpoint rstrip_chars (p : ascii -> bool) (s : string) : string :=
  match s with
  | EmptyString => EmptyString
  | String c r =>
      match rstrip_chars p r with
      | EmptyString => if p c then EmptyString else String c EmptyString
      | r' => String c r'
      end
  end.

(** [s.strip('-')] *)
Definition strip_hyphens (s : string) : string :=
  rstrip_chars is_hyphen (lstrip_chars is_hyphen s).

(** [slugify], lines 374-379. *)
Definition slugify (text : string) : string :=
  let text := map_string lower_char text in
  let text := remove_chars is_dropped text in
  let text := collapse_runs is_hyphen_or_space false text in
  strip_hyphens text.

(** [s.endswith(suffix)] *)
Definition ends_with (s suffix : string) : bool :=
  (String.length suffix <=? String.length s)%nat
  && (substring (String.length s - String.length suffix)
        (String.length suffix) s =? suffix)%string.

(** The output file name of [main], lines 400-406: [output] is the option
    of the command line, [name] the name of the scraped show. *)
Definition output_filename (output : option string) (name : value)
  : result string :=
  let default :=
    match name with
    | VStr s => Ok (slugify s ++ ".html")
    | _ => Raise AttributeError
    end in
  match output with
  | Some o =>
      if (o =? "")%string then default
      else if ends_with o ".html" then Ok o else Ok (o ++ ".html")
  | None => default
  end.

(** The characters of a string. *)
Fixpoint string_forall (p : ascii -> bool) (s : string) : bool :=
  match s with
  | EmptyString => true
  | String c r => p c && string_forall p r
  end.

(** No two hyphens in a row. *)
Fixpoint no_double_hyphen (s : string) : bool :=
  match s with
  | String a ((String b _) as r) =>
      negb (is_hyphen a && is_hyphen b) && no_double_hyphen r
  | _ => true
  end.

Fixpoint last_char (s : string) : option ascii :=
  match s with
  | EmptyString => None
  | String c EmptyString => Some c
  | String _ r => last_char r
  end.

Definition starts_hyphen (s : string) : bool :=
  match s with
  | String c _ => is_hyphen c
  | EmptyString => false
  end.

Definition ends_hyphen (s : string) : bool :=
  match last_char s with
  | Some c => is_hyphen c
  | None => false
  end.

(** A character of a slug: a word character that [lower] leaves alone, or
    a hyphen. *)
Definition slug_char (c : ascii) : bool :=
  (is_word c || is_hyphen c) && Ascii.eqb (lower_char c) c.

(** A slug: slug characters only, hyphens single and inside. *)
Definition is_slug (s : string) : bool :=
  string_forall slug_char s && no_double_hyphen s
  && negb (starts_hyphen s) && negb (ends_hyphen s).

(** What a file name must not hold to stay a plain name: a slash, a
    backslash, a dot, white space. *)
Definition plain_char (c : ascii) : bool :=
  negb (is_char 47 c) && negb (is_char 92 c) && negb (is_char 46 c)
  && negb (is_space c).

(** ** The extremes of the specification *)

(** The choice [min] and [max] make, for any comparison [lt x best]: the
    element that replaces the best so far. *)
Fixpoint select_from {A : Type} (lt : A -> A -> bool) (best : A) (l : list A)
  : A :=
  match l with
  | [] => best
  | x :: l' => select_from lt (if lt x best then x else best) l'
  end.

(** All the rated episodes of the input, season after season. *)
Definition all_rated (sds : list season_data) : list Rated.t :=
  flat_map rated_entries sds.

Definition rating_is_number (e : Rated.t) : Prop :=
  PrimFloat.is_nan (Rated.rating e) = false.

(** Two seasons with a tie at each end: 7.0 twice, 9.0 twice. *)
Definition tied_seasons : list season_data :=
  [{| season_num := 1;
      episodes := [{| episode_num := 1; title := VStr "a"; rating := Some 9%float |};
                   {| episode_num := 2; title := VStr "b"; rating := Some 7%float |}] |};
   {| season_num := 2;
      episodes := [{| episode_num := 1; title := VStr "c"; rating := Some 7%float |};
                   {| episode_num := 2; title := VStr "d"; rating := None |};
                   {| episode_num := 3; title := VStr "e"; rating := Some 9%float |}] |}].

(** An entry of the payload without a usable "episodeNumber": none, or a
    falsy one. *)
Definition no_episode_number (d : list (string * value)) : Prop :=
  match lookup d "episodeNumber" with
  | None => True
  | Some v => truthy v = false
  end.

(** A payload of three entries, the second without a number. *)
Definition three_entries : list value :=
  [VDict [("episodeNumber", VInt 7); ("name", VStr "Seven")];
   VDict [("name", VStr "Unnumbered")];
   VDict [("episodeNumber", VInt 2)]].

(** A listing page without structured data, with links to the seasons 3,
    1 and 3 again. *)
Definition three_links_page : node :=
  page_with_links [season_link "3"; season_link "1"; season_link "3"].

(** ** Orderly runs *)

Section Orderly.

Context {soup_impl : Soup} {web : Web}.

(** The request for [url] is answered. *)
Definition answered (url : string) : bool :=
  match fetch url with
  | Some _ => true
  | None => false
  end.

(** Every request of the run but the last was answered; the last was not
    exactly when the run ended with the failure of a request, which is then
    this one. *)
Definition orderly {A : Type} (m : io A) : Prop :=
  match snd m with
  | Failed (FetchError u) =>
      exists us, fetched (fst m) = (us ++ [u])%list /\
                 forallb answered us = true /\ answered u = false
  | _ => forallb answered (fetched (fst m)) = true
  end.

(** The record of a season is what the extractor makes of the page of the
    season. *)
Definition season_of_its_page {interp : Interp} (imdb_id : string)
  (s : season_data) : Prop :=
  exists soup,
    fetch (season_url imdb_id (season_num s)) = Some soup /\
    get_episode_ratings soup = Ok (episodes s).

End Orderly.

(** A web given by the table of its pages. *)
Definition table_web (pages : list (string * node)) : @Web node_soup :=
  @Build_Web node_soup (assoc pages).

(** A show of two seasons, of one and two episodes, and its three pages. *)
Definition tiny_show_json : string :=
  "{" ++ quoted "name" ++ ": " ++ quoted "Tiny" ++ ", "
  ++ quoted "numberOfSeasons" ++ ": 2}".

Definition tiny_season_1_json : string := "season 1".

Definition tiny_season_2_json : string := "season 2".

Definition tiny_entry (n : Z) (name : string) (r : float) : value :=
  VDict [("episodeNumber", VInt n); ("name", VStr name);
         ("aggregateRating", VDict [("ratingValue", VFloat r)])].

Definition tiny_interp : Interp :=
  table_interp
    [(tiny_show_json,
      VDict [("name", VStr "Tiny"); ("numberOfSeasons", VInt 2)]);
     (tiny_season_1_json,
      VDict [("episode", VList [tiny_entry 1 "One" 8%float])]);
     (tiny_season_2_json,
      VDict [("episode", VList [tiny_entry 2 "Three" 9%float;
                                tiny_entry 1 "Two" 7%float])])] [].

Definition tiny_web : @Web node_soup :=
  table_web
    [(show_url "tt1", page_with_json_ld tiny_show_json);
     (season_url "tt1" 1, page_with_json_ld tiny_season_1_json);
     (season_url "tt1" 2, page_with_json_ld tiny_season_2_json)].

Definition tiny_url : string := "https://www.imdb.com/title/tt1/".

(** The season counts neither the comparison with 0 nor [range] takes: a
    string, an array and an object cannot be compared with 0, and a
    positive float is no bound of a [range]. *)
Definition count_raises (v : value) : bool :=
  match v with
  | VStr _ | VList _ | VDict _ => true
  | VFloat x => (0 <? x)%float
  | VNone | VBool _ | VInt _ => false
  end.

(** A show whose page gives the season count as a string. *)
Definition quoted_count_json : string :=
  "{" ++ quoted "name" ++ ": " ++ quoted "Tiny" ++ ", "
  ++ quoted "numberOfSeasons" ++ ": " ++ quoted "2" ++ "}".

Definition quoted_count_interp : Interp :=
  table_interp
    [(quoted_count_json,
      VDict [("name", VStr "Tiny"); ("numberOfSeasons", VStr "2")])] [].

Definition quoted_count_web : @Web node_soup :=
  table_web [(show_url "tt1", page_with_json_ld quoted_count_json)].

(** ** The overall average of the specification *)











(** ** The numbers the markup fallback reads *)

Section Readable.

Context {soup_impl : Soup}.

(** The digits of the episode number a container carries: what follows the
    first "E" of its title text that a digit follows. *)
Definition episode_number_digits (item : tag) : option string :=
  match select_one item "div.ipc-title__text" with
  | Some e => option_map group1 (search re_episode_number (get_text e false))
  | None => None
  end.

(** No container of the page carries an episode number past the digit
    limit. *)
Definition numbers_readable (soup : tag) : bool :=
  forallb
    (fun item =>
       match episode_number_digits item with
       | Some ds => within_digit_limit ds
       | None => true
       end) (episode_items soup).

End Readable.

(** An interpreter whose decoder raises ValueError on every text, as the
    decoder does on a text with an integer past the digit limit. *)
Definition digit_limit_interp : Interp :=
  {| json_loads := fun _ => LoadRaises ValueError;
     float_of_str := fun _ => None;
     round_float := fun x _ => x;
     repr := fun _ => EmptyString |}.

(** A run of 4301 digits, one more than [int] reads. *)
Definition ones (n : nat) : string := string_of_list_ascii (repeat "1"%char n).

Definition long_digits : string := ones (S int_max_str_digits).

(** A season page without structured data whose only container is titled
    "E" and that run of digits. *)
Definition long_number_page : node :=
  Node "" [] [("article.episode-item-wrapper", [item_titled ("E" ++ long_digits)])].

(** A listing page without structured data whose only link is to the
    season of that number. *)
Definition long_link_page : node := page_with_links [season_link long_digits].

(** A season page without structured data, matched by the most generic
    container selector only, whose two containers hold nothing. *)
Definition generic_page : node :=
  Node "" [] [(sel_episodes_container, [Node "" [] []; Node "" [] []])].

(** * Part II: the properties *)

(** ** The built-ins on known inputs *)

Module Examples.

Example search_rating :
  option_map group1 (search re_rating "Rated 8.5/10 (12K)") = Some "8.5".
Proof. reflexivity. Qed.

Example search_rating_trailing_dot :
  option_map group1 (search re_rating "9.") = Some "9.".
Proof. reflexivity. Qed.

Example search_season :
  option_map group1 (search re_season "/title/tt1/episodes?season=12&ref=x")
  = Some "12".
Proof. reflexivity. Qed.

Example search_title_prefix :
  option_map group1
    (search re_title_prefix ("S1.E2 " ++ middle_dot ++ " Cat's in the Bag"))
  = Some "Cat's in the Bag".
Proof. reflexivity. Qed.

Example search_second_identifier :
  option_map group0 (search re_imdb_id "att tt tt12tt34") = Some "tt12".
Proof. reflexivity. Qed.

Example int_of_str_cases :
  (int_of_str " -1_000 ", int_of_str "1__0", int_of_str "007", int_of_str "+")
  = (Some (-1000), None, Some 7, None).
Proof. reflexivity. Qed.

Example str_of_Z_cases : (str_of_Z 0, str_of_Z (-12), str_of_Z 305)
  = ("0", "-12", "305").
Proof. reflexivity. Qed.

Example float_of_int_rounds_to_even :
  float_of_int 9007199254740993 = Ok 9007199254740992%float.
Proof. reflexivity. Qed.

Example float_of_int_past_the_range :
  float_of_int (2 ^ 1024 - 1) = Raise OverflowError.
Proof. vm_compute. reflexivity. Qed.

(** Scenario B of the specification: no structured data, the generic
    container selector only, no rating element.  Every record has a
    synthesized title and no rating, and the summary is the all-absent one. *)
Example scenario_b :
  @get_episode_ratings node_soup no_tables generic_page
  = Ok [{| episode_num := 1; title := VStr "Episode 1"; rating := None |};
        {| episode_num := 2; title := VStr "Episode 2"; rating := None |}] /\
  total_episodes
    (@calculate_analytics no_tables
       [{| season_num := 1;
           episodes :=
             [{| episode_num := 1; title := VStr "Episode 1"; rating := None |};
              {| episode_num := 2; title := VStr "Episode 2"; rating := None |}]
        |}]) = 0%nat.
Proof. split; vm_compute; reflexivity. Qed.

(** A known count of three seasons, whatever the page. *)
Example three_known_seasons :
  @get_seasons node_soup no_tables generic_page (Some 3) = Ok [1; 2; 3].
Proof. reflexivity. Qed.

End Examples.

(** ** Comparison of floats *)

Module FloatOrder.

Lemma compare_cont_Eq (p q : positive) :
  Pos.compare_cont Eq p q = Pos.compare p q.
Proof. reflexivity. Qed.

Ltac cmp_cases :=
  repeat match goal with
  | |- context [Z.compare ?a ?b] => destruct (Z.compare_spec a b)
  | |- context [Pos.compare ?a ?b] => destruct (Pos.compare_spec a b)
  end.

Lemma SFltb_ord (x y : spec_float) :
  SFltb x y = true <-> (not_nan x /\ not_nan y /\ lex_lt (ord x) (ord y)).
Proof.
  unfold SFltb, not_nan, lex_lt.
  destruct x as [[|]|[|]| |[|] mx ex], y as [[|]|[|]| |[|] my ey];
    cbn [SFcompare ord]; rewrite ?compare_cont_Eq; cmp_cases; cbn [CompOpp];
    split; intros Hcmp; try discriminate Hcmp;
    try (destruct Hcmp as (Hx & Hy & Hlt)); try congruence; try lia;
    try (repeat split; try discriminate; lia).
Qed.

Lemma SFleb_ord (x y : spec_float) :
  SFleb x y = true <-> (not_nan x /\ not_nan y /\ lex_le (ord x) (ord y)).
Proof.
  unfold SFleb, not_nan, lex_le.
  destruct x as [[|]|[|]| |[|] mx ex], y as [[|]|[|]| |[|] my ey];
    cbn [SFcompare ord]; rewrite ?compare_cont_Eq; cmp_cases; cbn [CompOpp];
    split; intros Hcmp; try discriminate Hcmp;
    try (destruct Hcmp as (Hx & Hy & Hlt)); try congruence; try lia;
    try (repeat split; try discriminate; lia).
Qed.

Lemma is_nan_spec (r : float) :
  PrimFloat.is_nan r = false <-> not_nan (Prim2SF r).
Proof.
  unfold PrimFloat.is_nan, not_nan. rewrite FloatAxioms.eqb_spec.
  unfold SFeqb. destruct (Prim2SF r) as [[|]|[|]| |[|] m e]; cbn [SFcompare];
    rewrite ?compare_cont_Eq, ?Z.compare_refl, ?Pos.compare_refl;
    cbn; split; intros; congruence.
Qed.

Lemma ltb_key (x y : float) :
  (x <? y)%float = true <->
  (PrimFloat.is_nan x = false /\ PrimFloat.is_nan y = false
   /\ lex_lt (key x) (key y)).
Proof. rewrite ltb_spec, SFltb_ord, !is_nan_spec. reflexivity. Qed.

Lemma leb_key (x y : float) :
  (x <=? y)%float = true <->
  (PrimFloat.is_nan x = false /\ PrimFloat.is_nan y = false
   /\ lex_le (key x) (key y)).
Proof. rewrite leb_spec, SFleb_ord, !is_nan_spec. reflexivity. Qed.

Lemma leb_trans (x y z : float) :
  (x <=? y)%float = true -> (y <=? z)%float = true -> (x <=? z)%float = true.
Proof.
  rewrite !leb_key. unfold lex_le.
  destruct (key x) as [[x1 x2] x3], (key y) as [[y1 y2] y3],
    (key z) as [[z1 z2] z3].
  intros (Hx & Hy & Hxy) (_ & Hz & Hyz). repeat split; trivial. lia.
Qed.

Lemma leb_ltb_false (x y : float) :
  (y <=? x)%float = true -> (x <? y)%float = false.
Proof.
  intros Hle. destruct (x <? y)%float eqn:Hlt; trivial.
  apply leb_key in Hle. apply ltb_key in Hlt. revert Hle Hlt.
  unfold lex_le, lex_lt.
  destruct (key x) as [[x1 x2] x3], (key y) as [[y1 y2] y3].
  intros (_ & _ & Hle) (_ & _ & Hlt). lia.
Qed.

Lemma ltb_false_leb (x y : float) :
  PrimFloat.is_nan x = false -> PrimFloat.is_nan y = false ->
  (x <? y)%float = false -> (y <=? x)%float = true.
Proof.
  intros Hx Hy Hlt. apply leb_key. repeat split; trivial.
  assert (Hn : ~ lex_lt (key x) (key y)).
  { intros Hl. assert (Ht : (x <? y)%float = true) by (apply ltb_key; auto).
    congruence. }
  revert Hn. unfold lex_le, lex_lt.
  destruct (key x) as [[x1 x2] x3], (key y) as [[y1 y2] y3]. lia.
Qed.

End FloatOrder.

(** ** Rating Colorizer *)

Module Colorizer.

Import FloatOrder.

Lemma bucket_color_inj (b b' : bucket) :
  bucket_color b = bucket_color b' -> b = b'.
Proof. destruct b, b'; intros H; try reflexivity; discriminate H. Qed.

(** A rating inside the interval of a bucket is sent to its colour. *)
Lemma in_bucket_color (b : bucket) (r : float) :
  in_bucket b r = true -> get_rating_color (Some r) = bucket_color b.
Proof.
  assert (H45 : (4 <=? 5)%float = true) by reflexivity.
  assert (H56 : (5 <=? 6)%float = true) by reflexivity.
  assert (H67 : (6 <=? 7)%float = true) by reflexivity.
  assert (H78 : (7 <=? 8)%float = true) by reflexivity.
  assert (H89 : (8 <=? 9)%float = true) by reflexivity.
  unfold get_rating_color.
  destruct b; cbn [in_bucket bucket_color]; rewrite ?andb_true_iff;
    [intros Hin | intros [Hlo Hhi] .. | intros Hin].
  - rewrite Hin. reflexivity.
  - rewrite (leb_ltb_false _ _ Hlo), Hhi. reflexivity.
  - pose proof (leb_trans 4%float 5%float r H45 Hlo) as H4.
    rewrite (leb_ltb_false _ _ H4), (leb_ltb_false _ _ Hlo), Hhi. reflexivity.
  - pose proof (leb_trans 5%float 6%float r H56 Hlo) as H5.
    pose proof (leb_trans 4%float 5%float r H45 H5) as H4.
    rewrite (leb_ltb_false _ _ H4), (leb_ltb_false _ _ H5),
      (leb_ltb_false _ _ Hlo), Hhi. reflexivity.
  - pose proof (leb_trans 6%float 7%float r H67 Hlo) as H6.
    pose proof (leb_trans 5%float 6%float r H56 H6) as H5.
    pose proof (leb_trans 4%float 5%float r H45 H5) as H4.
    rewrite (leb_ltb_false _ _ H4), (leb_ltb_false _ _ H5),
      (leb_ltb_false _ _ H6), (leb_ltb_false _ _ Hlo), Hhi. reflexivity.
  - pose proof (leb_trans 7%float 8%float r H78 Hlo) as H7.
    pose proof (leb_trans 6%float 7%float r H67 H7) as H6.
    pose proof (leb_trans 5%float 6%float r H56 H6) as H5.
    pose proof (leb_trans 4%float 5%float r H45 H5) as H4.
    rewrite (leb_ltb_false _ _ H4), (leb_ltb_false _ _ H5),
      (leb_ltb_false _ _ H6), (leb_ltb_false _ _ H7),
      (leb_ltb_false _ _ Hlo), Hhi. reflexivity.
  - pose proof (leb_trans 8%float 9%float r H89 Hin) as H8.
    pose proof (leb_trans 7%float 8%float r H78 H8) as H7.
    pose proof (leb_trans 6%float 7%float r H67 H7) as H6.
    pose proof (leb_trans 5%float 6%float r H56 H6) as H5.
    pose proof (leb_trans 4%float 5%float r H45 H5) as H4.
    rewrite (leb_ltb_false _ _ H4), (leb_ltb_false _ _ H5),
      (leb_ltb_false _ _ H6), (leb_ltb_false _ _ H7),
      (leb_ltb_false _ _ H8), (leb_ltb_false _ _ Hin). reflexivity.
Qed.

(** Every number lies in the interval of some bucket. *)
Lemma in_some_bucket (r : float) :
  PrimFloat.is_nan r = false -> exists b, in_bucket b r = true.
Proof.
  intros Hr.
  destruct (r <? 4)%float eqn:E4; [exists Below4; exact E4|].
  apply ltb_false_leb in E4; trivial.
  destruct (r <? 5)%float eqn:E5;
    [exists From4To5; cbn; rewrite E4, E5; reflexivity|].
  apply ltb_false_leb in E5; trivial.
  destruct (r <? 6)%float eqn:E6;
    [exists From5To6; cbn; rewrite E5, E6; reflexivity|].
  apply ltb_false_leb in E6; trivial.
  destruct (r <? 7)%float eqn:E7;
    [exists From6To7; cbn; rewrite E6, E7; reflexivity|].
  apply ltb_false_leb in E7; trivial.
  destruct (r <? 8)%float eqn:E8;
    [exists From7To8; cbn; rewrite E7, E8; reflexivity|].
  apply ltb_false_leb in E8; trivial.
  destruct (r <? 9)%float eqn:E9;
    [exists From8To9; cbn; rewrite E8, E9; reflexivity|].
  apply ltb_false_leb in E9; trivial.
  exists From9. exact E9.
Qed.

(** The colour of a present rating is always one of the seven. *)
Lemma color_is_bucket (r : float) :
  exists b, get_rating_color (Some r) = bucket_color b.
Proof.
  unfold get_rating_color.
  destruct (r <? 4)%float; [exists Below4; reflexivity|].
  destruct (r <? 5)%float; [exists From4To5; reflexivity|].
  destruct (r <? 6)%float; [exists From5To6; reflexivity|].
  destruct (r <? 7)%float; [exists From6To7; reflexivity|].
  destruct (r <? 8)%float; [exists From7To8; reflexivity|].
  destruct (r <? 9)%float; [exists From8To9; reflexivity|].
  exists From9. reflexivity.
Qed.

End Colorizer.

(** C5: [get_rating_color] is a function on optional floats (total and
    deterministic, as every function of the embedding): an absent rating
    gets the neutral colour; a present rating gets one of seven colours,
    distinct from each other and from the neutral one; a rating in the
    interval of a bucket (below 4, [4,5), [5,6), [6,7), [7,8), [8,9), 9 and
    above) gets the colour of that bucket, and every number lies in the
    interval of exactly one bucket; 4.0 is in the bucket [4,5) and not in
    the bucket below 4. *)
Theorem get_rating_color_buckets :
  get_rating_color None = neutral_color /\
  (forall r, exists b, get_rating_color (Some r) = bucket_color b) /\
  (forall b, bucket_color b <> neutral_color) /\
  (forall b b', bucket_color b = bucket_color b' -> b = b') /\
  (forall b r, in_bucket b r = true ->
     get_rating_color (Some r) = bucket_color b) /\
  (forall r, PrimFloat.is_nan r = false ->
     exists b, in_bucket b r = true /\
               forall b', in_bucket b' r = true -> b' = b) /\
  in_bucket From4To5 4 = true /\
  in_bucket Below4 4 = false /\
  get_rating_color (Some 4%float) = bucket_color From4To5.
Proof.
  split; [reflexivity|].
  split; [exact Colorizer.color_is_bucket|].
  split; [intros b; destruct b; discriminate|].
  split; [exact Colorizer.bucket_color_inj|].
  split; [exact Colorizer.in_bucket_color|].
  split.
  - intros r Hr. destruct (Colorizer.in_some_bucket r Hr) as [b Hb].
    exists b. split; trivial. intros b' Hb'.
    apply Colorizer.bucket_color_inj.
    rewrite <- (Colorizer.in_bucket_color b' r Hb').
    apply Colorizer.in_bucket_color. exact Hb.
  - repeat split; reflexivity.
Qed.

(** ** Analytics Engine *)

Module Analytics.

Lemma fold_rate_episode (s : season_data) (eps : list episode)
  (all : list Rated.t) (sr : list float) :
  fold_left (rate_episode s) eps (all, sr) =
  ((all ++ rated_entries {| season_num := season_num s; episodes := eps |})%list,
   (sr ++ present_ratings eps)%list).
Proof.
  revert all sr. induction eps as [|ep eps IH]; intros all sr.
  - cbn. rewrite !app_nil_r. reflexivity.
  - cbn [fold_left]. unfold rate_episode at 2.
    unfold rated_entries, present_ratings in *.
    cbn [episodes flat_map season_num] in *.
    destruct (rating ep) as [r|].
    + rewrite IH. rewrite <- !app_assoc. reflexivity.
    + rewrite IH. reflexivity.
Qed.

Lemma rate_season_eq (s : season_data) (all : list Rated.t)
  (avgs : list SeasonAverage.t) :
  rate_season (all, avgs) s =
  ((all ++ rated_entries s)%list, (avgs ++ season_entry s)%list).
Proof.
  unfold rate_season. rewrite fold_rate_episode. cbn [app].
  unfold season_entry.
  replace {| season_num := season_num s; episodes := episodes s |} with s
    by (destruct s; reflexivity).
  destruct (present_ratings (episodes s)); [rewrite app_nil_r|]; reflexivity.
Qed.

Lemma fold_rate_season (sds : list season_data) (all : list Rated.t)
  (avgs : list SeasonAverage.t) :
  fold_left rate_season sds (all, avgs) =
  ((all ++ flat_map rated_entries sds)%list,
   (avgs ++ flat_map season_entry sds)%list).
Proof.
  revert all avgs. induction sds as [|s sds IH]; intros all avgs.
  - cbn. rewrite !app_nil_r. reflexivity.
  - cbn [fold_left flat_map]. rewrite rate_season_eq, IH, <- !app_assoc.
    reflexivity.
Qed.

Lemma length_rated_entries (s : season_data) :
  List.length (rated_entries s) = rated_count s.
Proof.
  unfold rated_entries, rated_count, present_ratings.
  induction (episodes s) as [|ep eps IH]; [reflexivity|].
  cbn [flat_map]. rewrite !length_app, IH.
  destruct (rating ep); reflexivity.
Qed.

Lemma has_rated_count (s : season_data) :
  has_rated s = negb (Nat.eqb (rated_count s) 0).
Proof.
  unfold has_rated, rated_count, present_ratings.
  induction (episodes s) as [|ep eps IH]; [reflexivity|].
  cbn [existsb flat_map]. destruct (rating ep); [reflexivity|].
  cbn [app orb]. exact IH.
Qed.

Lemma season_entry_count (s : season_data) :
  sum_nat (map SeasonAverage.episode_count (season_entry s)) = rated_count s.
Proof.
  unfold season_entry, rated_count.
  destruct (present_ratings (episodes s)); cbn; [reflexivity|lia].
Qed.

Lemma sum_nat_app (l l' : list nat) :
  sum_nat (l ++ l') = (sum_nat l + sum_nat l')%nat.
Proof.
  unfold sum_nat. induction l as [|n l IH]; cbn; [reflexivity|rewrite IH; lia].
Qed.

Lemma total_is_sum (sds : list season_data) :
  List.length (flat_map rated_entries sds) =
  sum_nat (map SeasonAverage.episode_count (flat_map season_entry sds)).
Proof.
  induction sds as [|s sds IH]; [reflexivity|].
  cbn [flat_map]. rewrite length_app, map_app, sum_nat_app, <- IH.
  rewrite length_rated_entries, season_entry_count. reflexivity.
Qed.

(** One entry per season with a rated episode, in the order of the input. *)
Lemma entries_per_rated_season (sds : list season_data) :
  Forall2
    (fun (a : SeasonAverage.t) (s : season_data) =>
       SeasonAverage.season_num a = season_num s /\
       SeasonAverage.episode_count a = rated_count s /\
       SeasonAverage.average a = mean (present_ratings (episodes s)))
    (flat_map season_entry sds) (filter has_rated sds).
Proof.
  induction sds as [|s sds IH]; [constructor|].
  cbn [flat_map filter].
  assert (Hs : has_rated s =
               negb (Nat.eqb (List.length (present_ratings (episodes s))) 0))
    by apply has_rated_count.
  rewrite Hs. unfold season_entry at 1.
  destruct (present_ratings (episodes s)) as [|r l] eqn:E;
    cbn [List.length Nat.eqb negb app].
  - exact IH.
  - constructor; [|exact IH]. cbn. unfold rated_count. rewrite E. auto.
Qed.

Lemma no_rated_entries (sds : list season_data) :
  flat_map rated_entries sds = [] -> filter has_rated sds = [].
Proof.
  induction sds as [|s sds IH]; [reflexivity|].
  cbn [flat_map filter]. intros H. apply app_eq_nil in H. destruct H as [Hs Hr].
  rewrite has_rated_count, <- length_rated_entries, Hs. cbn. auto.
Qed.

End Analytics.

Section AnalyticsClaims.

Context {interp : Interp}.

(** What [calculate_analytics] computes, by cases on the rated episodes. *)
Lemma calculate_analytics_cases (sds : list season_data) :
  let a := calculate_analytics sds in
  (flat_map rated_entries sds = [] /\
   a = {| min_episode := None; max_episode := None; overall_average := None;
          season_averages := []; best_season := None; worst_season := None;
          total_episodes := 0%nat |}) \/
  (flat_map rated_entries sds <> [] /\
   season_averages a = flat_map season_entry sds /\
   total_episodes a = List.length (flat_map rated_entries sds) /\
   overall_average a =
     Some (round_float
             (mean (map Rated.rating (flat_map rated_entries sds))) 2)).
Proof.
  unfold calculate_analytics. rewrite Analytics.fold_rate_season. cbn [app].
  destruct (flat_map rated_entries sds) as [|e l] eqn:E.
  - left. split; reflexivity.
  - right. split; [discriminate|]. cbn. auto.
Qed.

(** C2: the no-data invariant.  Whatever the seasons, when the summary
    counts zero rated episodes, the extremes, the overall average and the
    best and worst seasons are all absent and the list of season averages is
    empty. *)
Theorem no_data_summary_is_all_absent (sds : list season_data) :
  total_episodes (calculate_analytics sds) = 0%nat ->
  min_episode (calculate_analytics sds) = None /\
  max_episode (calculate_analytics sds) = None /\
  overall_average (calculate_analytics sds) = None /\
  best_season (calculate_analytics sds) = None /\
  worst_season (calculate_analytics sds) = None /\
  season_averages (calculate_analytics sds) = [].
Proof.
  intros Htotal.
  destruct (calculate_analytics_cases sds) as [[_ Ha] | (Hne & _ & Hlen & _)].
  - rewrite Ha. cbn. auto 6.
  - rewrite Hlen in Htotal. apply length_zero_iff_nil in Htotal.
    contradiction.
Qed.

(** C10: the total of the summary is the sum of the episode counts of its
    season averages, and the season averages are, in the order of the input,
    exactly one entry per season that has a rated episode, carrying that
    season's number and its count of rated episodes. *)
Theorem total_is_sum_of_season_counts (sds : list season_data) :
  total_episodes (calculate_analytics sds) =
    sum_nat (map SeasonAverage.episode_count
               (season_averages (calculate_analytics sds))) /\
  Forall2
    (fun (a : SeasonAverage.t) (s : season_data) =>
       SeasonAverage.season_num a = season_num s /\
       SeasonAverage.episode_count a = rated_count s /\
       SeasonAverage.average a = mean (present_ratings (episodes s)))
    (season_averages (calculate_analytics sds)) (filter has_rated sds).
Proof.
  destruct (calculate_analytics_cases sds) as [[He Ha] | (_ & Hs & Hlen & _)].
  - rewrite Ha. cbn [total_episodes season_averages map].
    rewrite (Analytics.no_rated_entries sds He). split; [reflexivity|constructor].
  - rewrite Hlen, Hs. split.
    + apply Analytics.total_is_sum.
    + apply Analytics.entries_per_rated_season.
Qed.

End AnalyticsClaims.

(** A season whose only episode has no rating: the summary is the
    all-absent one. *)
Lemma no_data_summary_witness :
  total_episodes (@calculate_analytics no_tables [unrated_season]) = 0%nat /\
  season_averages (@calculate_analytics no_tables [unrated_season]) = [].
Proof.
  split; [reflexivity|].
  apply (@no_data_summary_is_all_absent no_tables [unrated_season]).
  reflexivity.
Defined.

(** ** The overall average *)

Module Average.



End Average.

Section AverageClaims.

Context {interp : Interp}.


End AverageClaims.


(** ** Strings and the matcher *)

Module Str.

Lemma app_assoc (a b c : string) : (a ++ b) ++ c = a ++ (b ++ c).
Proof. induction a as [|x a IH]; cbn; [reflexivity|now rewrite IH]. Qed.

Lemma length_app (a b : string) :
  String.length (a ++ b) = (String.length a + String.length b)%nat.
Proof. induction a as [|x a IH]; cbn; [reflexivity|now rewrite IH]. Qed.

Lemma app_inv_length (a b a' b' : string) :
  a ++ b = a' ++ b' -> String.length a = String.length a' ->
  a = a' /\ b = b'.
Proof.
  revert a'. induction a as [|x a IH]; intros [|x' a'] H Hl;
    try discriminate Hl; cbn in *.
  - auto.
  - injection H as -> H. injection Hl as Hl.
    destruct (IH _ H Hl) as [-> ->]. auto.
Qed.

Lemma take_drop (p : ascii -> bool) (s : string) :
  take_while p s ++ drop_while p s = s.
Proof.
  induction s as [|c r IH]; cbn; [reflexivity|].
  destruct (p c); cbn; [now rewrite IH|reflexivity].
Qed.

Lemma substring_prefix (a b : string) :
  substring 0 (String.length a) (a ++ b) = a.
Proof.
  induction a as [|x a IH]; cbn.
  - destruct b; reflexivity.
  - now rewrite IH.
Qed.

Lemma between_app (a b : string) : between (a ++ b) b = a.
Proof.
  unfold between. rewrite length_app.
  replace (String.length a + String.length b - String.length b)%nat
    with (String.length a) by lia.
  apply substring_prefix.
Qed.

Lemma all_digits_take_while (s : string) :
  all_digits (take_while is_digit s) = true.
Proof.
  induction s as [|x r IH]; cbn; [reflexivity|].
  destruct (is_digit x) eqn:E; cbn; [rewrite E; exact IH|reflexivity].
Qed.

Lemma take_while_app_digits (ds rest : string) :
  all_digits ds = true ->
  take_while is_digit (ds ++ rest) = ds ++ take_while is_digit rest.
Proof.
  induction ds as [|x r IH]; cbn; [reflexivity|].
  rewrite andb_true_iff. intros [-> H]. now rewrite IH.
Qed.

Lemma starts_digit_take_while (s : string) :
  starts_digit s = true -> take_while is_digit s <> "".
Proof. destruct s as [|c t]; cbn; [discriminate|]. now intros ->. Qed.

Lemma prefix_skip (l s : string) :
  prefix l s = true -> s = l ++ skip (String.length l) s.
Proof.
  revert s. induction l as [|a l IH]; intros s H; [reflexivity|].
  destruct s as [|c r]; cbn in H; [discriminate H|].
  destruct (ascii_dec a c) as [->|]; [|discriminate H].
  cbn. now rewrite <- IH.
Qed.

(** A quantifier whose continuation always succeeds takes all it can. *)
Lemma star_total (p : ascii -> bool) (k : string -> option found)
  (mk : string -> found) (s : string) :
  (forall t, k t = Some (mk t)) ->
  star p k s = Some (mk (drop_while p s)).
Proof.
  intros Hk. induction s as [|c r IH]; cbn; [apply Hk|].
  destruct (p c); [rewrite IH; reflexivity|apply Hk].
Qed.

Lemma search_eq (r : regex) (s : string) :
  search r s =
  match run r None None s with
  | Some f => Some (rematch_of s f)
  | None =>
      match s with
      | String _ t => search r t
      | EmptyString => None
      end
  end.
Proof. destruct s; reflexivity. Qed.

Lemma run_lit (l : string) (r : regex) (go gc : option string) (s : string) :
  run (lit l ++ r)%list go gc s =
  if prefix l s then run r go gc (skip (String.length l) s) else None.
Proof.
  unfold lit. revert s. induction l as [|a l IH]; intros s; cbn.
  - destruct s; reflexivity.
  - destruct s as [|c t]; [reflexivity|]. cbn.
    destruct (ascii_dec a c) as [->|Hne].
    + rewrite Ascii.eqb_refl. apply IH.
    + destruct (Ascii.eqb_spec a c); [contradiction|reflexivity].
Qed.

(** The digits at the head of a string, without a group. *)
Lemma run_digits (go gc : option string) (s : string) :
  run [Plus is_digit] go gc s =
  if starts_digit s then
    Some {| group_start := go; group_end := gc;
            match_end := drop_while is_digit s |}
  else None.
Proof.
  destruct s as [|c t]; cbn; [reflexivity|].
  destruct (is_digit c); [|reflexivity].
  apply (star_total is_digit _
           (fun u => {| group_start := go; group_end := gc; match_end := u |})).
  reflexivity.
Qed.

(** The digits at the head of a string, as the group. *)
Lemma run_digits_group (go gc : option string) (s : string) :
  run [GroupOpen; Plus is_digit; GroupClose] go gc s =
  if starts_digit s then
    Some {| group_start := Some s;
            group_end := Some (drop_while is_digit s);
            match_end := drop_while is_digit s |}
  else None.
Proof.
  destruct s as [|c t]; cbn; [reflexivity|].
  destruct (is_digit c); [|reflexivity].
  apply (star_total is_digit _
           (fun u => {| group_start := Some (String c t);
                        group_end := Some u; match_end := u |})).
  reflexivity.
Qed.

(** [search] finds the first position where the pattern matches. *)
Lemma search_first (r : regex) (h : string -> bool) (f : string -> found) :
  (forall s, run r None None s = if h s then Some (f s) else None) ->
  forall url,
    match search r url with
    | Some m =>
        exists pre post,
          url = pre ++ post /\ h post = true /\ m = rematch_of post (f post) /\
          forall pre' post',
            url = pre' ++ post' ->
            (String.length pre' < String.length pre)%nat -> h post' = false
    | None => forall pre' post', url = pre' ++ post' -> h post' = false
    end.
Proof.
  intros Hrun url. induction url as [|c t IH]; rewrite search_eq, Hrun.
  - destruct (h "") eqn:E.
    + exists "", "". cbn. repeat split; trivial. intros; lia.
    + intros [|x pre'] post' H; [cbn in H; now subst|discriminate].
  - destruct (h (String c t)) eqn:E.
    + exists "", (String c t). cbn. repeat split; trivial. intros; lia.
    + destruct (search r t) as [m|].
      * destruct IH as (pre & post & -> & Hh & -> & Hfirst).
        exists (String c pre), post. repeat split; trivial.
        intros [|x pre'] post' H Hl; cbn in *.
        -- now subst.
        -- injection H as -> H. apply (Hfirst pre' post' H). lia.
      * intros [|x pre'] post' H; cbn in *.
        -- now subst.
        -- injection H as -> H. apply (IH pre' post' H).
Qed.

End Str.

(** ** Identifier Resolver *)

Module Resolver.

Import Str.

Lemma run_imdb_id (s : string) :
  run re_imdb_id None None s =
  if hit "tt" s then Some (end_of_id s) else None.
Proof.
  unfold re_imdb_id, hit. rewrite run_lit, run_digits.
  destruct (prefix "tt" s); reflexivity.
Qed.

Lemma id_hit (m post : string) : is_imdb_id m -> hit "tt" (m ++ post) = true.
Proof.
  intros (ds & -> & Hne & Hds). destruct ds as [|c ds]; [contradiction|].
  cbn in Hds. apply andb_true_iff in Hds. destruct Hds as [Hc _].
  unfold hit. cbn. exact Hc.
Qed.

Lemma hit_id (post : string) :
  hit "tt" post = true ->
  let m := "tt" ++ take_while is_digit (skip 2 post) in
  is_imdb_id m /\
  post = m ++ drop_while is_digit (skip 2 post) /\
  group0 (rematch_of post (end_of_id post)) = m.
Proof.
  unfold hit. rewrite andb_true_iff. intros [Hp Hd].
  apply prefix_skip in Hp. cbn [String.length] in Hp, Hd.
  assert (Hpost : post =
            ("tt" ++ take_while is_digit (skip 2 post))
              ++ drop_while is_digit (skip 2 post)).
  { rewrite app_assoc, take_drop. exact Hp. }
  cbn zeta. repeat split.
  - exists (take_while is_digit (skip 2 post)). repeat split.
    + now apply starts_digit_take_while.
    + apply all_digits_take_while.
  - exact Hpost.
  - unfold rematch_of, end_of_id. cbn [group0 match_end].
    rewrite Hpost at 1. apply between_app.
Qed.

End Resolver.

(** C4: when the reference contains "tt" followed by one or more digits,
    [get_imdb_id] returns the first such substring (no identifier occurs
    earlier in the reference, and none at the same place is longer); when it
    contains none, [get_imdb_id] raises the error (ValueError);
    "https://example.com/title/tt0903747/episodes" yields "tt0903747". *)
Theorem get_imdb_id_first_match (url : string) :
  ((exists pre m post, url = pre ++ m ++ post /\ is_imdb_id m) ->
   exists pre m, get_imdb_id url = Ok m /\ first_imdb_id url pre m) /\
  ((forall pre m post, url = pre ++ m ++ post -> ~ is_imdb_id m) ->
   get_imdb_id url = Raise ValueError) /\
  get_imdb_id "https://example.com/title/tt0903747/episodes" = Ok "tt0903747".
Proof.
  pose proof (Str.search_first re_imdb_id (hit "tt") end_of_id
                Resolver.run_imdb_id url) as Hs.
  unfold get_imdb_id.
  destruct (search re_imdb_id url) as [m|].
  - destruct Hs as (pre & post & Hurl & Hhit & -> & Hfirst).
    destruct (Resolver.hit_id post Hhit) as (Hid & Hpost & Hg).
    split; [|split; [|reflexivity]].
    + intros _. exists pre, ("tt" ++ take_while is_digit (skip 2 post)).
      rewrite Hg. split; [reflexivity|]. split; [|split; [exact Hid|]].
      * exists (drop_while is_digit (skip 2 post)).
        rewrite <- Hpost. exact Hurl.
      * intros pre' m' post' Hurl' Hid'.
        pose proof (Resolver.id_hit m' post' Hid') as Hhit'.
        assert (Hle : (String.length pre <= String.length pre')%nat).
        { destruct (Nat.le_gt_cases (String.length pre) (String.length pre'))
            as [Hle|Hlt]; trivial.
          rewrite (Hfirst pre' (m' ++ post') Hurl' Hlt) in Hhit'.
          discriminate. }
        split; [exact Hle|]. intros Hlen.
        rewrite Hurl in Hurl'.
        destruct (Str.app_inv_length _ _ _ _ Hurl' (eq_sym Hlen)) as [_ Hp].
        destruct Hid' as (ds & -> & _ & Hds).
        rewrite Hp. cbn [append skip].
        rewrite (Str.take_while_app_digits ds post' Hds).
        cbn [String.length]. rewrite Str.length_app. lia.
    + intros Hnone. exfalso.
      apply (Hnone pre ("tt" ++ take_while is_digit (skip 2 post))
               (drop_while is_digit (skip 2 post))); [|exact Hid].
      rewrite <- Hpost. exact Hurl.
  - split; [|split; [reflexivity|reflexivity]].
    intros (pre & m & post & Hurl & Hid). exfalso.
    pose proof (Resolver.id_hit m post Hid) as Hhit.
    rewrite (Hs pre (m ++ post) Hurl) in Hhit. discriminate.
Qed.

(** ** Integers read from digits *)

Module Digits.

Lemma digit_not_space (c : ascii) :
  is_digit c = true -> is_int_space c = false.
Proof.
  unfold is_digit, is_int_space. rewrite andb_true_iff, !N.leb_le.
  intros [Hl Hh].
  repeat match goal with
  | |- context [(?a <=? ?b)%N] => destruct (N.leb_spec a b)
  | |- context [(?a =? ?b)%N] => destruct (N.eqb_spec a b)
  end; cbn; trivial; lia.
Qed.

Lemma digit_code (c : ascii) (n : N) :
  is_digit c = true -> (n < 48 \/ 57 < n)%N -> (code c =? n)%N = false.
Proof.
  unfold is_digit. rewrite andb_true_iff, !N.leb_le, N.eqb_neq. lia.
Qed.

Lemma digit_value_bounds (c : ascii) :
  is_digit c = true -> 0 <= digit_value c <= 9.
Proof.
  unfold is_digit, digit_value. rewrite andb_true_iff, !N.leb_le. lia.
Qed.

Lemma rstrip_digits (s : string) : all_digits s = true -> rstrip s = s.
Proof.
  induction s as [|c r IH]; cbn; [reflexivity|].
  rewrite andb_true_iff. intros [Hc Hr]. rewrite (IH Hr).
  destruct r; [rewrite (digit_not_space c Hc)|]; reflexivity.
Qed.

Lemma strip_digits (s : string) : all_digits s = true -> strip s = s.
Proof.
  intros H. unfold strip.
  assert (Hl : lstrip s = s).
  { destruct s as [|c r]; [reflexivity|]. cbn in *.
    apply andb_true_iff in H. destruct H as [Hc _].
    now rewrite (digit_not_space c Hc). }
  rewrite Hl. now apply rstrip_digits.
Qed.

Lemma parse_digits_value (s : string) (acc : Z) (b : bool) :
  all_digits s = true -> (b = true \/ s <> "") ->
  parse_digits acc b s = Some (digits_value acc s).
Proof.
  revert acc b. induction s as [|c r IH]; intros acc b Hs Hb; cbn in *.
  - destruct Hb as [->|Hne]; [reflexivity|contradiction].
  - apply andb_true_iff in Hs. destruct Hs as [Hc Hr]. rewrite Hc.
    apply IH; auto.
Qed.

Lemma digits_value_nonneg (s : string) (acc : Z) :
  all_digits s = true -> 0 <= acc -> 0 <= digits_value acc s.
Proof.
  revert acc. induction s as [|c r IH]; intros acc Hs Hacc;
    cbn [digits_value all_digits] in *.
  - exact Hacc.
  - apply andb_true_iff in Hs. destruct Hs as [Hc Hr].
    apply IH; [exact Hr|].
    pose proof (digit_value_bounds c Hc). lia.
Qed.

Lemma count_digits_all (s : string) :
  all_digits s = true -> count_digits s = String.length s.
Proof.
  induction s as [|c r IH]; [reflexivity|].
  cbn [all_digits count_digits String.length]. rewrite andb_true_iff.
  intros [-> Hr]. now rewrite (IH Hr).
Qed.

(** [int] on a non-empty string of digits gives its value, which is not
    negative, when the string is within the digit limit, and raises
    ValueError when it is not. *)
Lemma int_of_digits (s : string) :
  all_digits s = true -> s <> "" ->
  int_of_str s =
    (if within_digit_limit s then Some (digits_value 0 s) else None) /\
  0 <= digits_value 0 s.
Proof.
  intros Hs Hne. split; [|apply digits_value_nonneg; [exact Hs|lia]].
  unfold int_of_str. rewrite (strip_digits s Hs).
  destruct s as [|c r]; [contradiction|].
  assert (Hc : is_digit c = true).
  { cbn [all_digits] in Hs. apply andb_true_iff in Hs. tauto. }
  rewrite (digit_code c 45 Hc) by lia. rewrite (digit_code c 43 Hc) by lia.
  unfold int_of_digits_text, within_digit_limit.
  rewrite (count_digits_all _ Hs), Nat.ltb_antisym.
  destruct (String.length (String c r) <=? int_max_str_digits)%nat;
    [|reflexivity].
  cbn [negb]. apply parse_digits_value; [exact Hs|right; discriminate].
Qed.

Lemma run_lit_digits (l s : string) :
  run (lit l ++ [GroupOpen; Plus is_digit; GroupClose])%list None None s =
  if hit l s then Some (end_of_group l s) else None.
Proof.
  unfold hit. rewrite Str.run_lit, Str.run_digits_group.
  destruct (prefix l s); reflexivity.
Qed.

Lemma group_of_hit (l s : string) :
  hit l s = true ->
  let g := group1 (rematch_of s (end_of_group l s)) in
  g = take_while is_digit (skip (String.length l) s) /\
  all_digits g = true /\ g <> "".
Proof.
  unfold hit. rewrite andb_true_iff. intros [_ Hd].
  cbn zeta. unfold rematch_of, end_of_group.
  cbn [group1 group_start group_end].
  assert (Hg : between (skip (String.length l) s)
                 (drop_while is_digit (skip (String.length l) s)) =
               take_while is_digit (skip (String.length l) s)).
  { rewrite <- (Str.take_drop is_digit (skip (String.length l) s)) at 1.
    apply Str.between_app. }
  rewrite Hg. repeat split.
  - apply Str.all_digits_take_while.
  - now apply Str.starts_digit_take_while.
Qed.

(** What a pattern "literal, then the group of digits" finds converts to
    the value of the digits, which is not negative, when they are within
    the digit limit; past the limit [int] raises ValueError. *)
Lemma int_of_group (l s : string) (m : rematch) :
  search (lit l ++ [GroupOpen; Plus is_digit; GroupClose])%list s = Some m ->
  int_of_str (group1 m) =
    (if within_digit_limit (group1 m)
     then Some (digits_value 0 (group1 m)) else None) /\
  0 <= digits_value 0 (group1 m).
Proof.
  intros Hm.
  pose proof (Str.search_first _ (hit l) (end_of_group l) (run_lit_digits l) s)
    as Hs.
  rewrite Hm in Hs. destruct Hs as (pre & post & _ & Hhit & -> & _).
  destruct (group_of_hit l post Hhit) as (_ & Hd & Hne).
  now apply int_of_digits.
Qed.

End Digits.

(** ** Sorting *)

Module Sorting.

Section ByKey.

Context {A : Type} (key : A -> Z).

Lemma insert_by_perm (x : A) (l : list A) :
  Permutation (x :: l) (insert_by key x l).
Proof.
  induction l as [|y l IH]; cbn; [reflexivity|].
  destruct (key x <=? key y); [reflexivity|].
  rewrite perm_swap. now constructor.
Qed.

Lemma py_sorted_perm (l : list A) : Permutation l (py_sorted key l).
Proof.
  induction l as [|x l IH]; cbn; [constructor|].
  rewrite <- insert_by_perm. now constructor.
Qed.

Lemma insert_by_sorted (x : A) (l : list A) :
  StronglySorted (le_by key) l -> StronglySorted (le_by key) (insert_by key x l).
Proof.
  induction 1 as [|y l Hs IH Hy]; cbn; [repeat constructor|].
  destruct (Z.leb_spec (key x) (key y)) as [Hle|Hgt].
  - constructor; [now constructor|]. constructor; [exact Hle|].
    eapply Forall_impl; [|exact Hy]. unfold le_by. intros a Ha. lia.
  - constructor; [exact IH|].
    eapply Permutation_Forall; [apply insert_by_perm|].
    constructor; [unfold le_by; lia|exact Hy].
Qed.

Lemma py_sorted_sorted (l : list A) : StronglySorted (le_by key) (py_sorted key l).
Proof.
  induction l as [|x l IH]; cbn; [constructor|now apply insert_by_sorted].
Qed.

End ByKey.

End Sorting.

(** ** Episode Extractor *)

Module Extractor.

Section Loops.

Context {soup_impl : Soup} {interp : Interp}.

(** The markup fallback has a record for every container whose episode
    number [int] reads: the number of the record is that number, or the
    position when the container carries none.  On a container whose number
    is past the digit limit it raises ValueError; no other conversion it
    makes can fail. *)
Lemma episode_of_item_cases (idx : Z) (item : tag) :
  match episode_number_digits item with
  | Some ds =>
      if within_digit_limit ds then
        exists ep, episode_of_item idx item = Ok ep /\
                   episode_num ep = digits_value 0 ds /\ 0 <= episode_num ep
      else episode_of_item idx item = Raise ValueError
  | None =>
      exists ep, episode_of_item idx item = Ok ep /\ episode_num ep = idx
  end.
Proof.
  unfold episode_of_item, episode_number_digits.
  match goal with
  | |- context [bind ?r _] => assert (Hr : exists x, r = Ok x)
  end.
  { destruct (or_else _ _) as [e|]; [|eexists; reflexivity].
    destruct (search re_rating (get_text e true)) as [m|];
      [|eexists; reflexivity].
    destruct (float_of_str (group1 m)); eexists; reflexivity. }
  destruct Hr as [x ->]. cbn [bind].
  destruct (select_one item "div.ipc-title__text") as [e|];
    [|cbn [bind]; eexists; split; reflexivity].
  destruct (search re_episode_number (get_text e false)) as [m|] eqn:Hm;
    cbn [option_map]; [|cbn [bind]; eexists; split; reflexivity].
  destruct (Digits.int_of_group "E" _ m Hm) as [-> Hpos].
  destruct (within_digit_limit (group1 m)); cbn [bind]; [|reflexivity].
  eexists. split; [reflexivity|]. cbn [episode_num]. split; [reflexivity|].
  exact Hpos.
Qed.

(** When the loop over the containers completes, it has appended, in their
    order, the record of each container at its 1-based position. *)
Lemma items_loop_in_order (items : list tag) (idx : Z) (acc out : list episode) :
  items_loop idx items acc = Ok out ->
  exists eps,
    out = (acc ++ eps)%list /\
    List.length eps = List.length items /\
    forall k item,
      nth_error items k = Some item ->
      exists ep, nth_error eps k = Some ep /\
                 episode_of_item (idx + Z.of_nat k) item = Ok ep.
Proof.
  revert idx acc out. induction items as [|item items IH]; intros idx acc out;
    cbn [items_loop].
  - intros H. injection H as <-. exists []. rewrite app_nil_r.
    repeat split. intros [|k] it H; discriminate H.
  - destruct (episode_of_item idx item) as [ep|] eqn:Hep; [|discriminate].
    cbn [bind]. intros H.
    destruct (IH _ _ _ H) as (eps & -> & Hlen & Hnth).
    exists (ep :: eps). rewrite <- app_assoc. cbn [app List.length].
    repeat split; [now rewrite Hlen|].
    intros [|k] it Hk; cbn in Hk.
    + injection Hk as <-. exists ep. cbn [nth_error]. split; [reflexivity|].
      now rewrite Z.add_0_r.
    + destruct (Hnth k it Hk) as (e & He & Hof). exists e. cbn [nth_error].
      split; [exact He|].
      replace (idx + Z.of_nat (S k)) with (idx + 1 + Z.of_nat k) by lia.
      exact Hof.
Qed.

(** The loop completes exactly when [int] reads the number of every
    container; otherwise it raises ValueError. *)
Lemma items_loop_cases (items : list tag) (idx : Z) (acc : list episode) :
  if forallb
       (fun item =>
          match episode_number_digits item with
          | Some ds => within_digit_limit ds
          | None => true
          end) items
  then exists out, items_loop idx items acc = Ok out
  else items_loop idx items acc = Raise ValueError.
Proof.
  revert idx acc. induction items as [|item items IH]; intros idx acc;
    cbn [forallb items_loop].
  - eexists. reflexivity.
  - pose proof (episode_of_item_cases idx item) as Hitem.
    destruct (episode_number_digits item) as [ds|].
    + destruct (within_digit_limit ds); cbn [andb].
      * destruct Hitem as (ep & -> & _). cbn [bind]. apply IH.
      * rewrite Hitem. reflexivity.
    + cbn [andb]. destruct Hitem as (ep & -> & _). cbn [bind]. apply IH.
Qed.

(** The two tiers, tier by tier. *)
Lemma traced_by_payload (soup : tag) :
  match payload_records soup with
  | Ok [] =>
      get_episode_ratings_traced soup =
      ([CallCssFallback], _get_episode_ratings_css_fallback soup)
  | Ok (ep :: eps) =>
      get_episode_ratings_traced soup =
      ([], Ok (py_sorted episode_num (ep :: eps)))
  | Raise e => get_episode_ratings_traced soup = ([], Raise e)
  end.
Proof.
  unfold payload_records, get_episode_ratings_traced.
  destruct (extract_json_ld soup) as [json_ld|e]; [|reflexivity].
  cbn [bind]. destruct (truthy json_ld); [|reflexivity].
  destruct (py_get json_ld "episode" (VList [])) as [v|e]; [|reflexivity].
  cbn [bind].
  destruct v as [| | | | |[|ep_data rest]|]; try reflexivity.
  destruct (payload_loop (ep_data :: rest) []) as [[|ep eps]|e]; reflexivity.
Qed.

End Loops.

End Extractor.

Section ExtractorClaims.

Context {soup_impl : Soup} {interp : Interp}.

(** C1: the two tiers exclude each other for every season page.  When the
    structured-data payload yields at least one record, the result is the
    list of exactly those records (sorted) and no call to the markup
    fallback is made; the fallback is called only when the payload yields no
    record, and then its result is returned; an exception of the primary
    path is raised without any call to the fallback. *)
Theorem fallback_tiers_are_exclusive (soup : tag) :
  (forall ep eps,
     payload_records soup = Ok (ep :: eps) ->
     get_episode_ratings_traced soup =
       ([], Ok (py_sorted episode_num (ep :: eps))) /\
     Permutation (ep :: eps) (py_sorted episode_num (ep :: eps))) /\
  (In CallCssFallback (fst (get_episode_ratings_traced soup)) ->
   payload_records soup = Ok []) /\
  (payload_records soup = Ok [] ->
   get_episode_ratings_traced soup =
     ([CallCssFallback], _get_episode_ratings_css_fallback soup)) /\
  (forall e,
     payload_records soup = Raise e ->
     get_episode_ratings_traced soup = ([], Raise e)).
Proof.
  pose proof (Extractor.traced_by_payload soup) as H.
  destruct (payload_records soup) as [[|ep eps]|e]; rewrite H; cbn [fst].
  - split; [intros ? ? Heq; discriminate Heq|].
    split; [reflexivity|]. split; [reflexivity|].
    intros ? Heq. discriminate Heq.
  - split.
    { intros ? ? Heq. injection Heq as <- <-.
      split; [reflexivity|apply Sorting.py_sorted_perm]. }
    split; [intros []|]. split; intros; discriminate.
  - split; [intros ? ? Heq; discriminate Heq|].
    split; [intros []|]. split; [intros Heq; discriminate Heq|].
    intros ? Heq. injection Heq as <-. reflexivity.
Qed.

(** C6: the order of the records.  On the structured-data path the result
    is in ascending order of the episode number, whatever the order of the
    payload, and holds the same records.  Whenever the markup fallback
    returns, it returns one record per matched container, the k-th record
    being the one of the k-th container in document order; it returns
    whenever [int] reads the episode number of every container (none is
    past the digit limit); and it does not sort the records: on a page
    whose two containers are numbered 2 and then 1 they come out as 2, 1. *)
Theorem extractor_output_order (soup : tag) :
  (forall ep eps,
     payload_records soup = Ok (ep :: eps) ->
     exists out,
       get_episode_ratings soup = Ok out /\
       StronglySorted le_episode_num out /\
       Permutation (ep :: eps) out) /\
  (forall eps,
     _get_episode_ratings_css_fallback soup = Ok eps ->
     List.length eps = List.length (episode_items soup) /\
     forall k item,
       nth_error (episode_items soup) k = Some item ->
       exists ep, nth_error eps k = Some ep /\
                  episode_of_item (1 + Z.of_nat k) item = Ok ep) /\
  (numbers_readable soup = true ->
   exists eps, _get_episode_ratings_css_fallback soup = Ok eps) /\
  (exists eps,
     @get_episode_ratings node_soup no_tables unsorted_page = Ok eps /\
     map episode_num eps = [2; 1]).
Proof.
  split; [|split; [|split]].
  - intros ep eps Hp. pose proof (Extractor.traced_by_payload soup) as H.
    rewrite Hp in H. unfold get_episode_ratings. rewrite H.
    exists (py_sorted episode_num (ep :: eps)). split; [reflexivity|]. split.
    + apply (Sorting.py_sorted_sorted episode_num).
    + apply Sorting.py_sorted_perm.
  - intros eps Hloop.
    destruct (Extractor.items_loop_in_order (episode_items soup) 1 [] eps Hloop)
      as (eps' & Heq & Hlen & Hnth).
    cbn [app] in Heq. subst eps'. split; [exact Hlen|exact Hnth].
  - intros Hread.
    pose proof (Extractor.items_loop_cases (episode_items soup) 1 []) as H.
    unfold numbers_readable in Hread. rewrite Hread in H. exact H.
  - eexists. split; [vm_compute; reflexivity|reflexivity].
Qed.

End ExtractorClaims.

(** ** Rating values that do not parse *)

Section RatingParse.

Context {soup_impl : Soup} {interp : Interp}.

(** On the structured-data path a rating value whose conversion raises
    ValueError (a string that is no number) or TypeError (a list, an object)
    leaves the episode without a rating: the record is the one of an episode
    with no rating value at all. *)
Lemma value_and_type_errors_are_swallowed
  (episodes : list episode) (d agg : list (string * value)) (v : value)
  (e : exn) :
  lookup d "aggregateRating" = Some (VDict agg) ->
  lookup agg "ratingValue" = Some v ->
  py_float v = Raise e -> e = ValueError \/ e = TypeError ->
  episode_of_payload episodes (VDict d) =
  (let next := Z.of_nat (List.length episodes) + 1 in
   let episode_num :=
     match lookup d "episodeNumber" with Some n => n | None => VInt next end in
   let title :=
     match lookup d "name" with
     | Some t => t
     | None => VStr ("Episode " ++ py_str episode_num)
     end in
   num <- (if truthy episode_num then py_int episode_num else Ok next);;
   Ok {| episode_num := num; title := title; rating := None |}).
Proof.
  intros Hagg Hv Hf He. unfold episode_of_payload. cbn [py_get bind].
  rewrite Hagg. destruct agg as [|a agg]; [discriminate Hv|].
  cbn [truthy py_get bind]. rewrite Hv.
  assert (Hr : except_value_type (x <- py_float v;; Ok (Some x)) None = Ok None).
  { rewrite Hf. destruct He as [-> | ->]; reflexivity. }
  destruct v as [| b | n | x | s | l | o];
    try reflexivity; try (rewrite Hr; reflexivity);
    try (cbn in Hf; discriminate Hf).
Qed.

(** The markup fallback never raises on account of a rating text: when it
    raises, it raises the ValueError of [int] on an episode number past the
    digit limit. *)
Lemma fallback_raises_on_numbers_only (soup : tag) (e : exn) :
  _get_episode_ratings_css_fallback soup = Raise e ->
  e = ValueError /\ numbers_readable soup = false.
Proof.
  unfold _get_episode_ratings_css_fallback, numbers_readable.
  pose proof (Extractor.items_loop_cases (episode_items soup) 1 []) as H.
  destruct (forallb _ (episode_items soup)).
  - destruct H as [out ->]. discriminate.
  - rewrite H. intros Heq. injection Heq as <-. auto.
Qed.

End RatingParse.

(** C7, the failing input: an integer rating value past the range of a
    double.  [float] raises OverflowError, which the handler for ValueError
    and TypeError lets through: the extraction of the season raises. *)
Theorem huge_rating_value_raises :
  @get_episode_ratings node_soup huge_rating_interp
    (page_with_json_ld huge_rating_json) = Raise OverflowError.
Proof. vm_compute. reflexivity. Qed.

(** A string in the place of the rating aggregate has no [get]: the
    extraction of the season raises AttributeError. *)
Lemma string_aggregate_raises :
  @get_episode_ratings node_soup string_aggregate_interp
    (page_with_json_ld string_aggregate_json) = Raise AttributeError.
Proof. vm_compute. reflexivity. Qed.

(** An episode number past the digit limit makes the markup fallback
    raise the ValueError of [int]. *)
Lemma fallback_raises_past_the_limit :
  @_get_episode_ratings_css_fallback node_soup no_tables long_number_page
  = Raise ValueError.
Proof. vm_compute. reflexivity. Qed.

(** ** Season Enumerator *)

Module Seasons.

Lemma range_list_cons (a b : Z) :
  a < b -> range_list a b = a :: range_list (a + 1) b.
Proof.
  intros H. unfold range_list.
  replace (Z.to_nat (b - a)) with (S (Z.to_nat (b - (a + 1)))) by lia.
  cbn [seq map]. f_equal; [lia|].
  rewrite <- seq_shift, map_map. apply map_ext. intros i. lia.
Qed.

Lemma range_list_nil (a b : Z) : b <= a -> range_list a b = [].
Proof.
  intros H. unfold range_list.
  replace (Z.to_nat (b - a)) with 0%nat by lia. reflexivity.
Qed.

Lemma range_list_in (a b n : Z) : In n (range_list a b) -> a <= n < b.
Proof.
  unfold range_list. rewrite in_map_iff. intros (i & <- & Hi).
  apply in_seq in Hi. lia.
Qed.

Lemma range_list_sorted (a b : Z) : StronglySorted Z.lt (range_list a b).
Proof.
  unfold range_list. generalize (Z.to_nat (b - a)) as k. intros k.
  generalize 0%nat as i. induction k as [|k IH]; intros i; cbn; constructor.
  - apply IH.
  - apply Forall_forall. intros n Hn. apply in_map_iff in Hn.
    destruct Hn as (j & <- & Hj). apply in_seq in Hj. lia.
Qed.

(** A range from 1 that is not empty is a season list. *)
Lemma range_is_season_list (n : Z) :
  range_list 1 (n + 1) <> [] -> season_list (range_list 1 (n + 1)).
Proof.
  intros Hne. split; [exact Hne|]. split; [apply range_list_sorted|].
  apply Forall_forall. intros k Hk. apply range_list_in in Hk. lia.
Qed.

Lemma range_nonempty (n : Z) : 0 < n -> range_list 1 (n + 1) <> [].
Proof. intros H. rewrite range_list_cons by lia. discriminate. Qed.

Lemma range_1_to_plus_1_is_range (v : value) (l : list Z) :
  range_1_to_plus_1 v = Ok l -> exists n, l = range_list 1 (n + 1).
Proof.
  destruct v; cbn; intros H; try discriminate H; injection H as <-;
    eexists; reflexivity.
Qed.

(** What the structured data returns is a range from 1. *)
Lemma seasons_from_json_ld_range (v : value) (l : list Z) :
  seasons_from_json_ld v = Ok (Some l) -> exists n, l = range_list 1 (n + 1).
Proof.
  unfold seasons_from_json_ld. destruct (truthy v); [|discriminate].
  destruct (py_contains v "partOfSeries") as [[|]|]; cbn [bind];
    try discriminate.
  - destruct (py_subscript v "partOfSeries") as [sd|]; cbn [bind];
      [|discriminate].
    destruct (py_contains sd "numberOfSeasons") as [[|]|]; cbn [bind];
      try discriminate.
    + destruct (py_subscript sd "numberOfSeasons") as [n|]; cbn [bind];
        [|discriminate].
      destruct (range_1_to_plus_1 n) as [l'|] eqn:E; cbn [bind];
        [|discriminate].
      intros H. injection H as <-. exact (range_1_to_plus_1_is_range _ _ E).
    + destruct (py_contains v "numberOfSeasons") as [[|]|]; cbn [bind];
        try discriminate.
      destruct (py_subscript v "numberOfSeasons") as [n|]; cbn [bind];
        [|discriminate].
      destruct (range_1_to_plus_1 n) as [l'|] eqn:E; cbn [bind];
        [|discriminate].
      intros H. injection H as <-. exact (range_1_to_plus_1_is_range _ _ E).
  - destruct (py_contains v "numberOfSeasons") as [[|]|]; cbn [bind];
      try discriminate.
    destruct (py_subscript v "numberOfSeasons") as [n|]; cbn [bind];
      [|discriminate].
    destruct (range_1_to_plus_1 n) as [l'|] eqn:E; cbn [bind];
      [|discriminate].
    intros H. injection H as <-. exact (range_1_to_plus_1_is_range _ _ E).
Qed.

Lemma set_add_in (n k : Z) (s : list Z) :
  In k (set_add n s) <-> k = n \/ In k s.
Proof.
  unfold set_add. destruct (existsb (Z.eqb n) s) eqn:E.
  - apply existsb_exists in E. destruct E as (x & Hx & Hnx).
    apply Z.eqb_eq in Hnx. subst x. split; [auto|]. intros [->|H]; trivial.
  - rewrite in_app_iff. cbn. intuition.
Qed.

Lemma set_add_nodup (n : Z) (s : list Z) : NoDup s -> NoDup (set_add n s).
Proof.
  intros Hs. unfold set_add. destruct (existsb (Z.eqb n) s) eqn:E; trivial.
  apply NoDup_app; [exact Hs|repeat constructor; intros []|].
  intros k Hk [Heq|[]]. subst k.
  assert (Ht : existsb (Z.eqb n) s = true).
  { apply existsb_exists. exists n. split; [exact Hk|apply Z.eqb_refl]. }
  congruence.
Qed.

(** An ascending list without repeats is strictly ascending. *)
Lemma sorted_nodup_strict (l : list Z) :
  StronglySorted Z.le l -> NoDup l -> StronglySorted Z.lt l.
Proof.
  induction 1 as [|x l Hs IH Hx]; intros Hn; constructor.
  - apply IH. now inversion Hn.
  - inversion Hn as [|? ? Hnot _]. subst.
    rewrite Forall_forall in *. intros y Hy.
    specialize (Hx y Hy). assert (x <> y) by (intros ->; contradiction). lia.
Qed.

(** [sorted] of a set of integers. *)
Lemma sorted_set (l : list Z) :
  NoDup l ->
  StronglySorted Z.lt (py_sorted (fun n => n) l) /\
  Permutation l (py_sorted (fun n => n) l).
Proof.
  intros Hn. pose proof (Sorting.py_sorted_perm (fun n => n) l) as Hp.
  split; [|exact Hp]. apply sorted_nodup_strict.
  - apply (Sorting.py_sorted_sorted (fun n : Z => n)).
  - eapply Permutation_NoDup; eassumption.
Qed.

Section Links.

Context {soup_impl : Soup} {interp : Interp}.

(** The loop over the links completes exactly when [int] reads the number
    of every link; it then has gathered the numbers of the links, none of
    them negative, without repeats.  Otherwise it raises ValueError. *)
Lemma collect_seasons_spec (links : list tag) (acc : list Z) :
  if forallb
       (fun link =>
          match link_digits link with
          | Some ds => within_digit_limit ds
          | None => true
          end) links
  then
    exists out,
      collect_seasons links acc = Ok out /\
      (forall k, In k out <-> In k acc \/ In k (link_numbers links)) /\
      (NoDup acc -> NoDup out) /\
      (Forall (fun n => 0 <= n) acc -> Forall (fun n => 0 <= n) out)
  else collect_seasons links acc = Raise ValueError.
Proof.
  revert acc. induction links as [|link rest IH]; intros acc.
  - exists acc. cbn. repeat split; auto. intros [H|[]]; exact H.
  - cbn [collect_seasons link_numbers flat_map forallb].
    assert (Hld : link_digits link =
                  option_map group1
                    (search re_season
                       match get_attr link "href" with
                       | Some h => h
                       | None => ""
                       end)) by reflexivity.
    destruct (search re_season
                match get_attr link "href" with Some h => h | None => "" end)
      as [m|] eqn:Hm; cbn [option_map] in Hld; rewrite !Hld.
    + destruct (Digits.int_of_group "season=" _ m Hm) as [-> Hpos].
      destruct (within_digit_limit (group1 m)); cbn [andb]; [|reflexivity].
      specialize (IH (set_add (digits_value 0 (group1 m)) acc)).
      destruct (forallb _ rest); [|exact IH].
      destruct IH as (out & -> & Hin & Hnd & Hge).
      exists out. split; [reflexivity|]. split; [|split].
      * intros k. rewrite Hin, set_add_in. cbn [app In].
        fold (link_numbers rest). intuition.
      * intros Ha. apply Hnd. now apply set_add_nodup.
      * intros Ha. apply Hge. apply Forall_forall. intros k Hk.
        apply set_add_in in Hk. destruct Hk as [->|Hk]; [exact Hpos|].
        rewrite Forall_forall in Ha. now apply Ha.
    + cbn [andb app]. specialize (IH acc).
      destruct (forallb _ rest); [|exact IH].
      destruct IH as (out & -> & Hin & Hnd & Hge).
      exists out. split; [reflexivity|]. split; [|split]; trivial.
Qed.

End Links.

End Seasons.

Section SeasonClaims.

Context {soup_impl : Soup} {interp : Interp}.

Lemma season_list_result (soup : tag) (l : list Z) :
  season_list l -> seasons_result soup l.
Proof.
  intros (Hne & Hs & Hp). repeat split; trivial.
  eapply Forall_impl; [|exact Hp]. cbn. intros; lia.
Qed.

(** The code reads the count of a payload as [payload_count] describes
    it. *)
Lemma seasons_from_payload_count (json_ld : value) (c : option Z) :
  payload_count json_ld = Some c ->
  seasons_from_json_ld json_ld =
    Ok (option_map (fun n => range_list 1 (n + 1)) c).
Proof.
  unfold payload_count, seasons_from_json_ld, own_count.
  destruct (truthy json_ld); [|intros H; injection H as <-; reflexivity].
  destruct json_ld as [| | | | | |d]; try discriminate.
  cbn [py_contains py_subscript bind].
  destruct (lookup d "partOfSeries") as [series|]; cbn [bind].
  - destruct series as [| | | | | |sd]; try discriminate.
    cbn [py_contains py_subscript bind].
    destruct (lookup sd "numberOfSeasons") as [[]|]; cbn [bind];
      try discriminate.
    + intros H. injection H as <-. reflexivity.
    + destruct (lookup d "numberOfSeasons") as [[]|]; cbn [bind];
        try discriminate; intros H; injection H as <-; reflexivity.
  - destruct (lookup d "numberOfSeasons") as [[]|]; cbn [bind];
      try discriminate; intros H; injection H as <-; reflexivity.
Qed.

Lemma seasons_from_page_result (soup : tag) :
  listing_usable soup ->
  exists l,
    seasons_from_page soup = Ok l /\ seasons_result soup l /\
    (forall n, listing_count soup = Some (Some n) ->
               l = range_list 1 (n + 1)) /\
    (listing_count soup = Some None ->
     link_season_numbers soup = [] -> l = [1]).
Proof.
  unfold listing_usable, listing_count, seasons_from_page.
  destruct (extract_json_ld soup) as [json_ld|e]; [|contradiction].
  cbn [bind].
  destruct (payload_count json_ld) as [[n|]|] eqn:Hc; [| |contradiction];
    rewrite (seasons_from_payload_count _ _ Hc); cbn [option_map bind].
  - intros Hn. exists (range_list 1 (n + 1)). split; [reflexivity|].
    split; [|split; [|discriminate]].
    + apply season_list_result, Seasons.range_is_season_list.
      apply Seasons.range_nonempty. lia.
    + intros k Hk. now injection Hk as <-.
  - intros Hread. unfold links_readable in Hread.
    assert (Hone : seasons_result soup [1]).
    { apply season_list_result. repeat split; try discriminate;
        repeat constructor. }
    unfold link_season_numbers.
    destruct (select soup sel_season_links) as [|link rest] eqn:Hsel.
    { exists [1]. split; [reflexivity|]. split; [exact Hone|].
      split; [discriminate|]. intros; reflexivity. }
    pose proof (Seasons.collect_seasons_spec (link :: rest) []) as Hspec.
    rewrite Hread in Hspec.
    destruct Hspec as (out & -> & Hin & Hnd & Hge).
    cbn [bind]. destruct out as [|k out].
    { exists [1]. split; [reflexivity|]. split; [exact Hone|].
      split; [discriminate|]. intros; reflexivity. }
    destruct (Seasons.sorted_set (k :: out) (Hnd (NoDup_nil Z))) as [Hs Hp].
    exists (py_sorted (fun n => n) (k :: out)). split; [reflexivity|].
    assert (Hnonneg : Forall (fun n => 0 <= n) (py_sorted (fun n => n) (k :: out))).
    { eapply Permutation_Forall; [exact Hp|]. apply Hge. constructor. }
    split; [|split; [discriminate|]].
    + split.
      { intros Hnil. rewrite Hnil in Hp. apply Permutation_sym in Hp.
        apply Permutation_nil in Hp. discriminate Hp. }
      split; [exact Hs|]. split; [exact Hnonneg|].
      intros Hzero. unfold link_season_numbers in Hzero.
      rewrite Hsel in Hzero. split.
      { intros Hnil. rewrite Hnil in Hp. apply Permutation_sym in Hp.
        apply Permutation_nil in Hp. discriminate Hp. }
      split; [exact Hs|].
      rewrite Forall_forall in *. intros n Hn.
      specialize (Hnonneg n Hn).
      assert (Hl : In n (link_numbers (link :: rest))).
      { apply (Permutation_in _ (Permutation_sym Hp)) in Hn.
        apply Hin in Hn. destruct Hn as [[]|Hn]. exact Hn. }
      assert (n <> 0) by (intros ->; contradiction). lia.
    + intros _ Hnone. exfalso.
      assert (Hk : In k (link_numbers (link :: rest))).
      { destruct (proj1 (Hin k) (or_introl eq_refl)) as [[]|Hk]. exact Hk. }
      rewrite Hnone in Hk. exact Hk.
Qed.

(** C8, as the code has it: when a season count is at hand (a positive
    known count, or a listing page whose structured data carries a count of
    at least 1, or no count and season links whose numbers are within the
    digit limit of [int]), [get_seasons] returns a list that is not empty,
    strictly ascending (hence of distinct integers), without negative
    numbers, and of positive integers unless a season link carries the
    number 0; a positive known count [n] gives exactly 1..n whatever the
    page; otherwise a count [n] of the page gives 1..n, and a page with
    neither count nor numbered link gives [1]. *)
Theorem get_seasons_season_list (soup : tag) (known_season_count : option Z) :
  count_at_hand soup known_season_count ->
  exists l,
    get_seasons soup known_season_count = Ok l /\
    seasons_result soup l /\
    (forall n, known_season_count = Some n -> 0 < n ->
               l = range_list 1 (n + 1)) /\
    ((forall n, known_season_count = Some n -> n <= 0) ->
     (forall n, listing_count soup = Some (Some n) ->
                l = range_list 1 (n + 1)) /\
     (listing_count soup = Some None ->
      link_season_numbers soup = [] -> l = [1])).
Proof.
  intros Hcount. unfold get_seasons.
  destruct known_season_count as [n|].
  - destruct (Z.ltb_spec 0 n) as [Hpos|Hle].
    + exists (range_list 1 (n + 1)). split; [reflexivity|]. split; [|split].
      * apply season_list_result, Seasons.range_is_season_list.
        now apply Seasons.range_nonempty.
      * intros k Hk _. now injection Hk as <-.
      * intros Hno. specialize (Hno n eq_refl). lia.
    + destruct Hcount as [(k & Hk & Hkpos)|Hus];
        [injection Hk as <-; lia|].
      destruct (seasons_from_page_result soup Hus)
        as (l & Hl & Hres & Hcnt & Hone).
      exists l. split; [exact Hl|]. split; [exact Hres|]. split.
      * intros k Hk Hkpos. injection Hk as <-. lia.
      * intros _. split; [exact Hcnt|exact Hone].
  - destruct Hcount as [(k & Hk & _)|Hus]; [discriminate Hk|].
    destruct (seasons_from_page_result soup Hus)
      as (l & Hl & Hres & Hcnt & Hone).
    exists l. split; [exact Hl|]. split; [exact Hres|]. split.
    + intros k Hk. discriminate Hk.
    + intros _. split; [exact Hcnt|exact Hone].
Qed.

End SeasonClaims.

(** Links to the seasons 2, 1 and 2 again: the seasons are 1 and 2. *)
Lemma get_seasons_witness :
  exists l,
    @get_seasons node_soup no_tables
      (page_with_links [season_link "2"; season_link "1"; season_link "2"])
      None = Ok l /\ l = [1; 2].
Proof.
  destruct (@get_seasons_season_list node_soup no_tables
              (page_with_links [season_link "2"; season_link "1"; season_link "2"])
              None) as (l & Hl & _).
  - right. vm_compute. reflexivity.
  - exists l. split; [exact Hl|].
    vm_compute in Hl. injection Hl as <-. reflexivity.
Defined.

(** C8 as stated fails: a link to season 0 makes 0 a season, which is not a
    positive integer. *)
Lemma get_seasons_zero_link_counterexample :
  @get_seasons node_soup no_tables (page_with_links [season_link "0"]) None
    = Ok [0] /\
  ~ season_list [0].
Proof.
  split; [vm_compute; reflexivity|].
  intros (_ & _ & Hpos). inversion Hpos as [|? ? H0 _]. lia.
Qed.

(** The count of the listing page is not checked as the known count is: a
    count of zero gives the empty list. *)
Lemma get_seasons_zero_count_is_empty :
  @get_seasons node_soup zero_seasons_interp
    (page_with_json_ld zero_seasons_json) None = Ok [].
Proof. vm_compute. reflexivity. Qed.

(** A season link whose number is past the digit limit makes [get_seasons]
    raise the ValueError of [int]. *)
Lemma get_seasons_raises_past_the_limit :
  @get_seasons node_soup no_tables long_link_page None = Raise ValueError.
Proof. vm_compute. reflexivity. Qed.

(** ** Show-Metadata Recoverer *)

Section ShowClaims.

Context {soup_impl : Soup} {interp : Interp}.

Lemma eq_str_true (v : value) (s : string) : eq_str v s = true -> v = VStr s.
Proof.
  destruct v; cbn; try discriminate. intros H.
  apply String.eqb_eq in H. now subst.
Qed.

Lemma get_show_info_expected (soup : tag) :
  payload_object_or_absent soup ->
  exists info,
    get_show_info soup = Ok info /\ name info = expected_name soup.
Proof.
  unfold payload_object_or_absent, expected_name, payload_name, heading,
    get_show_info.
  intros (json_ld & -> & Hld). cbn [bind].
  destruct (truthy json_ld) eqn:Ht.
  - destruct Hld as [Hf|[d ->]]; [discriminate Hf|].
    cbn [py_get bind].
    destruct (lookup d "name") as [v|].
    + destruct (eq_str v unknown_show) eqn:Hv.
      * destruct (or_else (select_one soup sel_hero_title)
                    (select_one soup "h1")); eexists; split; reflexivity.
      * eexists; split; reflexivity.
    + cbn [eq_str]. rewrite String.eqb_refl.
      destruct (or_else (select_one soup sel_hero_title)
                  (select_one soup "h1")); eexists; split; reflexivity.
  - cbn [bind eq_str]. rewrite String.eqb_refl.
    assert (Hnone : match json_ld with
                    | VDict d => lookup d "name"
                    | _ => None
                    end = None).
    { destruct json_ld as [| | | | | |[|p d]]; try reflexivity.
      discriminate Ht. }
    assert (Hname : match Ok json_ld with
                    | Ok (VDict d) => lookup d "name"
                    | _ => None
                    end = None).
    { destruct json_ld; try reflexivity; exact Hnone. }
    rewrite Hname.
    destruct (or_else (select_one soup sel_hero_title)
                (select_one soup "h1")); eexists; split; reflexivity.
Qed.

(** C9, as the code has it: on a page whose structured data the decoder
    does not raise on, and which is missing, empty, no JSON, or a JSON
    object, [get_show_info] does not raise, and the name it returns is the
    value the payload holds under "name", as it is, when that is not the
    sentinel; else the text of the heading, as it is, when the page has
    one; else the sentinel "Unknown Show". *)
Theorem get_show_info_name (soup : tag) :
  payload_object_or_absent soup ->
  exists info,
    get_show_info soup = Ok info /\
    (forall v, payload_name soup = Some v -> eq_str v unknown_show = false ->
               name info = v) /\
    (payload_names_nothing soup ->
     forall e, heading soup = Some e -> name info = VStr (get_text e true)) /\
    (payload_names_nothing soup -> heading soup = None ->
     name info = VStr unknown_show).
Proof.
  intros Hld. destruct (get_show_info_expected soup Hld) as (info & Hinfo & Hn).
  exists info. split; [exact Hinfo|]. rewrite Hn. unfold expected_name.
  split; [|split].
  - intros v Hv Hs. rewrite Hv, Hs. reflexivity.
  - intros [Hnone|(v & Hv & Hs)] e He.
    + rewrite Hnone, He. reflexivity.
    + rewrite Hv, Hs, He. reflexivity.
  - intros [Hnone|(v & Hv & Hs)] He.
    + rewrite Hnone, He. reflexivity.
    + rewrite Hv, Hs, He. now apply eq_str_true.
Qed.

(** A payload that is neither empty nor a JSON object has no [get]:
    [get_show_info] raises AttributeError. *)
Lemma get_show_info_raises (soup : tag) (json_ld : value) :
  extract_json_ld soup = Ok json_ld ->
  truthy json_ld = true ->
  (forall d, json_ld <> VDict d) ->
  get_show_info soup = Raise AttributeError.
Proof.
  intros Hld Ht Hd. unfold get_show_info. rewrite Hld. cbn [bind].
  rewrite Ht. destruct json_ld; try reflexivity.
  exfalso. eapply Hd. reflexivity.
Qed.

(** An exception of the decoder that is no JSONDecodeError, as the
    ValueError on an integer past the digit limit, escapes the handler of
    [extract_json_ld] and each of its three callers. *)
Lemma decoder_error_escapes (soup : tag) (e : exn) :
  extract_json_ld soup = Raise e ->
  get_show_info soup = Raise e /\
  get_seasons soup None = Raise e /\
  get_episode_ratings soup = Raise e.
Proof.
  intros H.
  unfold get_show_info, get_seasons, seasons_from_page, get_episode_ratings,
    get_episode_ratings_traced.
  rewrite H. repeat split.
Qed.

End ShowClaims.

(** A page whose structured data names the show and counts five seasons. *)
Lemma get_show_info_witness :
  exists info,
    @get_show_info node_soup named_show_interp
      (page_with_json_ld named_show_json) = Ok info /\
    name info = VStr "Breaking Bad".
Proof.
  destruct (@get_show_info_name node_soup named_show_interp
              (page_with_json_ld named_show_json))
    as (info & Hinfo & Hname & _).
  - eexists. split; [vm_compute; reflexivity|]. right. eexists. reflexivity.
  - exists info. split; [exact Hinfo|].
    apply Hname; vm_compute; reflexivity.
Defined.

(** C9 as stated fails: the empty name of a payload is returned as it is. *)
Lemma get_show_info_empty_name_counterexample :
  @get_show_info node_soup empty_name_interp
    (page_with_json_ld empty_name_json)
  = Ok {| name := VStr ""; poster_url := None; number_of_seasons := VNone |} /\
  ~ nonempty_name (VStr "").
Proof.
  split; [vm_compute; reflexivity|].
  intros (s & Hs & Hne). injection Hs as <-. now apply Hne.
Qed.

(** A payload that is a JSON array makes [get_show_info] raise. *)
Lemma get_show_info_array_raises :
  @get_show_info node_soup array_interp (page_with_json_ld array_json)
  = Raise AttributeError.
Proof. vm_compute. reflexivity. Qed.

(** A structured-data text on which the decoder raises ValueError makes
    [get_show_info] raise it. *)
Lemma get_show_info_decoder_raises :
  @get_show_info node_soup digit_limit_interp (page_with_json_ld "{}")
  = Raise ValueError.
Proof. vm_compute. reflexivity. Qed.

(** ** Slugs *)

Module Slug.

Ltac by_cases c :=
  destruct c as [[|] [|] [|] [|] [|] [|] [|] [|]]; vm_compute; reflexivity.

Lemma lower_char_idem (c : ascii) :
  Ascii.eqb (lower_char (lower_char c)) (lower_char c) = true.
Proof. by_cases c. Qed.

Lemma kept_is_slug_char (c : ascii) :
  implb (negb (is_dropped c) && Ascii.eqb (lower_char c) c
         && negb (is_hyphen_or_space c)) (slug_char c) = true.
Proof. by_cases c. Qed.

Lemma slug_char_kept (c : ascii) :
  implb (slug_char c) (negb (is_dropped c)) = true.
Proof. by_cases c. Qed.

Lemma slug_char_class (c : ascii) :
  implb (slug_char c) (Bool.eqb (is_hyphen_or_space c) (is_hyphen c)) = true.
Proof. by_cases c. Qed.

Lemma slug_char_plain (c : ascii) : implb (slug_char c) (plain_char c) = true.
Proof. by_cases c. Qed.

Lemma hyphen_is_hyphen (c : ascii) :
  implb (is_hyphen c) (Ascii.eqb c "-") = true.
Proof. by_cases c. Qed.

Lemma class_has_hyphen (c : ascii) :
  implb (is_hyphen c) (is_hyphen_or_space c) = true.
Proof. by_cases c. Qed.

Lemma implb_true (a b : bool) : implb a b = true -> a = true -> b = true.
Proof. destruct a, b; auto. Qed.

Lemma string_forall_impl (p q : ascii -> bool) (s : string) :
  (forall c, implb (p c) (q c) = true) ->
  string_forall p s = true -> string_forall q s = true.
Proof.
  intros Hpq. induction s as [|c r IH]; cbn; [reflexivity|].
  rewrite !andb_true_iff. intros [Hc Hr].
  split; [exact (implb_true _ _ (Hpq c) Hc)|auto].
Qed.

Lemma no_double_cons (a : ascii) (r : string) :
  no_double_hyphen (String a r) =
  negb (is_hyphen a && starts_hyphen r) && no_double_hyphen r.
Proof. destruct r; cbn; [now rewrite andb_false_r|reflexivity]. Qed.

(** After lowering and dropping, every character is kept and lowered. *)
Lemma lowered_and_kept (t : string) :
  string_forall
    (fun c => negb (is_dropped c) && Ascii.eqb (lower_char c) c)
    (remove_chars is_dropped (map_string lower_char t)) = true.
Proof.
  induction t as [|c r IH]; cbn; [reflexivity|].
  destruct (is_dropped (lower_char c)) eqn:E; [exact IH|].
  cbn. now rewrite E, lower_char_idem, IH.
Qed.

Lemma collapse_chars (b : bool) (s : string) :
  string_forall
    (fun c => negb (is_dropped c) && Ascii.eqb (lower_char c) c) s = true ->
  string_forall slug_char (collapse_runs is_hyphen_or_space b s) = true.
Proof.
  revert b. induction s as [|c r IH]; intros b; cbn; [reflexivity|].
  rewrite andb_true_iff. intros [Hc Hr].
  destruct (is_hyphen_or_space c) eqn:E.
  - destruct b; cbn; auto.
  - cbn. rewrite (IH false Hr), andb_true_r.
    apply (implb_true _ _ (kept_is_slug_char c)). now rewrite Hc, E.
Qed.

Lemma collapse_hyphens (b : bool) (s : string) :
  no_double_hyphen (collapse_runs is_hyphen_or_space b s) = true /\
  (b = true ->
   starts_hyphen (collapse_runs is_hyphen_or_space b s) = false).
Proof.
  revert b. induction s as [|c r IH]; intros b; cbn; [auto|].
  destruct (is_hyphen_or_space c) eqn:E.
  - destruct b.
    + apply IH.
    + split; [|discriminate]. rewrite no_double_cons.
      destruct (IH true) as [Hn Hs]. now rewrite (Hs eq_refl), Hn.
  - assert (Hc : is_hyphen c = false).
    { destruct (is_hyphen c) eqn:Hh; trivial.
      pose proof (implb_true _ _ (class_has_hyphen c) Hh). congruence. }
    split; [|now cbn]. rewrite no_double_cons, Hc. cbn. apply IH.
Qed.

Lemma no_double_tail (a : ascii) (r : string) :
  no_double_hyphen (String a r) = true -> no_double_hyphen r = true.
Proof. rewrite no_double_cons, andb_true_iff. tauto. Qed.

Lemma lstrip_keeps (q : ascii -> bool) (s : string) :
  string_forall q s = true -> no_double_hyphen s = true ->
  string_forall q (lstrip_chars is_hyphen s) = true /\
  no_double_hyphen (lstrip_chars is_hyphen s) = true /\
  starts_hyphen (lstrip_chars is_hyphen s) = false.
Proof.
  induction s as [|c r IH]; intros Hq Hn; [cbn; auto|].
  cbn [lstrip_chars]. destruct (is_hyphen c) eqn:E.
  - apply IH; [|now apply no_double_tail in Hn].
    cbn in Hq. apply andb_true_iff in Hq. tauto.
  - repeat split; trivial.
Qed.

Lemma rstrip_nil (p : ascii -> bool) (c : ascii) (r : string) :
  rstrip_chars p (String c r) =
  match rstrip_chars p r with
  | EmptyString => if p c then EmptyString else String c EmptyString
  | r' => String c r'
  end.
Proof. reflexivity. Qed.

Lemma rstrip_forall (q p : ascii -> bool) (s : string) :
  string_forall q s = true -> string_forall q (rstrip_chars p s) = true.
Proof.
  induction s as [|c r IH]; [auto|]. rewrite rstrip_nil. cbn [string_forall].
  rewrite andb_true_iff. intros [Hc Hr]. specialize (IH Hr).
  destruct (rstrip_chars p r) as [|c' r'].
  - destruct (p c); cbn; [reflexivity|now rewrite Hc].
  - cbn [string_forall] in *. now rewrite Hc, IH.
Qed.

(** What is left of a string starts as the string does. *)
Lemma rstrip_starts (p : ascii -> bool) (s : string) :
  starts_hyphen (rstrip_chars p s) = true -> starts_hyphen s = true.
Proof.
  destruct s as [|c r]; [auto|]. rewrite rstrip_nil.
  destruct (rstrip_chars p r); [destruct (p c)|]; cbn; auto. discriminate.
Qed.

Lemma rstrip_no_double (p : ascii -> bool) (s : string) :
  no_double_hyphen s = true -> no_double_hyphen (rstrip_chars p s) = true.
Proof.
  induction s as [|c r IH]; [auto|]. intros Hn. rewrite rstrip_nil.
  pose proof (IH (no_double_tail _ _ Hn)) as Hr.
  pose proof (rstrip_starts p r) as Hs.
  destruct (rstrip_chars p r) as [|c' r'] eqn:E.
  - destruct (p c); reflexivity.
  - rewrite no_double_cons, Hr, andb_true_r.
    rewrite no_double_cons in Hn. apply andb_true_iff in Hn.
    destruct Hn as [Hn _].
    destruct (is_hyphen c); [|reflexivity].
    destruct (starts_hyphen (String c' r')) eqn:Hc'; [|reflexivity].
    rewrite (Hs eq_refl) in Hn. discriminate Hn.
Qed.

Lemma rstrip_ends (s : string) :
  ends_hyphen (rstrip_chars is_hyphen s) = false.
Proof.
  induction s as [|c r IH]; [reflexivity|]. rewrite rstrip_nil.
  destruct (rstrip_chars is_hyphen r) as [|c' r'].
  - destruct (is_hyphen c) eqn:E; [reflexivity|].
    unfold ends_hyphen. cbn. exact E.
  - exact IH.
Qed.

Lemma rstrip_not_starts (p : ascii -> bool) (s : string) :
  starts_hyphen s = false -> starts_hyphen (rstrip_chars p s) = false.
Proof.
  intros Hs. destruct (starts_hyphen (rstrip_chars p s)) eqn:E; trivial.
  apply rstrip_starts in E. congruence.
Qed.

(** [slugify] returns a slug. *)
Lemma slugify_is_slug (text : string) : is_slug (slugify text) = true.
Proof.
  unfold slugify, strip_hyphens, is_slug.
  pose proof (collapse_chars false _ (lowered_and_kept text)) as Hq.
  destruct (collapse_hyphens false
              (remove_chars is_dropped (map_string lower_char text)))
    as [Hn _].
  destruct (lstrip_keeps slug_char _ Hq Hn) as (Lq & Ln & Ls).
  rewrite (rstrip_forall slug_char is_hyphen _ Lq),
    (rstrip_no_double is_hyphen _ Ln), (rstrip_not_starts is_hyphen _ Ls),
    rstrip_ends.
  reflexivity.
Qed.

Lemma map_lower_fixed (s : string) :
  string_forall slug_char s = true -> map_string lower_char s = s.
Proof.
  induction s as [|c r IH]; cbn; [reflexivity|].
  unfold slug_char at 1. rewrite !andb_true_iff. intros [[_ Hc] Hr].
  apply Ascii.eqb_eq in Hc. now rewrite Hc, IH.
Qed.

Lemma remove_nothing (s : string) :
  string_forall slug_char s = true -> remove_chars is_dropped s = s.
Proof.
  induction s as [|c r IH]; cbn; [reflexivity|].
  rewrite andb_true_iff. intros [Hc Hr].
  pose proof (implb_true _ _ (slug_char_kept c) Hc) as Hk.
  apply negb_true_iff in Hk. now rewrite Hk, IH.
Qed.

Lemma collapse_nothing (b : bool) (s : string) :
  string_forall slug_char s = true -> no_double_hyphen s = true ->
  (b = true -> starts_hyphen s = false) ->
  collapse_runs is_hyphen_or_space b s = s.
Proof.
  revert b. induction s as [|c r IH]; intros b Hq Hn Hb; [reflexivity|].
  cbn [collapse_runs]. cbn in Hq. apply andb_true_iff in Hq.
  destruct Hq as [Hc Hr].
  pose proof (implb_true _ _ (slug_char_class c) Hc) as Hcl.
  apply Bool.eqb_prop in Hcl. rewrite Hcl.
  rewrite no_double_cons in Hn. apply andb_true_iff in Hn.
  destruct Hn as [Hcr Hnr].
  destruct (is_hyphen c) eqn:Eh.
  - destruct b; [specialize (Hb eq_refl); cbn in Hb; congruence|].
    pose proof (implb_true _ _ (hyphen_is_hyphen c) Eh) as Heq.
    apply Ascii.eqb_eq in Heq. subst c.
    rewrite IH; trivial. intros _.
    cbn in Hcr. now apply negb_true_iff in Hcr.
  - rewrite IH; trivial. discriminate.
Qed.

Lemma lstrip_nothing (s : string) :
  starts_hyphen s = false -> lstrip_chars is_hyphen s = s.
Proof. destruct s as [|c r]; cbn; [reflexivity|]. now intros ->. Qed.

Lemma rstrip_nothing (s : string) :
  ends_hyphen s = false -> rstrip_chars is_hyphen s = s.
Proof.
  induction s as [|c r IH]; [reflexivity|]. rewrite rstrip_nil.
  unfold ends_hyphen in *. cbn [last_char].
  destruct r as [|c' r'].
  - cbn. now intros ->.
  - intros H. rewrite (IH H). reflexivity.
Qed.

(** A slug is its own slug. *)
Lemma slug_is_fixed (s : string) : is_slug s = true -> slugify s = s.
Proof.
  unfold is_slug. rewrite !andb_true_iff, !negb_true_iff.
  intros [[[Hq Hn] Hs] He]. unfold slugify, strip_hyphens.
  rewrite (map_lower_fixed s Hq), (remove_nothing s Hq),
    (collapse_nothing false s Hq Hn) by discriminate.
  now rewrite (lstrip_nothing s Hs), (rstrip_nothing s He).
Qed.

End Slug.

(** X1: the shape of a slug.  Whatever the text, its slug holds only word
    characters and hyphens, is unchanged by [lower], has no hyphen at either
    end and no two hyphens in a row; so it holds no slash, backslash, dot or
    white space. *)
Theorem slugify_shape (text : string) :
  string_forall (fun c => is_word c || is_hyphen c) (slugify text) = true /\
  map_string lower_char (slugify text) = slugify text /\
  no_double_hyphen (slugify text) = true /\
  starts_hyphen (slugify text) = false /\
  ends_hyphen (slugify text) = false /\
  string_forall plain_char (slugify text) = true.
Proof.
  pose proof (Slug.slugify_is_slug text) as H. unfold is_slug in H.
  rewrite !andb_true_iff, !negb_true_iff in H.
  destruct H as [[[Hq Hn] Hs] He].
  repeat split; trivial.
  - revert Hq. apply Slug.string_forall_impl. intros c. unfold slug_char.
    destruct (is_word c || is_hyphen c), (Ascii.eqb (lower_char c) c);
      reflexivity.
  - now apply Slug.map_lower_fixed.
  - revert Hq. apply Slug.string_forall_impl. exact Slug.slug_char_plain.
Qed.

(** X2: [slugify] is idempotent: the slug of a slug is that slug. *)
Theorem slugify_idempotent (text : string) :
  slugify (slugify text) = slugify text.
Proof. apply Slug.slug_is_fixed, Slug.slugify_is_slug. Qed.

Module OutputFile.

Lemma slug_has_no_separator (text : string) :
  string_forall (fun c => negb (is_char 47 c) && negb (is_char 92 c))
    (slugify text) = true.
Proof.
  pose proof (Slug.slugify_is_slug text) as H. unfold is_slug in H.
  rewrite !andb_true_iff in H. destruct H as [[[Hq _] _] _].
  revert Hq. apply Slug.string_forall_impl. intros c.
  pose proof (Slug.slug_char_plain c) as Hp. unfold plain_char in Hp.
  destruct (slug_char c); [|reflexivity]. cbn in *.
  destruct (is_char 47 c), (is_char 92 c); cbn in *; auto.
Qed.

Lemma substring_all (b : string) : substring 0 (String.length b) b = b.
Proof. induction b as [|c r IH]; cbn; [reflexivity|now rewrite IH]. Qed.

Lemma substring_suffix (a b : string) :
  substring (String.length a) (String.length b) (a ++ b) = b.
Proof.
  induction a as [|c r IH]; cbn; [apply substring_all|exact IH].
Qed.

Lemma ends_with_app (a suffix : string) : ends_with (a ++ suffix) suffix = true.
Proof.
  unfold ends_with. rewrite Str.length_app.
  replace (String.length a + String.length suffix - String.length suffix)%nat
    with (String.length a) by lia.
  rewrite substring_suffix, String.eqb_refl, andb_true_r.
  apply Nat.leb_le. lia.
Qed.

Lemma string_forall_app (p : ascii -> bool) (a b : string) :
  string_forall p (a ++ b) = string_forall p a && string_forall p b.
Proof.
  induction a as [|c r IH]; cbn; [reflexivity|].
  now rewrite IH, andb_assoc.
Qed.

End OutputFile.

(** X3: the output file of [main].  Whenever a file name results it ends in
    ".html": an [--output] that has the extension is taken as it is, one
    that has not gets it appended.  Without [--output] (or with an empty
    one) the name is the slug of the show name with the extension, which
    holds no slash or backslash, so the file stays in the output directory;
    and the only failure is AttributeError, when the show name is no
    string. *)
Theorem output_filename_is_html (output : option string) (name : value) :
  (forall f, output_filename output name = Ok f ->
             ends_with f ".html" = true) /\
  (forall o, output = Some o -> o <> "" ->
             output_filename output name =
             Ok (if ends_with o ".html" then o else o ++ ".html")) /\
  (output = None \/ output = Some "" ->
   forall s, name = VStr s ->
             output_filename output name = Ok (slugify s ++ ".html") /\
             string_forall
               (fun c => negb (is_char 47 c) && negb (is_char 92 c))
               (slugify s ++ ".html") = true) /\
  (forall e, output_filename output name = Raise e ->
             e = AttributeError /\ (output = None \/ output = Some "") /\
             forall s, name <> VStr s).
Proof.
  assert (Hdef : forall f,
            match name with
            | VStr s => Ok (slugify s ++ ".html")
            | _ => Raise AttributeError
            end = Ok f -> ends_with f ".html" = true).
  { intros f. destruct name; try discriminate. intros H. injection H as <-.
    apply OutputFile.ends_with_app. }
  assert (Hraise : forall e,
            match name with
            | VStr s => Ok (slugify s ++ ".html")
            | _ => Raise AttributeError
            end = Raise e -> e = AttributeError /\ forall s, name <> VStr s).
  { intros e. destruct name; intros H; try discriminate H;
      injection H as <-; split; trivial; intros s Hs; discriminate Hs. }
  unfold output_filename. split; [|split; [|split]].
  - intros f. destruct output as [o|]; [|apply Hdef].
    destruct (String.eqb_spec o ""); [apply Hdef|].
    destruct (ends_with o ".html") eqn:E; intros H; injection H as <-;
      [exact E|apply OutputFile.ends_with_app].
  - intros o -> Hne. destruct (String.eqb_spec o ""); [contradiction|].
    destruct (ends_with o ".html"); reflexivity.
  - intros Hout s ->. split.
    + destruct Hout as [-> | ->]; reflexivity.
    + rewrite OutputFile.string_forall_app. apply andb_true_iff. split.
      * apply OutputFile.slug_has_no_separator.
      * reflexivity.
  - intros e. destruct output as [o|].
    + destruct (String.eqb_spec o "") as [->|Hne].
      * intros H. destruct (Hraise e H). auto.
      * destruct (ends_with o ".html"); discriminate.
    + intros H. destruct (Hraise e H). auto.
Qed.

(** ** Extremes *)

Module Extremes.

Import FloatOrder.

Lemma ltb_trans (x y z : float) :
  (x <? y)%float = true -> (y <? z)%float = true -> (x <? z)%float = true.
Proof.
  rewrite !ltb_key. unfold lex_lt.
  destruct (key x) as [[x1 x2] x3], (key y) as [[y1 y2] y3],
    (key z) as [[z1 z2] z3].
  intros (Hx & Hy & Hxy) (_ & Hz & Hyz). repeat split; trivial. lia.
Qed.

Lemma ltb_irrefl (x : float) : (x <? x)%float = false.
Proof.
  destruct (x <? x)%float eqn:E; trivial. apply ltb_key in E.
  destruct E as (_ & _ & E). unfold lex_lt in E.
  destruct (key x) as [[x1 x2] x3]. lia.
Qed.

(** Among numbers, what is not below [b] is above whatever is below [b]. *)
Lemma ltb_neg_trans (x b m : float) :
  PrimFloat.is_nan x = false -> PrimFloat.is_nan b = false ->
  (x <? b)%float = false -> (m <? b)%float = true -> (m <? x)%float = true.
Proof.
  intros Hx Hb Hxb Hmb. pose proof (ltb_false_leb x b Hx Hb Hxb) as Hle.
  apply leb_key in Hle. apply ltb_key in Hmb. apply ltb_key.
  destruct Hmb as (Hm & _ & Hmb). destruct Hle as (_ & _ & Hle).
  repeat split; trivial. revert Hmb Hle. unfold lex_lt, lex_le.
  destruct (key x) as [[x1 x2] x3], (key b) as [[b1 b2] b3],
    (key m) as [[m1 m2] m3]. lia.
Qed.

Section Select.

Context {A : Type} (lt : A -> A -> bool) (ok : A -> Prop).

Hypothesis lt_trans :
  forall x y z, lt x y = true -> lt y z = true -> lt x z = true.
Hypothesis lt_irrefl : forall x, lt x x = false.
Hypothesis lt_neg_trans :
  forall x b m, ok x -> ok b ->
                lt x b = false -> lt m b = true -> lt m x = true.

Lemma select_below (b : A) (l : list A) :
  select_from lt b l = b \/ lt (select_from lt b l) b = true.
Proof.
  revert b. induction l as [|x l IH]; intros b; cbn; [auto|].
  destruct (lt x b) eqn:E.
  - right. destruct (IH x) as [-> | H]; [exact E|eauto].
  - apply IH.
Qed.

Lemma select_in (b : A) (l : list A) : In (select_from lt b l) (b :: l).
Proof.
  revert b. induction l as [|x l IH]; intros b; cbn; [auto|].
  destruct (IH (if lt x b then x else b)) as [H|H]; [|auto].
  destruct (lt x b); rewrite <- H; auto.
Qed.

(** Nothing is below the selected element. *)
Lemma select_extremal (b : A) (l : list A) (x : A) :
  In x (b :: l) -> lt x (select_from lt b l) = false.
Proof.
  revert b. induction l as [|y l IH]; intros b Hin.
  - destruct Hin as [<-|[]]. apply lt_irrefl.
  - cbn [select_from].
    pose proof (select_below (if lt y b then y else b) l) as Hb.
    assert (Hhead : forall z, z = b \/ z = y ->
              lt z (if lt y b then y else b) = false ->
              lt z (select_from lt (if lt y b then y else b) l) = false).
    { intros z _ Hz. destruct Hb as [-> | Hlt]; [exact Hz|].
      destruct (lt z (select_from lt (if lt y b then y else b) l)) eqn:E;
        trivial.
      rewrite (lt_trans _ _ _ E Hlt) in Hz. discriminate Hz. }
    destruct Hin as [<-|[<-|Hin]].
    + apply Hhead; [auto|]. destruct (lt y b) eqn:E; [|apply lt_irrefl].
      destruct (lt b y) eqn:E'; trivial.
      pose proof (lt_trans _ _ _ E' E) as F.
      rewrite lt_irrefl in F. discriminate F.
    + apply Hhead; [auto|]. destruct (lt y b) eqn:E; [apply lt_irrefl|exact E].
    + apply IH. right. exact Hin.
Qed.

(** The selected element is the first of its kind: everything before it
    is strictly beyond it. *)
Lemma select_first (b : A) (l : list A) :
  Forall ok (b :: l) ->
  exists l1 l2,
    b :: l = (l1 ++ select_from lt b l :: l2)%list /\
    Forall (fun x => lt (select_from lt b l) x = true) l1.
Proof.
  revert b. induction l as [|y l IH]; intros b Hok.
  - exists [], []. split; [reflexivity|constructor].
  - cbn [select_from]. inversion Hok as [|? ? Hb Hyl]. subst.
    inversion Hyl as [|? ? Hy Hl]. subst.
    destruct (lt y b) eqn:E.
    + destruct (IH y Hyl) as (l1 & l2 & Heq & Hall).
      exists (b :: l1), l2. split; [cbn; f_equal; exact Heq|].
      constructor; [|exact Hall].
      destruct (select_below y l) as [-> | H]; [exact E|eauto].
    + destruct (IH b (Forall_cons _ Hb Hl)) as (l1 & l2 & Heq & Hall).
      destruct l1 as [|b' l1].
      * cbn in Heq. injection Heq as Hm Hl2.
        exists [], (y :: l). split; [cbn; f_equal; exact Hm|constructor].
      * cbn in Heq. injection Heq as <- Hl1.
        exists (b :: y :: l1), l2. split; [cbn; do 2 f_equal; exact Hl1|].
        inversion Hall as [|? ? Hmb Hrest]. subst.
        constructor; [exact Hmb|]. constructor; [|exact Hrest].
        exact (lt_neg_trans _ _ _ Hy Hb E Hmb).
Qed.

End Select.

Lemma min_from_select {A : Type} (key : A -> float) (b : A) (l : list A) :
  min_from key b l = select_from (fun x y => (key x <? key y)%float) b l.
Proof.
  revert b. induction l as [|x l IH]; intros b; cbn; [reflexivity|apply IH].
Qed.

Lemma max_from_select {A : Type} (key : A -> float) (b : A) (l : list A) :
  max_from key b l = select_from (fun x y => (key y <? key x)%float) b l.
Proof.
  revert b. induction l as [|x l IH]; intros b; cbn; [reflexivity|apply IH].
Qed.

Section ByKey.

Context {A : Type} (rate : A -> float).

(** [min]: an element of the list that nothing is below. *)
Lemma py_min_spec (l : list A) :
  match py_min rate l with
  | Some m => In m l /\ forall x, In x l -> (rate x <? rate m)%float = false
  | None => l = []
  end.
Proof.
  destruct l as [|b l]; cbn [py_min]; [reflexivity|].
  rewrite min_from_select. split.
  - apply select_in.
  - intros x Hx.
    apply (select_extremal (fun x y => (rate x <? rate y)%float)); trivial.
    + intros a c d. apply ltb_trans.
    + intros a. apply ltb_irrefl.
Qed.

(** [max]: an element of the list that nothing is above. *)
Lemma py_max_spec (l : list A) :
  match py_max rate l with
  | Some m => In m l /\ forall x, In x l -> (rate m <? rate x)%float = false
  | None => l = []
  end.
Proof.
  destruct l as [|b l]; cbn [py_max]; [reflexivity|].
  rewrite max_from_select. split.
  - apply select_in.
  - intros x Hx.
    apply (select_extremal (fun x y => (rate y <? rate x)%float)); trivial.
    + intros a c d H1 H2. exact (ltb_trans _ _ _ H2 H1).
    + intros a. apply ltb_irrefl.
Qed.

Definition is_number (x : A) : Prop := PrimFloat.is_nan (rate x) = false.

(** On numbers, [min] is the first of the least elements. *)
Lemma py_min_first (l : list A) (m : A) :
  Forall is_number l -> py_min rate l = Some m ->
  exists l1 l2,
    l = (l1 ++ m :: l2)%list /\
    Forall (fun x => (rate m <? rate x)%float = true) l1.
Proof.
  destruct l as [|b l]; cbn [py_min]; [discriminate|].
  rewrite min_from_select. intros Hok Hm. injection Hm as <-.
  apply (select_first (fun x y => (rate x <? rate y)%float) is_number); trivial.
  - intros a c d. apply ltb_trans.
  - intros x c d Hx Hc. apply ltb_neg_trans; assumption.
Qed.

(** On numbers, [max] is the first of the greatest elements. *)
Lemma py_max_first (l : list A) (m : A) :
  Forall is_number l -> py_max rate l = Some m ->
  exists l1 l2,
    l = (l1 ++ m :: l2)%list /\
    Forall (fun x => (rate x <? rate m)%float = true) l1.
Proof.
  destruct l as [|b l]; cbn [py_max]; [discriminate|].
  rewrite max_from_select. intros Hok Hm. injection Hm as <-.
  apply (select_first (fun x y => (rate y <? rate x)%float) is_number); trivial.
  - intros a c d H1 H2. exact (ltb_trans _ _ _ H2 H1).
  - intros x c d Hx Hc Hxc Hdc.
    pose proof (ltb_false_leb _ _ Hc Hx Hxc) as Hle.
    apply leb_key in Hle. apply ltb_key in Hdc. apply ltb_key.
    destruct Hdc as (_ & Hd & Hdc). destruct Hle as (_ & _ & Hle).
    repeat split; trivial. revert Hdc Hle. unfold lex_lt, lex_le.
    destruct (key (rate x)) as [[x1 x2] x3], (key (rate c)) as [[c1 c2] c3],
      (key (rate d)) as [[d1 d2] d3]. lia.
Qed.

End ByKey.

End Extremes.

Section ExtremeClaims.

Context {interp : Interp}.

Lemma calculate_analytics_extremes (sds : list season_data) :
  min_episode (calculate_analytics sds) = py_min Rated.rating (all_rated sds) /\
  max_episode (calculate_analytics sds) = py_max Rated.rating (all_rated sds) /\
  best_season (calculate_analytics sds) =
    py_max SeasonAverage.average (season_averages (calculate_analytics sds)) /\
  worst_season (calculate_analytics sds) =
    py_min SeasonAverage.average (season_averages (calculate_analytics sds)).
Proof.
  unfold calculate_analytics, all_rated.
  rewrite Analytics.fold_rate_season. cbn [app].
  destruct (flat_map rated_entries sds); cbn; auto.
Qed.

(** X4: the extreme episodes.  When some episode is rated, [min_episode]
    and [max_episode] are rated episodes of the input, no rated episode has a
    rating below the one of [min_episode], none a rating above the one of
    [max_episode]; when none is rated both are absent. *)
Theorem extreme_episodes (sds : list season_data) :
  match min_episode (calculate_analytics sds),
        max_episode (calculate_analytics sds) with
  | Some lo, Some hi =>
      In lo (all_rated sds) /\ In hi (all_rated sds) /\
      forall e, In e (all_rated sds) ->
                (Rated.rating e <? Rated.rating lo)%float = false /\
                (Rated.rating hi <? Rated.rating e)%float = false
  | None, None => all_rated sds = []
  | _, _ => False
  end.
Proof.
  destruct (calculate_analytics_extremes sds) as (-> & -> & _).
  pose proof (Extremes.py_min_spec Rated.rating (all_rated sds)) as Hmin.
  pose proof (Extremes.py_max_spec Rated.rating (all_rated sds)) as Hmax.
  destruct (py_min Rated.rating (all_rated sds)) as [lo|],
    (py_max Rated.rating (all_rated sds)) as [hi|].
  - destruct Hmin as [Hlo Hmin], Hmax as [Hhi Hmax]. repeat split; auto.
  - rewrite Hmax in Hmin. destruct Hmin as [[] _].
  - rewrite Hmin in Hmax. destruct Hmax as [[] _].
  - exact Hmin.
Qed.

(** X5: ties go to the first.  When every rating is a number, every rated
    episode that comes before [min_episode] in the order of the input
    (season by season, episode by episode) has a strictly higher rating,
    and every one that comes before [max_episode] a strictly lower one. *)
Theorem extreme_episodes_first (sds : list season_data) :
  Forall rating_is_number (all_rated sds) ->
  match min_episode (calculate_analytics sds),
        max_episode (calculate_analytics sds) with
  | Some lo, Some hi =>
      (exists before after,
         all_rated sds = (before ++ lo :: after)%list /\
         Forall (fun e => (Rated.rating lo <? Rated.rating e)%float = true)
           before) /\
      (exists before after,
         all_rated sds = (before ++ hi :: after)%list /\
         Forall (fun e => (Rated.rating e <? Rated.rating hi)%float = true)
           before)
  | _, _ => all_rated sds = []
  end.
Proof.
  intros Hnum. destruct (calculate_analytics_extremes sds) as (-> & -> & _).
  pose proof (Extremes.py_min_first Rated.rating (all_rated sds)) as Hmin.
  pose proof (Extremes.py_max_first Rated.rating (all_rated sds)) as Hmax.
  pose proof (Extremes.py_min_spec Rated.rating (all_rated sds)) as Smin.
  pose proof (Extremes.py_max_spec Rated.rating (all_rated sds)) as Smax.
  destruct (py_min Rated.rating (all_rated sds)) as [lo|],
    (py_max Rated.rating (all_rated sds)) as [hi|]; trivial.
  split; [apply Hmin|apply Hmax]; trivial.
Qed.

(** X6: the extreme seasons.  [best_season] and [worst_season] are entries
    of [season_averages]; no entry has an average above the one of
    [best_season], none an average below the one of [worst_season]; both
    are absent exactly when there is no entry. *)
Theorem extreme_seasons (sds : list season_data) :
  match best_season (calculate_analytics sds),
        worst_season (calculate_analytics sds) with
  | Some hi, Some lo =>
      In hi (season_averages (calculate_analytics sds)) /\
      In lo (season_averages (calculate_analytics sds)) /\
      forall s, In s (season_averages (calculate_analytics sds)) ->
                (SeasonAverage.average hi <? SeasonAverage.average s)%float
                  = false /\
                (SeasonAverage.average s <? SeasonAverage.average lo)%float
                  = false
  | None, None => season_averages (calculate_analytics sds) = []
  | _, _ => False
  end.
Proof.
  destruct (calculate_analytics_extremes sds) as (_ & _ & -> & ->).
  pose proof (Extremes.py_min_spec SeasonAverage.average
                (season_averages (calculate_analytics sds))) as Hmin.
  pose proof (Extremes.py_max_spec SeasonAverage.average
                (season_averages (calculate_analytics sds))) as Hmax.
  destruct (py_max SeasonAverage.average _) as [hi|],
    (py_min SeasonAverage.average _) as [lo|].
  - destruct Hmin as [Hlo Hmin], Hmax as [Hhi Hmax]. repeat split; auto.
  - rewrite Hmin in Hmax. destruct Hmax as [[] _].
  - rewrite Hmax in Hmin. destruct Hmin as [[] _].
  - exact Hmax.
Qed.

End ExtremeClaims.

(** Two seasons with ties at both ends: the lowest is the second episode of
    season 1 and the highest its first, each before its equal of season 2. *)
Lemma extreme_episodes_first_witness :
  Forall rating_is_number (all_rated tied_seasons) /\
  option_map (fun e => (Rated.season e, Rated.episode e))
    (min_episode (@calculate_analytics no_tables tied_seasons)) = Some (1, 2) /\
  option_map (fun e => (Rated.season e, Rated.episode e))
    (max_episode (@calculate_analytics no_tables tied_seasons)) = Some (1, 1).
Proof.
  assert (Hnum : Forall rating_is_number (all_rated tied_seasons))
    by (repeat constructor).
  split; [exact Hnum|].
  pose proof (@extreme_episodes_first no_tables tied_seasons Hnum) as H.
  split; reflexivity.
Defined.

(** ** More on the Episode Extractor *)

Module Payload.

Section Loop.

Context {interp : Interp}.

(** An entry that is no JSON object stops the extraction. *)
Lemma episode_of_payload_object (episodes : list episode) (v : value)
  (ep : episode) :
  episode_of_payload episodes v = Ok ep -> exists d, v = VDict d.
Proof.
  destruct v; cbn; try discriminate. eauto.
Qed.

(** Without a usable number an entry gets the next position. *)
Lemma episode_of_payload_default (episodes : list episode)
  (d : list (string * value)) (ep : episode) :
  episode_of_payload episodes (VDict d) = Ok ep -> no_episode_number d ->
  episode_num ep = Z.of_nat (List.length episodes) + 1.
Proof.
  unfold episode_of_payload, no_episode_number. cbn [py_get bind].
  intros H Hno.
  match type of H with
  | bind ?r _ = _ => destruct r as [rt|]; [|discriminate H]
  end.
  cbn [bind] in H.
  destruct (lookup d "episodeNumber") as [v|].
  - rewrite Hno in H. cbn [bind] in H. injection H as <-. reflexivity.
  - cbn [truthy] in H.
    destruct (Z.of_nat (List.length episodes) + 1 =? 0) eqn:E;
      cbn [negb bind py_int] in H; injection H as <-; reflexivity.
Qed.

Lemma payload_loop_spec (l : list value) (acc out : list episode) :
  payload_loop l acc = Ok out ->
  exists eps,
    out = (acc ++ eps)%list /\
    List.length eps = List.length l /\
    forall k v,
      nth_error l k = Some v ->
      exists ep, nth_error eps k = Some ep /\
                 episode_of_payload (acc ++ firstn k eps) v = Ok ep.
Proof.
  revert acc out. induction l as [|v l IH]; intros acc out; cbn [payload_loop].
  - intros H. injection H as <-. exists []. rewrite app_nil_r.
    repeat split. intros [|k] w Hk; discriminate Hk.
  - destruct (episode_of_payload acc v) as [ep|] eqn:Hep; [|discriminate].
    cbn [bind]. intros H.
    destruct (IH _ _ H) as (eps & -> & Hlen & Hnth).
    exists (ep :: eps). rewrite <- app_assoc. cbn [app List.length].
    repeat split; [now rewrite Hlen|].
    intros [|k] w Hk; cbn in Hk.
    + injection Hk as <-. exists ep. cbn. rewrite app_nil_r. auto.
    + destruct (Hnth k w Hk) as (e & He & Hof). exists e.
      cbn [nth_error firstn]. split; [exact He|].
      now rewrite <- app_assoc in Hof.
Qed.

End Loop.

End Payload.

Section MoreExtractorClaims.

Context {soup_impl : Soup} {interp : Interp}.

(** X7: the records of a payload.  When the loop over the "episode" list
    completes it has made one record per entry, in the order of the list;
    every entry is a JSON object; and an entry without an "episodeNumber",
    or with a falsy one, is numbered by its 1-based position in the list. *)
Theorem payload_records_by_position (l : list value) (eps : list episode) :
  payload_loop l [] = Ok eps ->
  List.length eps = List.length l /\
  (forall k v, nth_error l k = Some v -> exists d, v = VDict d) /\
  (forall k d, nth_error l k = Some (VDict d) -> no_episode_number d ->
               exists ep, nth_error eps k = Some ep /\
                          episode_num ep = Z.of_nat k + 1).
Proof.
  intros H. destruct (Payload.payload_loop_spec l [] eps H)
    as (eps' & Heq & Hlen & Hnth).
  cbn in Heq. subst eps'. split; [exact Hlen|]. split.
  - intros k v Hk. destruct (Hnth k v Hk) as (ep & _ & Hof).
    exact (Payload.episode_of_payload_object _ _ _ Hof).
  - intros k d Hk Hno. destruct (Hnth k _ Hk) as (ep & He & Hof).
    exists ep. split; [exact He|]. cbn [app] in Hof.
    rewrite (Payload.episode_of_payload_default _ _ _ Hof Hno).
    rewrite firstn_length_le; [reflexivity|].
    apply Nat.lt_le_incl. apply nth_error_Some. congruence.
Qed.

Lemma episode_of_item_shape (idx : Z) (item : tag) (ep : episode) :
  episode_of_item idx item = Ok ep -> 0 <= idx ->
  nonempty_name (title ep) /\ 0 <= episode_num ep.
Proof.
  intros H Hidx. split.
  - unfold episode_of_item in H.
    match type of H with
    | bind ?r _ = _ => destruct r as [rt|]; [|discriminate H]
    end.
    cbn [bind] in H.
    match type of H with
    | bind ?r _ = _ => destruct r as [n|]; [|discriminate H]
    end.
    cbn [bind] in H. injection H as <-. cbn [title].
    eexists. split; [reflexivity|].
    match goal with
    | |- match ?t with Some _ => _ | None => _ end <> _ => destruct t as [s|]
    end; [destruct (String.eqb_spec s "")|]; trivial; discriminate.
  - pose proof (Extractor.episode_of_item_cases idx item) as Hc.
    rewrite H in Hc.
    destruct (episode_number_digits item) as [ds|].
    + destruct (within_digit_limit ds); [|discriminate Hc].
      destruct Hc as (ep' & Heq & _ & Hpos). now injection Heq as <-.
    + destruct Hc as (ep' & Heq & Hnum). injection Heq as <-. lia.
Qed.

(** X8: the records of the markup fallback.  The fallback returns exactly
    when [int] reads the episode number of every container (none is past
    the digit limit); otherwise it raises ValueError, and nothing else.
    Every record it returns has a title that is a non-empty string (the
    text found, or "Episode N" for the position N) and an episode number
    that is not negative. *)
Theorem fallback_records_are_well_formed (soup : tag) :
  (numbers_readable soup = true <->
   exists eps, _get_episode_ratings_css_fallback soup = Ok eps) /\
  (numbers_readable soup = false <->
   _get_episode_ratings_css_fallback soup = Raise ValueError) /\
  (forall e, _get_episode_ratings_css_fallback soup = Raise e ->
             e = ValueError) /\
  (forall eps,
     _get_episode_ratings_css_fallback soup = Ok eps ->
     Forall (fun ep => nonempty_name (title ep) /\ 0 <= episode_num ep) eps).
Proof.
  pose proof (Extractor.items_loop_cases (episode_items soup) 1 []) as Hc.
  unfold numbers_readable, _get_episode_ratings_css_fallback in *.
  split; [|split; [|split]].
  - destruct (forallb _ (episode_items soup)).
    + split; [intros _; exact Hc|reflexivity].
    + rewrite Hc. split; [discriminate|]. intros [eps Heps]. discriminate Heps.
  - destruct (forallb _ (episode_items soup)).
    + destruct Hc as [out ->]. split; discriminate.
    + split; [intros _; exact Hc|reflexivity].
  - intros e He. destruct (forallb _ (episode_items soup)).
    + destruct Hc as [out Hout]. rewrite Hout in He. discriminate He.
    + rewrite Hc in He. now injection He as <-.
  - intros eps Hloop.
    destruct (Extractor.items_loop_in_order (episode_items soup) 1 [] eps Hloop)
      as (eps' & Heq & Hlen & Hnth).
    cbn [app] in Heq. subst eps'. apply Forall_forall. intros ep Hin.
    apply In_nth_error in Hin. destruct Hin as [k Hk].
    assert (Hlt : (k < List.length (episode_items soup))%nat).
    { rewrite <- Hlen. apply nth_error_Some. congruence. }
    destruct (nth_error (episode_items soup) k) as [item|] eqn:Hitem.
    + destruct (Hnth k item Hitem) as (ep' & Hep' & Hof).
      rewrite Hk in Hep'. injection Hep' as <-.
      apply (episode_of_item_shape _ _ _ Hof). lia.
    + apply nth_error_None in Hitem. lia.
Qed.

(** X9: the seasons of the links.  When the structured data of the
    listing page carries no count, the numbers of the season links are
    within the digit limit of [int], and some link carries a number, the
    seasons returned are exactly the numbers of the links, each once, in
    ascending order. *)
Theorem seasons_are_the_link_numbers (soup : tag) :
  listing_count soup = Some None ->
  links_readable soup = true ->
  link_season_numbers soup <> [] ->
  exists l,
    seasons_from_page soup = Ok l /\
    (forall n, In n l <-> In n (link_season_numbers soup)) /\
    StronglySorted Z.lt l.
Proof.
  unfold listing_count, links_readable, seasons_from_page, link_season_numbers.
  destruct (extract_json_ld soup) as [json_ld|e]; [|discriminate].
  intros Hc Hread Hne. cbn [bind].
  rewrite (seasons_from_payload_count _ _ Hc). cbn [option_map bind].
  destruct (select soup sel_season_links) as [|link rest] eqn:Hsel;
    [contradiction Hne; reflexivity|].
  pose proof (Seasons.collect_seasons_spec (link :: rest) []) as Hspec.
  rewrite Hread in Hspec. destruct Hspec as (out & -> & Hin & Hnd & _).
  cbn [bind].
  assert (Hout : forall n, In n out <-> In n (link_numbers (link :: rest))).
  { intros n. rewrite Hin. cbn. tauto. }
  destruct out as [|k out].
  { exfalso. destruct (link_numbers (link :: rest)) as [|n ns] eqn:E;
      [now apply Hne|]. apply (proj2 (Hout n)). now left. }
  destruct (Seasons.sorted_set (k :: out) (Hnd (NoDup_nil Z))) as [Hs Hp].
  exists (py_sorted (fun n => n) (k :: out)). split; [reflexivity|].
  split; [|exact Hs].
  intros n. rewrite <- Hout. split; intros H.
  - exact (Permutation_in _ (Permutation_sym Hp) H).
  - exact (Permutation_in _ Hp H).
Qed.

End MoreExtractorClaims.

(** Three entries, the second without a number: it is numbered 2. *)
Lemma payload_records_by_position_witness :
  exists eps,
    @payload_loop no_tables three_entries [] = Ok eps /\
    map episode_num eps = [7; 2; 2].
Proof.
  eexists. split; [reflexivity|].
  destruct (@payload_records_by_position no_tables three_entries _ eq_refl)
    as (_ & _ & H).
  reflexivity.
Defined.

(** Links to the seasons 3, 1 and 3: the seasons are 1 and 3. *)
Lemma seasons_are_the_link_numbers_witness :
  exists l,
    @seasons_from_page node_soup no_tables three_links_page = Ok l /\
    l = [1; 3].
Proof.
  destruct (@seasons_are_the_link_numbers node_soup no_tables three_links_page)
    as (l & Hl & _).
  - reflexivity.
  - vm_compute. reflexivity.
  - vm_compute. discriminate.
  - exists l. split; [exact Hl|].
    vm_compute in Hl. injection Hl as <-. reflexivity.
Defined.

(** ** The run *)

Module Run.

Lemma fetched_app (a b : list event) :
  fetched (a ++ b) = (fetched a ++ fetched b)%list.
Proof. unfold fetched. apply flat_map_app. Qed.

Lemma fetched_printed (line : string) (ev : list event) :
  fetched (Printed line :: ev) = fetched ev.
Proof. reflexivity. Qed.

Lemma fetched_fetched (url : string) (ev : list event) :
  fetched (Fetched url :: ev) = url :: fetched ev.
Proof. reflexivity. Qed.

Lemma fetched_nil : fetched [] = [].
Proof. reflexivity. Qed.

Ltac fetched_norm :=
  cbn [app];
  repeat (rewrite ?fetched_app, ?fetched_printed, ?fetched_fetched,
            ?fetched_nil, ?app_nil_r; cbn [app]).

Lemma bind_done {A B : Type} (m : io A) (k : A -> io B) (ev : list event)
  (b : B) :
  io_bind m k = (ev, Done b) ->
  exists ev1 a ev2,
    m = (ev1, Done a) /\ k a = (ev2, Done b) /\ ev = (ev1 ++ ev2)%list.
Proof.
  destruct m as [ev1 [a|f]]; cbn; [|discriminate].
  destruct (k a) as [ev2 out] eqn:Hk. intros H. injection H as <- ->.
  exists ev1, a, ev2. auto.
Qed.

Lemma bind_step {A B : Type} (m : io A) (k : A -> io B) (ev1 ev2 : list event)
  (a : A) (out : outcome B) :
  m = (ev1, Done a) -> k a = (ev2, out) ->
  io_bind m k = ((ev1 ++ ev2)%list, out).
Proof. intros -> H. cbn. now rewrite H. Qed.

Lemma lift_done {A : Type} (r : result A) (ev : list event) (a : A) :
  lift r = (ev, Done a) -> ev = [] /\ r = Ok a.
Proof.
  unfold lift. destruct r; intros H; inversion H; subst; auto.
Qed.

Lemma print_done (line : string) (ev : list event) (u : unit) :
  print line = (ev, Done u) -> ev = [Printed line].
Proof. unfold print. intros H. now injection H as <-. Qed.

(** The largest episode count. *)
Lemma fold_max_spec (f : season_data -> nat) (l : list season_data) (m : nat) :
  let r := fold_left (fun m s => if (m <? f s)%nat then f s else m) l m in
  (m <= r)%nat /\ Forall (fun s => (f s <= r)%nat) l /\
  (r = m \/ Exists (fun s => f s = r) l).
Proof.
  revert m. induction l as [|s l IH]; intros m; cbn [fold_left].
  - cbn. auto.
  - specialize (IH (if (m <? f s)%nat then f s else m)).
    cbn zeta in *. destruct IH as (Hm & Hall & Hex).
    destruct (Nat.ltb_spec m (f s)) as [Hlt|Hge].
    + repeat split; [lia| |].
      * constructor; [lia|exact Hall].
      * right. destruct Hex as [->|Hex]; [now left|now right].
    + repeat split; [lia| |].
      * constructor; [lia|exact Hall].
      * destruct Hex as [->|Hex]; [now left|right; now right].
Qed.

Lemma max_len_spec (sds : list season_data) :
  Forall (fun s => (List.length (episodes s) <= max_len sds)%nat) sds /\
  match sds with
  | [] => max_len sds = 0%nat
  | _ :: _ => Exists (fun s => List.length (episodes s) = max_len sds) sds
  end.
Proof.
  destruct sds as [|s sds]; [split; [constructor|reflexivity]|].
  unfold max_len.
  destruct (fold_max_spec (fun s => List.length (episodes s)) sds
              (List.length (episodes s))) as (Hm & Hall & Hex).
  cbn zeta in *. split.
  - constructor; [exact Hm|exact Hall].
  - destruct Hex as [->|Hex]; [now left|now right].
Qed.

Lemma rated_count_le (s : season_data) :
  (rated_count s <= List.length (episodes s))%nat.
Proof.
  unfold rated_count, present_ratings.
  induction (episodes s) as [|ep eps IH]; [cbn; lia|].
  cbn [flat_map]. rewrite length_app. destruct (rating ep); cbn; lia.
Qed.

Lemma rated_total_le (sds : list season_data) (m : nat) :
  Forall (fun s => (List.length (episodes s) <= m)%nat) sds ->
  (List.length (flat_map rated_entries sds) <= List.length sds * m)%nat.
Proof.
  induction 1 as [|s sds Hs _ IH]; [cbn; lia|].
  cbn [flat_map List.length]. rewrite length_app.
  rewrite Analytics.length_rated_entries.
  pose proof (rated_count_le s). lia.
Qed.

Section Web.

Context {soup_impl : Soup} {interp : Interp} {web : Web}.

Lemma fetch_page_done (url : string) (ev : list event) (soup : tag) :
  fetch_page url = (ev, Done soup) ->
  ev = [Fetched url] /\ fetch url = Some soup.
Proof.
  unfold fetch_page. destruct (fetch url); intros H; inversion H; subst; auto.
Qed.

(** *** Orderly runs *)

Lemma orderly_bind {A B : Type} (m : io A) (k : A -> io B) :
  orderly m -> (forall a, orderly (k a)) -> orderly (io_bind m k).
Proof.
  destruct m as [ev1 [a|f]]; cbn [io_bind]; [|trivial].
  intros Hm Hk. specialize (Hk a). destruct (k a) as [ev2 out].
  unfold orderly in *. cbn [fst snd] in *. rewrite fetched_app.
  destruct out as [b|[e|u]].
  - rewrite forallb_app, Hm, Hk. reflexivity.
  - rewrite forallb_app, Hm, Hk. reflexivity.
  - destruct Hk as (us & -> & Hus & Hu).
    exists (fetched ev1 ++ us)%list. rewrite <- app_assoc.
    rewrite forallb_app, Hm, Hus. auto.
Qed.

Lemma orderly_lift {A : Type} (r : result A) : orderly (lift r).
Proof. unfold orderly, lift. destruct r; reflexivity. Qed.

Lemma orderly_print (line : string) : orderly (print line).
Proof. reflexivity. Qed.

Lemma orderly_ret {A : Type} (a : A) : orderly (io_ret a).
Proof. reflexivity. Qed.

Lemma orderly_fetch_page (url : string) : orderly (fetch_page url).
Proof.
  unfold orderly, fetch_page, answered. cbn [fst snd].
  destruct (fetch url) eqn:E; cbn.
  - unfold answered. now rewrite E.
  - exists []. unfold answered. rewrite E. auto.
Qed.

Lemma orderly_scrape_seasons (imdb_id : string) (season_nums : list Z)
  (seasons_data : list season_data) :
  orderly (scrape_seasons imdb_id season_nums seasons_data).
Proof.
  revert seasons_data.
  induction season_nums as [|n rest IH]; intros acc; cbn [scrape_seasons].
  - apply orderly_ret.
  - apply orderly_bind; [apply orderly_print|]. intros _.
    apply orderly_bind.
    { apply orderly_bind; [apply orderly_fetch_page|].
      intros soup. apply orderly_lift. }
    intros eps. apply orderly_bind; [apply orderly_print|]. intros _.
    apply IH.
Qed.

Lemma orderly_get_seasons (imdb_id : string) (v : value) :
  orderly (get_seasons_by_id imdb_id v).
Proof.
  unfold get_seasons_by_id. apply orderly_bind; [apply orderly_lift|].
  intros [|]; [apply orderly_lift|].
  apply orderly_bind; [apply orderly_fetch_page|]. intros soup.
  apply orderly_lift.
Qed.

(** *** Completed runs *)

Lemma scrape_seasons_done (imdb_id : string) (season_nums : list Z)
  (acc out : list season_data) (ev : list event) :
  scrape_seasons imdb_id season_nums acc = (ev, Done out) ->
  exists new,
    out = (acc ++ new)%list /\
    map season_num new = season_nums /\
    fetched ev = map (season_url imdb_id) season_nums /\
    Forall (season_of_its_page imdb_id) new.
Proof.
  revert acc out ev.
  induction season_nums as [|n rest IH]; intros acc out ev;
    cbn [scrape_seasons].
  - intros H. injection H as <- <-. exists []. rewrite app_nil_r.
    repeat split. constructor.
  - intros H.
    apply bind_done in H. destruct H as (e1 & [] & e2 & Hp & H & ->).
    apply print_done in Hp. subst e1.
    apply bind_done in H. destruct H as (e3 & eps & e4 & He & H & ->).
    apply bind_done in He. destruct He as (e5 & soup & e6 & Hf & Hl & ->).
    apply fetch_page_done in Hf. destruct Hf as [-> Hf].
    apply lift_done in Hl. destruct Hl as [-> Hl].
    apply bind_done in H. destruct H as (e7 & [] & e8 & Hp & H & ->).
    apply print_done in Hp. subst e7.
    destruct (IH _ _ _ H) as (new & -> & Hnums & Hfetched & Hall).
    exists ({| season_num := n; episodes := eps |} :: new).
    rewrite <- app_assoc. cbn [app map season_num]. repeat split.
    + now rewrite Hnums.
    + fetched_norm. now rewrite Hfetched.
    + constructor; [|exact Hall]. exists soup. cbn [season_num episodes].
      auto.
Qed.

Lemma scrape_seasons_completes (imdb_id : string) (season_nums : list Z)
  (acc : list season_data) :
  (forall n, In n season_nums ->
     exists soup eps, fetch (season_url imdb_id n) = Some soup /\
                      get_episode_ratings soup = Ok eps) ->
  exists ev out, scrape_seasons imdb_id season_nums acc = (ev, Done out).
Proof.
  revert acc. induction season_nums as [|n rest IH]; intros acc Hpages;
    cbn [scrape_seasons].
  - eexists _, _. reflexivity.
  - destruct (Hpages n (or_introl eq_refl)) as (soup & eps & Hf & He).
    destruct (IH (acc ++ [{| season_num := n; episodes := eps |}])%list)
      as (ev & out & Hrest).
    { intros k Hk. apply Hpages. now right. }
    eexists _, out.
    eapply bind_step; [reflexivity|].
    eapply bind_step.
    { eapply bind_step; [unfold fetch_page; rewrite Hf; reflexivity|].
      unfold lift. rewrite He. reflexivity. }
    eapply bind_step; [reflexivity|]. exact Hrest.
Qed.

Lemma get_seasons_done (imdb_id : string) (v : value) (ev : list event)
  (nums : list Z) :
  get_seasons_by_id imdb_id v = (ev, Done nums) ->
  exists positive : bool,
    known_count_positive v = Ok positive /\
    fetched ev = (if positive then [] else [listing_url imdb_id]) /\
    if positive then range_1_to_plus_1 v = Ok nums
    else exists soup, fetch (listing_url imdb_id) = Some soup /\
                      seasons_from_page soup = Ok nums.
Proof.
  unfold get_seasons_by_id. intros H.
  apply bind_done in H. destruct H as (e1 & positive & e2 & Hl & H & ->).
  apply lift_done in Hl. destruct Hl as [-> Hpos].
  exists positive. split; [exact Hpos|]. destruct positive.
  - apply lift_done in H. destruct H as [-> H]. auto.
  - apply bind_done in H. destruct H as (e3 & soup & e4 & Hf & Hl & ->).
    apply fetch_page_done in Hf. destruct Hf as [-> Hf].
    apply lift_done in Hl. destruct Hl as [-> Hl].
    split; [reflexivity|]. eauto.
Qed.

(** A completed run, step by step. *)
Lemma scrape_show_done (url : string) (ev : list event) (d : ShowData.t) :
  scrape_show url = (ev, Done d) ->
  exists imdb_id soup info evs nums evl sds,
    get_imdb_id url = Ok imdb_id /\
    fetch (show_url imdb_id) = Some soup /\
    get_show_info soup = Ok info /\
    get_seasons_by_id imdb_id (number_of_seasons info) = (evs, Done nums) /\
    scrape_seasons imdb_id nums [] = (evl, Done sds) /\
    fetched ev = (show_url imdb_id :: fetched evs ++ fetched evl)%list /\
    d = {| ShowData.name := name info;
           ShowData.poster_url := poster_url info;
           ShowData.imdb_id := imdb_id;
           ShowData.seasons := sds;
           ShowData.analytics := calculate_analytics sds;
           ShowData.max_episodes := max_len sds |}.
Proof.
  unfold scrape_show, get_show_info_by_id. intros H.
  apply bind_done in H. destruct H as (e1 & imdb_id & e2 & Hid & H & ->).
  apply lift_done in Hid. destruct Hid as [-> Hid].
  apply bind_done in H. destruct H as (e1 & [] & e3 & Hp & H & ->).
  apply print_done in Hp. subst e1.
  apply bind_done in H. destruct H as (e1 & [] & e4 & Hp & H & ->).
  apply print_done in Hp. subst e1.
  apply bind_done in H. destruct H as (e1 & info & e5 & Hinfo & H & ->).
  apply bind_done in Hinfo. destruct Hinfo as (e6 & soup & e7 & Hf & Hl & ->).
  apply fetch_page_done in Hf. destruct Hf as [-> Hf].
  apply lift_done in Hl. destruct Hl as [-> Hl].
  apply bind_done in H. destruct H as (e1 & [] & e8 & Hp & H & ->).
  apply print_done in Hp. subst e1.
  apply bind_done in H. destruct H as (e1 & [] & e9 & Hp & H & ->).
  apply print_done in Hp. subst e1.
  apply bind_done in H. destruct H as (evs & nums & e10 & Hnums & H & ->).
  apply bind_done in H. destruct H as (e1 & [] & e11 & Hp & H & ->).
  apply print_done in Hp. subst e1.
  apply bind_done in H. destruct H as (evl & sds & e12 & Hsds & H & ->).
  apply bind_done in H. destruct H as (e1 & [] & e13 & Hp & H & ->).
  apply print_done in Hp. subst e1.
  injection H as <- <-.
  exists imdb_id, soup, info, evs, nums, evl, sds.
  repeat (split; [eassumption|]). split; [|reflexivity].
  fetched_norm. reflexivity.
Qed.

End Web.

(** A reference without an identifier. *)
Lemma no_identifier_raises (url : string) :
  (forall pre m post, url = pre ++ m ++ post -> ~ is_imdb_id m) ->
  get_imdb_id url = Raise ValueError.
Proof.
  intros Hnone.
  pose proof (Str.search_first re_imdb_id (hit "tt") end_of_id
                Resolver.run_imdb_id url) as Hs.
  unfold get_imdb_id. destruct (search re_imdb_id url) as [m|]; [|reflexivity].
  exfalso. destruct Hs as (pre & post & Hurl & Hhit & _).
  destruct (Resolver.hit_id post Hhit) as (Hid & Hpost & _).
  apply (Hnone pre ("tt" ++ take_while is_digit (skip 2 post))
           (drop_while is_digit (skip 2 post))); [|exact Hid].
  rewrite <- Hpost. exact Hurl.
Qed.

Lemma identifier_is_found (url : string) :
  (exists pre m post, url = pre ++ m ++ post /\ is_imdb_id m) ->
  exists imdb_id, get_imdb_id url = Ok imdb_id.
Proof.
  intros (pre & m & post & Hurl & Hid).
  pose proof (Str.search_first re_imdb_id (hit "tt") end_of_id
                Resolver.run_imdb_id url) as Hs.
  unfold get_imdb_id. destruct (search re_imdb_id url) as [f|]; [eauto|].
  pose proof (Resolver.id_hit m post Hid) as Hhit.
  rewrite (Hs pre (m ++ post) Hurl) in Hhit. discriminate.
Qed.

End Run.

Module RunSteps.

Lemma bind_events {A B : Type} (m : io A) (k : A -> io B) :
  exists rest, fst (io_bind m k) = (fst m ++ rest)%list.
Proof.
  destruct m as [ev [a|f]]; cbn [io_bind].
  - destruct (k a) as [ev' out]. exists ev'. reflexivity.
  - exists []. cbn. now rewrite app_nil_r.
Qed.

Lemma bind_of_done {A B : Type} (ev : list event) (a : A) (k : A -> io B) :
  io_bind (ev, Done a) k = ((ev ++ fst (k a))%list, snd (k a)).
Proof. cbn. destruct (k a). reflexivity. Qed.

Section Web.

Context {soup_impl : Soup} {interp : Interp} {web : Web}.

Lemma scrape_show_completes (url imdb_id : string) (soup : tag)
  (info : show_info) (nums : list Z) (evs : list event) :
  get_imdb_id url = Ok imdb_id ->
  fetch (show_url imdb_id) = Some soup ->
  get_show_info soup = Ok info ->
  get_seasons_by_id imdb_id (number_of_seasons info) = (evs, Done nums) ->
  (forall n, In n nums ->
     exists page eps, fetch (season_url imdb_id n) = Some page /\
                      get_episode_ratings page = Ok eps) ->
  exists ev d, scrape_show url = (ev, Done d).
Proof.
  intros Hid Hf Hinfo Hnums Hpages.
  destruct (Run.scrape_seasons_completes imdb_id nums [] Hpages)
    as (evl & sds & Hsds).
  eexists _, _. unfold scrape_show.
  eapply Run.bind_step; [unfold lift; rewrite Hid; reflexivity|].
  eapply Run.bind_step; [reflexivity|].
  eapply Run.bind_step; [reflexivity|].
  eapply Run.bind_step.
  { unfold get_show_info_by_id. eapply Run.bind_step.
    - unfold fetch_page. rewrite Hf. reflexivity.
    - unfold lift. rewrite Hinfo. reflexivity. }
  eapply Run.bind_step; [reflexivity|].
  eapply Run.bind_step; [reflexivity|].
  eapply Run.bind_step; [exact Hnums|].
  eapply Run.bind_step; [reflexivity|].
  eapply Run.bind_step; [exact Hsds|].
  eapply Run.bind_step; [reflexivity|].
  reflexivity.
Qed.

End Web.

End RunSteps.

Section RunClaims.

Context {soup_impl : Soup} {interp : Interp} {web : Web}.

(** X10: the requests of a completed run.  A run of [scrape_show] that
    returns has requested, in this order: the show page of the identifier
    found in the reference; the listing page, only when the season count of
    the show page is absent or not positive; and the page of each season of
    the result, in the order of the result.  With a count that is used this
    is one request more than there are seasons, otherwise two more. *)
Theorem completed_run_requests (url : string) (ev : list event)
  (d : ShowData.t) :
  scrape_show url = (ev, Done d) ->
  let imdb_id := ShowData.imdb_id d in
  get_imdb_id url = Ok imdb_id /\
  exists soup info (positive : bool),
    fetch (show_url imdb_id) = Some soup /\
    get_show_info soup = Ok info /\
    known_count_positive (number_of_seasons info) = Ok positive /\
    fetched ev =
      (show_url imdb_id ::
         (if positive then [] else [listing_url imdb_id]) ++
         map (season_url imdb_id) (map season_num (ShowData.seasons d)))%list.
Proof.
  intros H. apply Run.scrape_show_done in H.
  destruct H as (id & soup & info & evs & nums & evl & sds
                 & Hid & Hf & Hinfo & Hnums & Hsds & Hev & ->).
  cbn [ShowData.imdb_id ShowData.seasons]. split; [exact Hid|].
  apply Run.get_seasons_done in Hnums.
  destruct Hnums as (positive & Hpos & Hevs & _).
  apply Run.scrape_seasons_done in Hsds.
  destruct Hsds as (new & Hout & Hmap & Hevl & _).
  cbn [app] in Hout. subst sds.
  exists soup, info, positive. repeat (split; [assumption|]).
  rewrite Hev, Hevs, Hevl, Hmap. reflexivity.
Qed.

(** X11: the record of a completed run.  The name and the poster of the
    result are those recovered from the show page; the seasons of the
    result are numbered, in order, as the season list was obtained (from
    the count of the show page when it is positive, from the listing page
    otherwise); and the episodes of each season are what the extractor
    makes of the page of that season. *)
Theorem completed_run_record (url : string) (ev : list event)
  (d : ShowData.t) :
  scrape_show url = (ev, Done d) ->
  let imdb_id := ShowData.imdb_id d in
  let nums := map season_num (ShowData.seasons d) in
  exists soup info,
    fetch (show_url imdb_id) = Some soup /\
    get_show_info soup = Ok info /\
    ShowData.name d = name info /\
    ShowData.poster_url d = poster_url info /\
    (known_count_positive (number_of_seasons info) = Ok true /\
     range_1_to_plus_1 (number_of_seasons info) = Ok nums \/
     known_count_positive (number_of_seasons info) = Ok false /\
     exists page, fetch (listing_url imdb_id) = Some page /\
                  seasons_from_page page = Ok nums) /\
    Forall (season_of_its_page imdb_id) (ShowData.seasons d).
Proof.
  intros H. apply Run.scrape_show_done in H.
  destruct H as (id & soup & info & evs & nums & evl & sds
                 & Hid & Hf & Hinfo & Hnums & Hsds & Hev & ->).
  cbn [ShowData.imdb_id ShowData.seasons ShowData.name ShowData.poster_url].
  apply Run.get_seasons_done in Hnums.
  destruct Hnums as (positive & Hpos & _ & Hlist).
  apply Run.scrape_seasons_done in Hsds.
  destruct Hsds as (new & Hout & Hmap & _ & Hall).
  cbn [app] in Hout. subst sds. rewrite Hmap.
  exists soup, info. repeat (split; [auto; fail|]). split; [|exact Hall].
  destruct positive; [left|right]; auto.
Qed.

(** X12: the grid of a completed run.  The summary of the result is the
    summary of its seasons; no season has more episodes than
    [max_episodes], which is the episode count of some season, or 0 when
    there is no season; and the rated episodes the summary counts fit the
    grid of seasons by [max_episodes]. *)
Theorem completed_run_grid (url : string) (ev : list event)
  (d : ShowData.t) :
  scrape_show url = (ev, Done d) ->
  let sds := ShowData.seasons d in
  ShowData.analytics d = calculate_analytics sds /\
  Forall (fun s => (List.length (episodes s) <= ShowData.max_episodes d)%nat)
    sds /\
  match sds with
  | [] => ShowData.max_episodes d = 0%nat
  | _ :: _ =>
      Exists (fun s => List.length (episodes s) = ShowData.max_episodes d) sds
  end /\
  (total_episodes (ShowData.analytics d)
   <= List.length sds * ShowData.max_episodes d)%nat.
Proof.
  intros H. apply Run.scrape_show_done in H.
  destruct H as (id & soup & info & evs & nums & evl & sds
                 & _ & _ & _ & _ & _ & _ & ->).
  cbn [ShowData.seasons ShowData.analytics ShowData.max_episodes].
  destruct (Run.max_len_spec sds) as [Hall Hmax].
  split; [reflexivity|]. split; [exact Hall|]. split; [exact Hmax|].
  pose proof (Run.rated_total_le sds (max_len sds) Hall) as Hle.
  destruct (calculate_analytics_cases sds) as [[_ ->] | (_ & _ & -> & _)].
  - cbn [total_episodes]. lia.
  - exact Hle.
Qed.

(** X13: a run stops at the first request that fails.  Whatever the
    reference, every page the run requested was answered, but the last one
    of a run that ended with the failure of a request: that run ended with
    the failure of this last request, and requested nothing after it. *)
Theorem run_stops_at_first_failed_request (url : string) :
  orderly (scrape_show url).
Proof.
  unfold scrape_show.
  apply Run.orderly_bind; [apply Run.orderly_lift|]. intros imdb_id.
  apply Run.orderly_bind; [apply Run.orderly_print|]. intros _.
  apply Run.orderly_bind; [apply Run.orderly_print|]. intros _.
  apply Run.orderly_bind.
  { unfold get_show_info_by_id.
    apply Run.orderly_bind; [apply Run.orderly_fetch_page|].
    intros soup. apply Run.orderly_lift. }
  intros info.
  apply Run.orderly_bind; [apply Run.orderly_print|]. intros _.
  apply Run.orderly_bind; [apply Run.orderly_print|]. intros _.
  apply Run.orderly_bind; [apply Run.orderly_get_seasons|]. intros nums.
  apply Run.orderly_bind; [apply Run.orderly_print|]. intros _.
  apply Run.orderly_bind; [apply Run.orderly_scrape_seasons|]. intros sds.
  apply Run.orderly_bind; [apply Run.orderly_print|]. intros _.
  apply Run.orderly_ret.
Qed.

(** X14: the first request.  A run on a reference that holds no identifier
    ("tt" followed by a digit) requests nothing, prints nothing and ends
    with the error of the resolver (ValueError); a run on any other
    reference announces the identifier and requests the show page of it
    first. *)
Theorem run_starts_with_the_show_page (url : string) :
  ((forall pre m post, url = pre ++ m ++ post -> ~ is_imdb_id m) ->
   scrape_show url = ([], Failed (PyError ValueError))) /\
  ((exists pre m post, url = pre ++ m ++ post /\ is_imdb_id m) ->
   exists imdb_id rest,
     get_imdb_id url = Ok imdb_id /\
     fst (scrape_show url) =
       Printed ("Scraping IMDB ID: " ++ imdb_id)
         :: Printed "Fetching show info..."
         :: Fetched (show_url imdb_id) :: rest).
Proof.
  split.
  - intros Hnone. unfold scrape_show.
    rewrite (Run.no_identifier_raises url Hnone). reflexivity.
  - intros Hsome. destruct (Run.identifier_is_found url Hsome) as [id Hid].
    unfold scrape_show. rewrite Hid. unfold lift, print.
    rewrite !RunSteps.bind_of_done. cbn [fst app].
    match goal with
    | |- context [fst (io_bind ?m ?k)] =>
        destruct (RunSteps.bind_events m k) as [r1 Hr1]; rewrite Hr1
    end.
    unfold get_show_info_by_id.
    match goal with
    | |- context [fst (io_bind ?m ?k)] =>
        destruct (RunSteps.bind_events m k) as [r2 Hr2]; rewrite Hr2
    end.
    cbn [fetch_page fst app]. eauto.
Qed.

(** X15: a run on a show whose page counts its seasons.  When the
    reference holds an identifier, its show page is answered and yields a
    season count [n] that is a positive integer, and the page of each of
    the seasons 1 to [n] is answered and can be extracted, the run returns:
    its result has the seasons 1 to [n] in order, and it requested the show
    page and then these [n] pages, never the listing page. *)
Theorem run_with_known_count (url imdb_id : string) (soup : tag)
  (info : show_info) (n : Z) :
  get_imdb_id url = Ok imdb_id ->
  fetch (show_url imdb_id) = Some soup ->
  get_show_info soup = Ok info ->
  number_of_seasons info = VInt n ->
  0 < n ->
  (forall k, 1 <= k <= n ->
     exists page eps, fetch (season_url imdb_id k) = Some page /\
                      get_episode_ratings page = Ok eps) ->
  exists ev d,
    scrape_show url = (ev, Done d) /\
    map season_num (ShowData.seasons d) = range_list 1 (n + 1) /\
    fetched ev =
      show_url imdb_id :: map (season_url imdb_id) (range_list 1 (n + 1)).
Proof.
  intros Hid Hf Hinfo Hn Hpos Hpages.
  assert (Hnums : get_seasons_by_id imdb_id (number_of_seasons info) =
                  ([], Done (range_list 1 (n + 1)))).
  { unfold get_seasons_by_id. rewrite Hn.
    unfold known_count_positive, range_1_to_plus_1, lift.
    rewrite (proj2 (Z.ltb_lt 0 n) Hpos). reflexivity. }
  destruct (RunSteps.scrape_show_completes url imdb_id soup info _ _
              Hid Hf Hinfo Hnums) as (ev & d & Hrun).
  { intros k Hk. apply Seasons.range_list_in in Hk. apply Hpages. lia. }
  exists ev, d. split; [exact Hrun|].
  apply Run.scrape_show_done in Hrun.
  destruct Hrun as (id' & soup' & info' & evs & nums & evl & sds
                    & Hid' & Hf' & Hinfo' & Hnums' & Hsds & Hev & ->).
  rewrite Hid in Hid'. injection Hid' as <-.
  rewrite Hf in Hf'. injection Hf' as <-.
  rewrite Hinfo in Hinfo'. injection Hinfo' as <-.
  rewrite Hnums in Hnums'. injection Hnums' as <- <-.
  apply Run.scrape_seasons_done in Hsds.
  destruct Hsds as (new & Hout & Hmap & Hevl & _).
  cbn [app] in Hout. subst sds. cbn [ShowData.seasons].
  split; [exact Hmap|]. rewrite Hev, Hevl. reflexivity.
Qed.

End RunClaims.

(** The tiny show: three requests, two seasons. *)
Lemma completed_run_requests_witness :
  exists ev d,
    @scrape_show node_soup tiny_interp tiny_web tiny_url = (ev, Done d) /\
    fetched ev = [show_url "tt1"; season_url "tt1" 1; season_url "tt1" 2].
Proof.
  eexists _, _. split; [vm_compute; reflexivity|].
  destruct (@completed_run_requests node_soup tiny_interp tiny_web tiny_url
              _ _ eq_refl) as (_ & _ & _ & positive & _ & _ & _ & H).
  vm_compute. reflexivity.
Defined.

(** The tiny show: the second season holds its two episodes in the order
    of their numbers. *)
Lemma completed_run_record_witness :
  exists ev d,
    @scrape_show node_soup tiny_interp tiny_web tiny_url = (ev, Done d) /\
    ShowData.name d = VStr "Tiny" /\
    map (fun s => map title (episodes s)) (ShowData.seasons d) =
      [[VStr "One"]; [VStr "Two"; VStr "Three"]].
Proof.
  eexists _, _. split; [vm_compute; reflexivity|].
  destruct (@completed_run_record node_soup tiny_interp tiny_web tiny_url
              _ _ eq_refl) as (_ & _ & _ & _ & _ & _ & _ & H).
  split; vm_compute; reflexivity.
Defined.

(** The tiny show: three rated episodes in a grid of two by two. *)
Lemma completed_run_grid_witness :
  exists ev d,
    @scrape_show node_soup tiny_interp tiny_web tiny_url = (ev, Done d) /\
    ShowData.max_episodes d = 2%nat /\
    total_episodes (ShowData.analytics d) = 3%nat.
Proof.
  eexists _, _. split; [vm_compute; reflexivity|].
  destruct (@completed_run_grid node_soup tiny_interp tiny_web tiny_url
              _ _ eq_refl) as (_ & _ & _ & H).
  split; vm_compute; reflexivity.
Defined.

(** The tiny show counts two seasons on its show page. *)
Lemma run_with_known_count_witness :
  exists ev d,
    @scrape_show node_soup tiny_interp tiny_web tiny_url = (ev, Done d) /\
    map season_num (ShowData.seasons d) = [1; 2].
Proof.
  destruct (@run_with_known_count node_soup tiny_interp tiny_web tiny_url
              "tt1" (page_with_json_ld tiny_show_json)
              {| name := VStr "Tiny"; poster_url := None;
                 number_of_seasons := VInt 2 |} 2)
    as (ev & d & Hrun & Hnums & _).
  - reflexivity.
  - reflexivity.
  - reflexivity.
  - reflexivity.
  - lia.
  - intros k Hk. assert (Hk' : k = 1 \/ k = 2) by lia.
    destruct Hk' as [-> | ->]; eexists _, _; split; reflexivity.
  - exists ev, d. split; [exact Hrun|exact Hnums].
Defined.

Section CountClaims.

Context {soup_impl : Soup} {interp : Interp} {web : Web}.

(** X16: a season count that is no number.  When the show page yields a
    season count that is a string, an array, an object or a positive float,
    the run ends with TypeError after its first request: the comparison of
    the count with 0, or [range] on a float, raises, and nothing handles
    it. *)
Theorem run_with_unusable_count (url imdb_id : string) (soup : tag)
  (info : show_info) :
  get_imdb_id url = Ok imdb_id ->
  fetch (show_url imdb_id) = Some soup ->
  get_show_info soup = Ok info ->
  count_raises (number_of_seasons info) = true ->
  exists ev,
    scrape_show url = (ev, Failed (PyError TypeError)) /\
    fetched ev = [show_url imdb_id].
Proof.
  intros Hid Hf Hinfo Hcount.
  assert (Hnums : get_seasons_by_id imdb_id (number_of_seasons info) =
                  ([], Failed (PyError TypeError))).
  { unfold get_seasons_by_id.
    destruct (number_of_seasons info) as [| b | n | x | s | l | o];
      cbn [count_raises] in Hcount; try discriminate Hcount;
      try reflexivity.
    unfold known_count_positive, lift. rewrite RunSteps.bind_of_done.
    rewrite Hcount. reflexivity. }
  eexists. split.
  - unfold scrape_show.
    eapply Run.bind_step; [unfold lift; rewrite Hid; reflexivity|].
    eapply Run.bind_step; [reflexivity|].
    eapply Run.bind_step; [reflexivity|].
    eapply Run.bind_step.
    { unfold get_show_info_by_id. eapply Run.bind_step.
      - unfold fetch_page. rewrite Hf. reflexivity.
      - unfold lift. rewrite Hinfo. reflexivity. }
    eapply Run.bind_step; [reflexivity|].
    eapply Run.bind_step; [reflexivity|].
    rewrite Hnums. reflexivity.
  - reflexivity.
Qed.

End CountClaims.

(** The count "2", a string, ends the run after the show page. *)
Lemma run_with_unusable_count_witness :
  exists ev,
    @scrape_show node_soup quoted_count_interp quoted_count_web tiny_url =
      (ev, Failed (PyError TypeError)) /\
    fetched ev = [show_url "tt1"].
Proof.
  apply (@run_with_unusable_count node_soup quoted_count_interp
           quoted_count_web tiny_url "tt1"
           (page_with_json_ld quoted_count_json)
           {| name := VStr "Tiny"; poster_url := None;
              number_of_seasons := VStr "2" |}); reflexivity.
Defined.
